(** * Binance futures trading bot: signing, validation and gateway

    A shallow embedding of [bot/client.py], [bot/validators.py],
    [bot/orders.py], [bot/logging_config.py] and the order and price
    commands of [cli.py], together with the properties of the request
    signer, the parameter validators and the exchange gateway.

    Conventions.
    - A Python [str] is held as a Rocq [string] carrying its UTF-8 bytes, so
      [str.encode()] is the passage to the list of bytes.  The character
      classes of [str.strip], [str.upper] and [str.isalpha] are given for
      ASCII; Python consults the Unicode tables for code points above 127,
      which are not part of this development.
    - A Python [dict] is an insertion-ordered association list without
      duplicate keys; dict objects live in a heap and are passed by
      reference.
    - Exceptions are values of the type [exn]; a computation yields
      [Raise e] or [Return v].
    - The network is a function from the request handed to the session to
      the outcome of the transport, and the clock is the argument [now],
      the reading [int(time.time() * 1000)].
    - The interpreter bounds the nesting of calls; the argument [depth] is
      the number of nested calls left when [resp.json()] decodes a body,
      one of which the decoder enters for every object and array it
      opens. *)

From Stdlib Require Import ZArith NArith List Bool Lia.
From Stdlib.Strings Require Import String Ascii Byte.
From stdpp Require Import base list.
Import ListNotations.

Local Open Scope list_scope.
Local Open Scope string_scope.
Local Open Scope Z_scope.

(* ===================================================================== *)
(** ** Bytes and strings *)

Module PyStr.

Definition byte_to_Z (b : byte) : Z := Z.of_N (Byte.to_N b).

Definition byte_of_Z (z : Z) : byte :=
  match Byte.of_N (Z.to_N (z mod 256)) with
  | Some b => b
  | None => x00
  end.

(** [s.encode()]: the UTF-8 bytes of the string. *)
Definition encode (s : string) : list byte := list_byte_of_string s.

Definition code (c : ascii) : Z := Z.of_N (N_of_ascii c).

Definition chr (z : Z) : ascii := ascii_of_N (Z.to_N z).

Definition in_range (lo hi : Z) (c : ascii) : bool :=
  (lo <=? code c) && (code c <=? hi).

Definition is_digit (c : ascii) : bool := in_range 48 57 c.
Definition is_upper (c : ascii) : bool := in_range 65 90 c.
Definition is_lower (c : ascii) : bool := in_range 97 122 c.
Definition is_alpha (c : ascii) : bool := is_upper c || is_lower c.

(** What [str.strip()] removes: TAB, LF, VT, FF, CR, the separators
    FS, GS, RS, US and the space. *)
Definition is_space (c : ascii) : bool :=
  in_range 9 13 c || in_range 28 32 c.

Definition upper_char (c : ascii) : ascii :=
  if is_lower c then chr (code c - 32) else c.

Definition lower_char (c : ascii) : ascii :=
  if is_upper c then chr (code c + 32) else c.

Fixpoint map_chars (f : ascii -> ascii) (s : string) : string :=
  match s with
  | EmptyString => EmptyString
  | String c r => String (f c) (map_chars f r)
  end.

Definition upper : string -> string := map_chars upper_char.
Definition lower : string -> string := map_chars lower_char.

Fixpoint all_chars (p : ascii -> bool) (s : string) : bool :=
  match s with
  | EmptyString => true
  | String c r => p c && all_chars p r
  end.

(** [s.isalpha()]: non-empty and every character alphabetic. *)
Definition isalpha (s : string) : bool :=
  match s with
  | EmptyString => false
  | _ => all_chars is_alpha s
  end.

Fixpoint lstrip (s : string) : string :=
  match s with
  | String c r => if is_space c then lstrip r else s
  | EmptyString => EmptyString
  end.

Fixpoint rstrip (s : string) : string :=
  match s with
  | EmptyString => EmptyString
  | String c r =>
      match rstrip r with
      | EmptyString => if is_space c then EmptyString else String c EmptyString
      | r' => String c r'
      end
  end.

Definition strip (s : string) : string := rstrip (lstrip s).

Definition len (s : string) : Z := Z.of_nat (String.length s).

(** [sep.join(parts)] *)
Fixpoint join (sep : string) (parts : list string) : string :=
  match parts with
  | [] => EmptyString
  | [p] => p
  | p :: rest => p ++ sep ++ join sep rest
  end.

Fixpoint remove_char (x : ascii) (s : string) : string :=
  match s with
  | EmptyString => EmptyString
  | String c r =>
      if Ascii.eqb c x then remove_char x r else String c (remove_char x r)
  end.

Definition hex_digit (upper_case : bool) (n : Z) : ascii :=
  if n <? 10 then chr (48 + n)
  else if upper_case then chr (55 + n) else chr (87 + n).

(** Decimal rendering of a natural number, [str(n)]. *)
Fixpoint digits_of_pos (fuel : nat) (n : Z) (acc : string) : string :=
  match fuel with
  | O => acc
  | S fuel' =>
      let acc' := String (chr (48 + n mod 10)) acc in
      if n <? 10 then acc' else digits_of_pos fuel' (n / 10) acc'
  end.

Definition str_of_nonneg (n : Z) : string :=
  digits_of_pos (S (Z.to_nat (Z.log2 n))) n EmptyString.

(** [str(n)] for a Python [int]. *)
Definition str_of_int (n : Z) : string :=
  if n <? 0 then String "-" (str_of_nonneg (- n)) else str_of_nonneg n.

End PyStr.

(* ===================================================================== *)
(** ** SHA-256 and HMAC (hashlib.sha256, hmac.new(...).hexdigest()) *)

Module Sha256.
Import PyStr.

Definition w32 : Z := 4294967296.

Definition add32 (a b : Z) : Z := (a + b) mod w32.

Definition rotr (n x : Z) : Z :=
  Z.lor (Z.shiftr x n) (Z.shiftl x (32 - n) mod w32).

Definition not32 (x : Z) : Z := Z.lxor x (w32 - 1).

Definition Ch (x y z : Z) : Z :=
  Z.lxor (Z.land x y) (Z.land (not32 x) z).

Definition Maj (x y z : Z) : Z :=
  Z.lxor (Z.lxor (Z.land x y) (Z.land x z)) (Z.land y z).

Definition bsig0 (x : Z) : Z :=
  Z.lxor (Z.lxor (rotr 2 x) (rotr 13 x)) (rotr 22 x).

Definition bsig1 (x : Z) : Z :=
  Z.lxor (Z.lxor (rotr 6 x) (rotr 11 x)) (rotr 25 x).

Definition ssig0 (x : Z) : Z :=
  Z.lxor (Z.lxor (rotr 7 x) (rotr 18 x)) (Z.shiftr x 3).

Definition ssig1 (x : Z) : Z :=
  Z.lxor (Z.lxor (rotr 17 x) (rotr 19 x)) (Z.shiftr x 10).

(** Integer cube root, found bit by bit from the top. *)
Fixpoint icbrt_from (bit : nat) (x r : Z) : Z :=
  let r' := r + 2 ^ Z.of_nat bit in
  let r1 := if r' * r' * r' <=? x then r' else r in
  match bit with
  | O => r1
  | S b => icbrt_from b x r1
  end.

Definition icbrt (x : Z) : Z := icbrt_from 40 x 0.

Definition primes : list Z :=
  [2; 3; 5; 7; 11; 13; 17; 19; 23; 29; 31; 37; 41; 43; 47; 53;
   59; 61; 67; 71; 73; 79; 83; 89; 97; 101; 103; 107; 109; 113; 127; 131;
   137; 139; 149; 151; 157; 163; 167; 173; 179; 181; 191; 193; 197; 199;
   211; 223; 227; 229; 233; 239; 241; 251; 257; 263; 269; 271; 277; 281;
   283; 293; 307; 311].

(** The round constants: the first 32 bits of the fractional parts of the
    cube roots of the first 64 primes. *)
Definition K : list Z :=
  Eval vm_compute in map (fun p => icbrt (p * 2 ^ 96) mod w32) primes.

(** The initial hash value: the first 32 bits of the fractional parts of
    the square roots of the first 8 primes. *)
Definition H0 : list Z :=
  Eval vm_compute in map (fun p => Z.sqrt (p * 2 ^ 64) mod w32) (firstn 8 primes).

(** Big-endian grouping of bytes into 32-bit words. *)
Fixpoint words_of_bytes (bs : list Z) : list Z :=
  match bs with
  | b0 :: b1 :: b2 :: b3 :: rest =>
      (((b0 * 256 + b1) * 256 + b2) * 256 + b3) :: words_of_bytes rest
  | _ => []
  end.

Definition bytes_of_word (w : Z) : list Z :=
  [ (w / 16777216) mod 256; (w / 65536) mod 256; (w / 256) mod 256; w mod 256 ].

(** Big-endian bytes of a 64-bit length. *)
Definition bytes_of_len64 (n : Z) : list Z :=
  bytes_of_word ((n / w32) mod w32) ++ bytes_of_word (n mod w32).

(** Padding: the bit 1, zero bits up to 56 mod 64 bytes, the bit length. *)
Definition pad (msg : list Z) : list Z :=
  let l := Z.of_nat (List.length msg) in
  let k := (55 - l) mod 64 in
  msg ++ [128] ++ repeat 0 (Z.to_nat k) ++ bytes_of_len64 (8 * l).

(** The message schedule, most recent word first. *)
Fixpoint extend (n : nat) (rw : list Z) : list Z :=
  match n with
  | O => rw
  | S n' =>
      let w := add32 (add32 (ssig1 (nth 1 rw 0)) (nth 6 rw 0))
                     (add32 (ssig0 (nth 14 rw 0)) (nth 15 rw 0)) in
      extend n' (w :: rw)
  end.

Definition schedule (block : list Z) : list Z :=
  rev (extend 48 (rev block)).

Definition round (st : list Z) (kw : Z * Z) : list Z :=
  match st with
  | [a; b; c; d; e; f; g; h] =>
      let t1 := add32 (add32 (add32 h (bsig1 e)) (add32 (Ch e f g) (fst kw)))
                      (snd kw) in
      let t2 := add32 (bsig0 a) (Maj a b c) in
      [add32 t1 t2; a; b; c; add32 d t1; e; f; g]
  | _ => st
  end.

Fixpoint zip_add (xs ys : list Z) : list Z :=
  match xs, ys with
  | x :: xs', y :: ys' => add32 x y :: zip_add xs' ys'
  | _, _ => []
  end.

Definition compress (h : list Z) (block : list Z) : list Z :=
  zip_add h (fold_left round (combine K (schedule block)) h).

(** Splits the padded message into blocks of sixteen words. *)
Fixpoint blocks (fuel : nat) (ws : list Z) : list (list Z) :=
  match fuel with
  | O => []
  | S fuel' =>
      match ws with
      | [] => []
      | _ => firstn 16 ws :: blocks fuel' (skipn 16 ws)
      end
  end.

Definition digest_words (msg : list Z) : list Z :=
  let ws := words_of_bytes (pad msg) in
  fold_left compress (blocks (List.length ws) ws) H0.

Definition sha256 (msg : list byte) : list byte :=
  map byte_of_Z (flat_map bytes_of_word (digest_words (map byte_to_Z msg))).

Definition xor_byte (m : Z) (b : byte) : byte :=
  byte_of_Z (Z.lxor (byte_to_Z b) m).

Definition block_size : nat := 64.

(** [hmac.new(key, msg, hashlib.sha256).digest()] *)
Definition hmac_sha256 (key msg : list byte) : list byte :=
  let key0 := if (64 <? Z.of_nat (List.length key)) then sha256 key else key in
  let key1 := (key0 ++ repeat x00 (block_size - List.length key0))%list in
  sha256 (map (xor_byte 0x5c) key1 ++ sha256 (map (xor_byte 0x36) key1 ++ msg))%list.

Definition hex_of_byte (b : byte) : string :=
  let z := byte_to_Z b in
  String (hex_digit false (z / 16)) (String (hex_digit false (z mod 16)) EmptyString).

(** [bytes.hex()]: two lowercase hexadecimal digits per byte. *)
Fixpoint hex (bs : list byte) : string :=
  match bs with
  | [] => EmptyString
  | b :: rest => hex_of_byte b ++ hex rest
  end.

(** [hmac.new(key, msg, hashlib.sha256).hexdigest()] *)
Definition hmac_sha256_hex (key msg : list byte) : string :=
  hex (hmac_sha256 key msg).

End Sha256.

(* ===================================================================== *)
(** ** Python values and dicts *)

(** The values the bot stores in a parameter dict: strings, and the two
    integers the signer inserts. *)
Inductive pyval : Type :=
| VStr (s : string)
| VInt (n : Z).

(** [str(v)] *)
Definition py_str (v : pyval) : string :=
  match v with
  | VStr s => s
  | VInt n => PyStr.str_of_int n
  end.

Module Dict.

Section Assoc.
Context {V : Type}.

(** Items in insertion order; keys are pairwise distinct. *)
Definition t := list (string * V).

Definition keys (d : t) : list string := map fst d.

Fixpoint get (d : t) (k : string) : option V :=
  match d with
  | [] => None
  | (k', v) :: rest => if String.eqb k' k then Some v else get rest k
  end.

Definition mem (d : t) (k : string) : bool :=
  match get d k with Some _ => true | None => false end.

(** [d[k] = v]: an existing key keeps its position, a new key goes to
    the end. *)
Fixpoint set (d : t) (k : string) (v : V) : t :=
  match d with
  | [] => [(k, v)]
  | (k', v') :: rest =>
      if String.eqb k' k then (k', v) :: rest else (k', v') :: set rest k v
  end.

(** [d.get(k, default)] *)
Definition get_default (d : t) (k : string) (dflt : V) : V :=
  match get d k with Some v => v | None => dflt end.

(** [dict(pairs)]: later pairs win, first occurrence fixes the position. *)
Definition of_pairs (kvs : list (string * V)) : t :=
  fold_left (fun d kv => set d (fst kv) (snd kv)) kvs [].

End Assoc.

Arguments t : clear implicits.

End Dict.

Definition pydict := Dict.t pyval.

(* ===================================================================== *)
(** ** urllib.parse.urlencode *)

Module Url.
Import PyStr.

(** The bytes [quote] never escapes: letters, digits and [_.-~]. *)
Definition always_safe (c : ascii) : bool :=
  is_alpha c || is_digit c
  || Ascii.eqb c "_" || Ascii.eqb c "." || Ascii.eqb c "-" || Ascii.eqb c "~".

(** ['%{:02X}'.format(byte)] *)
Definition percent (c : ascii) : string :=
  String "%" (String (hex_digit true (code c / 16))
             (String (hex_digit true (code c mod 16)) EmptyString)).

Definition quote_char (c : ascii) : string :=
  if always_safe c then String c EmptyString
  else if Ascii.eqb c " " then "+"
  else percent c.

(** [quote_plus(s, safe='')] on the UTF-8 bytes of [s]. *)
Fixpoint quote_plus (s : string) : string :=
  match s with
  | EmptyString => EmptyString
  | String c r => quote_char c ++ quote_plus r
  end.

Definition encode_item (kv : string * pyval) : string :=
  quote_plus (fst kv) ++ "=" ++ quote_plus (py_str (snd kv)).

(** [urlencode(params)] for a dict: the items in insertion order. *)
Definition urlencode (d : pydict) : string :=
  join "&" (map encode_item d).

Definition hex_value (c : ascii) : option Z :=
  if is_digit c then Some (code c - 48)
  else if in_range 65 70 c then Some (code c - 55)
  else if in_range 97 102 c then Some (code c - 87)
  else None.

(** The inverse of [quote_plus], used to show that it loses nothing. *)
Fixpoint unquote_plus (s : string) : string :=
  match s with
  | EmptyString => EmptyString
  | String c r =>
      if Ascii.eqb c "+" then String " " (unquote_plus r)
      else if Ascii.eqb c "%" then
        match r with
        | String h (String l r') =>
            match hex_value h, hex_value l with
            | Some a, Some b => String (chr (16 * a + b)) (unquote_plus r')
            | _, _ => String c (unquote_plus r)
            end
        | _ => String c (unquote_plus r)
        end
      else String c (unquote_plus r)
  end.

End Url.

(* ===================================================================== *)
(** ** decimal.Decimal *)

Module Dec.
Import PyStr.

(** A decimal is a sign, an integer coefficient and an exponent, or one
    of the special values.  The coefficient keeps its trailing zeros:
    [Decimal('0.010')] is [Finite false 10 (-3)]. *)
Inductive t : Type :=
| Finite (sign : bool) (coeff : N) (exp : Z)
| Inf (sign : bool)
| NaN (signaling : bool) (sign : bool) (payload : N).

Definition MAX_PREC : Z := 999999999999999999.
Definition MAX_EMAX : Z := 999999999999999999.
Definition MIN_ETINY : Z := -1999999999999999997.

Fixpoint span (p : ascii -> bool) (s : string) : string * string :=
  match s with
  | EmptyString => (EmptyString, EmptyString)
  | String c r =>
      if p c then let (a, b) := span p r in (String c a, b)
      else (EmptyString, s)
  end.

Fixpoint int_of_digits_acc (acc : Z) (s : string) : Z :=
  match s with
  | EmptyString => acc
  | String c r => int_of_digits_acc (10 * acc + (code c - 48)) r
  end.

(** [int(s)] for a string of ASCII digits; the empty string counts 0. *)
Definition int_of_digits (s : string) : Z := int_of_digits_acc 0 s.

Definition ndigits (c : N) : Z := len (str_of_nonneg (Z.of_N c)).

Definition split_sign (s : string) : bool * string :=
  match s with
  | String c r =>
      if Ascii.eqb c "-" then (true, r)
      else if Ascii.eqb c "+" then (false, r)
      else (false, s)
  | EmptyString => (false, s)
  end.

(** The optional exponent part [E[-+]?\d+] followed by the end of the
    string: [Some e] when well-formed ([Some 0] when absent). *)
Definition parse_exponent (s : string) : option Z :=
  match s with
  | EmptyString => Some 0
  | String c r =>
      if Ascii.eqb c "e" || Ascii.eqb c "E" then
        let (neg, ds) := split_sign r in
        match ds with
        | EmptyString => None
        | _ => if all_chars is_digit ds
               then Some (if neg then - int_of_digits ds else int_of_digits ds)
               else None
        end
      else None
  end.

(** What the exact constructor can represent: the precision and
    exponent bounds of the 64-bit build. *)
Definition representable (coeff : N) (exp : Z) : bool :=
  (ndigits coeff <=? MAX_PREC)
  && (exp + ndigits coeff - 1 <=? MAX_EMAX)
  && (MIN_ETINY <=? exp).

Definition parse_finite (sign : bool) (s : string) : option t :=
  let (ip, r1) := span is_digit s in
  let '(fp, r2) :=
    match r1 with
    | String c r' => if Ascii.eqb c "." then span is_digit r' else (EmptyString, r1)
    | EmptyString => (EmptyString, r1)
    end in
  match (ip ++ fp)%string with
  | EmptyString => None
  | ds =>
      match parse_exponent r2 with
      | None => None
      | Some e =>
          let coeff := Z.to_N (int_of_digits ds) in
          let exp := e - len fp in
          if representable coeff exp then Some (Finite sign coeff exp) else None
      end
  end.

Definition strip_prefix (p s : string) : option string :=
  if String.prefix p s
  then Some (substring (String.length p) (String.length s - String.length p) s)
  else None.

Definition parse_nan (sign : bool) (l : string) : option t :=
  let payload (signaling : bool) (diag : string) :=
    if all_chars is_digit diag
    then Some (NaN signaling sign (Z.to_N (int_of_digits diag)))
    else None in
  match strip_prefix "nan" l with
  | Some diag => payload false diag
  | None =>
      match strip_prefix "snan" l with
      | Some diag => payload true diag
      | None => None
      end
  end.

(** [Decimal(s)]; [None] stands for the [InvalidOperation] the
    constructor raises on a malformed string.  Surrounding whitespace is
    stripped and underscores are dropped before the match.  The digits are
    the ASCII digits (Python also reads the other decimal digits of
    Unicode). *)
Definition of_string (s : string) : option t :=
  let (sign, body) := split_sign (remove_char "_" (strip s)) in
  let l := lower body in
  if String.eqb l "inf" || String.eqb l "infinity" then Some (Inf sign)
  else
    match parse_nan sign l with
    | Some d => Some d
    | None => parse_finite sign body
    end.

Definition sign_str (sign : bool) : string := if sign then "-" else "".

Definition zeros (n : Z) : string := string_of_list_ascii (repeat "0"%char (Z.to_nat n)).

Definition take (n : Z) (s : string) : string := substring 0 (Z.to_nat n) s.
Definition drop (n : Z) (s : string) : string :=
  substring (Z.to_nat n) (String.length s - Z.to_nat n) s.

Definition payload_str (p : N) : string :=
  if (p =? 0)%N then "" else str_of_nonneg (Z.of_N p).

Definition special_str (d : t) : string :=
  match d with
  | Inf s => sign_str s ++ "Infinity"
  | NaN false s p => sign_str s ++ "NaN" ++ payload_str p
  | NaN true s p => sign_str s ++ "sNaN" ++ payload_str p
  | Finite _ _ _ => ""
  end.

(** [str(d)]: scientific notation when the exponent is positive or the
    value is below 1e-6. *)
Definition to_str (d : t) : string :=
  match d with
  | Finite s c e =>
      let ds := str_of_nonneg (Z.of_N c) in
      let leftdigits := e + len ds in
      let dotplace := if (e <=? 0) && (-6 <? leftdigits) then leftdigits else 1 in
      let intpart :=
        if dotplace <=? 0 then "0"
        else if len ds <=? dotplace then ds ++ zeros (dotplace - len ds)
        else take dotplace ds in
      let fracpart :=
        if dotplace <=? 0 then "." ++ zeros (- dotplace) ++ ds
        else if len ds <=? dotplace then ""
        else "." ++ drop dotplace ds in
      let exp :=
        if leftdigits =? dotplace then ""
        else "E" ++ (if leftdigits - dotplace <? 0 then "" else "+")
                 ++ str_of_int (leftdigits - dotplace) in
      sign_str s ++ intpart ++ fracpart ++ exp
  | _ => special_str d
  end.

(** [format(d, 'f')]: positional notation, no exponent. *)
Definition format_f (d : t) : string :=
  match d with
  | Finite s c e =>
      if (c =? 0)%N && (0 <? e) then sign_str s ++ "0"
      else
        let ds := str_of_nonneg (Z.of_N c) in
        let dotplace := e + len ds in
        let intpart :=
          if dotplace <? 0 then "0"
          else if len ds <? dotplace then ds ++ zeros (dotplace - len ds)
          else match take dotplace ds with EmptyString => "0" | ip => ip end in
        let fracpart :=
          if dotplace <? 0 then zeros (- dotplace) ++ ds
          else if len ds <? dotplace then ""
          else drop dotplace ds in
        sign_str s ++ intpart
          ++ match fracpart with EmptyString => "" | fp => "." ++ fp end
  | _ => special_str d
  end.

(** The exceptions a comparison can raise. *)
Inductive signal : Type := InvalidOperation.

(** [d <= 0]: an ordering comparison involving a NaN signals
    [InvalidOperation], which the default context traps. *)
Definition le_zero (d : t) : signal + bool :=
  match d with
  | Finite s c _ => inr (s || (c =? 0)%N)
  | Inf s => inr s
  | NaN _ _ _ => inl InvalidOperation
  end.

End Dec.

(* ===================================================================== *)
(** ** json.loads, as reached through [Response.json()] *)

Module Json.
Import PyStr.

(** Decoded JSON.  A number with a fraction or an exponent becomes a
    Python [float]; it is kept as its lexeme.  An object is a [dict]. *)
#[warnings="-register-all"]
Inductive t : Type :=
| JNull
| JBool (b : bool)
| JInt (n : Z)
| JFloat (lexeme : string)
| JStr (s : string)
| JArr (items : list t)
| JObj (fields : list (string * t)).

Definition dquote : ascii := "034"%char.
Definition backslash : ascii := "092"%char.

Definition is_ws (c : ascii) : bool :=
  Ascii.eqb c " " || Ascii.eqb c "009" || Ascii.eqb c "010" || Ascii.eqb c "013".

Fixpoint skip_ws (s : string) : string :=
  match s with
  | String c r => if is_ws c then skip_ws r else s
  | EmptyString => s
  end.

(** UTF-8 bytes of a code point (a lone surrogate is written with the
    three-byte pattern). *)
Definition utf8 (cp : Z) : string :=
  if cp <? 128 then String (chr cp) ""
  else if cp <? 2048 then
    String (chr (192 + cp / 64)) (String (chr (128 + cp mod 64)) "")
  else if cp <? 65536 then
    String (chr (224 + cp / 4096))
      (String (chr (128 + (cp / 64) mod 64)) (String (chr (128 + cp mod 64)) ""))
  else
    String (chr (240 + cp / 262144))
      (String (chr (128 + (cp / 4096) mod 64))
         (String (chr (128 + (cp / 64) mod 64)) (String (chr (128 + cp mod 64)) ""))).

Definition hex4 (a b c d : ascii) : option Z :=
  match Url.hex_value a, Url.hex_value b, Url.hex_value c, Url.hex_value d with
  | Some x, Some y, Some z, Some w => Some (((x * 16 + y) * 16 + z) * 16 + w)
  | _, _, _, _ => None
  end.

Definition simple_escape (c : ascii) : option ascii :=
  if Ascii.eqb c dquote then Some dquote
  else if Ascii.eqb c backslash then Some backslash
  else if Ascii.eqb c "/" then Some "/"%char
  else if Ascii.eqb c "b" then Some "008"%char
  else if Ascii.eqb c "f" then Some "012"%char
  else if Ascii.eqb c "n" then Some "010"%char
  else if Ascii.eqb c "r" then Some "013"%char
  else if Ascii.eqb c "t" then Some "009"%char
  else None.

(** The low half of a surrogate pair right after a high half. *)
Definition low_surrogate (s : string) : option (Z * string) :=
  match s with
  | String e (String u (String a (String b (String c (String d r))))) =>
      if Ascii.eqb e backslash && Ascii.eqb u "u" then
        match hex4 a b c d with
        | Some lo => if (56320 <=? lo) && (lo <=? 57343) then Some (lo, r) else None
        | None => None
        end
      else None
  | _ => None
  end.

(** Scans a string literal after its opening quote (strict mode: raw
    control characters are refused). *)
Fixpoint scanstring (s : string) : option (string * string) :=
  match s with
  | EmptyString => None
  | String c r =>
      if Ascii.eqb c dquote then Some (EmptyString, r)
      else if Ascii.eqb c backslash then
        match r with
        | String e r1 =>
            if Ascii.eqb e "u" then
              match r1 with
              | String h1 (String h2 (String h3 (String h4 r2))) =>
                  match hex4 h1 h2 h3 h4 with
                  | None => None
                  | Some hi =>
                      if (55296 <=? hi) && (hi <=? 56319) then
                        match r2 with
                        | String b1 (String b2 (String l1 (String l2 (String l3 (String l4 r3))))) =>
                            match low_surrogate r2 with
                            | Some (lo, _) =>
                                match scanstring r3 with
                                | Some (body, rest) =>
                                    Some (utf8 (65536 + (hi - 55296) * 1024 + (lo - 56320))
                                            ++ body, rest)
                                | None => None
                                end
                            | None =>
                                match scanstring r2 with
                                | Some (body, rest) => Some (utf8 hi ++ body, rest)
                                | None => None
                                end
                            end
                        | _ =>
                            match scanstring r2 with
                            | Some (body, rest) => Some (utf8 hi ++ body, rest)
                            | None => None
                            end
                        end
                      else
                        match scanstring r2 with
                        | Some (body, rest) => Some (utf8 hi ++ body, rest)
                        | None => None
                        end
                  end
              | _ => None
              end
            else
              match simple_escape e with
              | Some x =>
                  match scanstring r1 with
                  | Some (body, rest) => Some (String x body, rest)
                  | None => None
                  end
              | None => None
              end
        | EmptyString => None
        end
      else if code c <? 32 then None
      else
        match scanstring r with
        | Some (body, rest) => Some (String c body, rest)
        | None => None
        end
  end.

(** What [json.loads] raises: [json.JSONDecodeError] for a text that is
    not JSON; the [ValueError] of [int] for an integer of more digits
    than [sys.get_int_max_str_digits()] allows; [RecursionError] when an
    object or an array is opened and the interpreter allows no further
    nested call. *)
Inductive failure : Type :=
| Malformed
| IntTooLong (digits : nat)
| TooDeep (container : string).

(** The default of [sys.get_int_max_str_digits()] (Python 3.11 and the
    security releases of 3.7 to 3.10 since September 2022); the program
    does not change it. *)
Definition int_max_str_digits : nat := 4300.

(** A number: an optional minus, then 0 or a digit string without
    leading zero, an optional fraction (a point and digits) and an
    optional exponent (e or E, an optional sign, digits).  Without
    fraction and exponent the digits go to [int], which refuses more than
    [int_max_str_digits] of them; with one of them the lexeme goes to
    [float], which has no such limit. *)
Definition scan_sign (s : string) : bool * string :=
  match s with
  | String c r => if Ascii.eqb c "-" then (true, r) else (false, s)
  | EmptyString => (false, s)
  end.

Definition scan_int_part (s : string) : string * string :=
  match s with
  | String c r =>
      if Ascii.eqb c "0" then ("0", r)
      else if is_digit c then Dec.span is_digit s
      else (EmptyString, s)
  | EmptyString => (EmptyString, s)
  end.

Definition scan_fraction (s : string) : string * string :=
  match s with
  | String c r =>
      if Ascii.eqb c "." then
        match Dec.span is_digit r with
        | (EmptyString, _) => (EmptyString, s)
        | (fp, r') => (String "." fp, r')
        end
      else (EmptyString, s)
  | EmptyString => (EmptyString, s)
  end.

Definition scan_exponent (s : string) : string * string :=
  match s with
  | String c r =>
      if Ascii.eqb c "e" || Ascii.eqb c "E" then
        let '(sg, r1) :=
          match r with
          | String x r' =>
              if Ascii.eqb x "-" || Ascii.eqb x "+"
              then (String x "", r') else (EmptyString, r)
          | EmptyString => (EmptyString, r)
          end in
        match Dec.span is_digit r1 with
        | (EmptyString, _) => (EmptyString, s)
        | (ds, r') => (String c (sg ++ ds), r')
        end
      else (EmptyString, s)
  | EmptyString => (EmptyString, s)
  end.

Definition scan_number (s : string) : failure + (t * string) :=
  let (neg, s1) := scan_sign s in
  let (ip, s2) := scan_int_part s1 in
  match ip with
  | EmptyString => inl Malformed
  | _ =>
      let (frac, s3) := scan_fraction s2 in
      let (ex, s4) := scan_exponent s3 in
      let sign := if neg then "-" else "" in
      match (frac ++ ex)%string with
      | EmptyString =>
          if (int_max_str_digits <? String.length ip)%nat
          then inl (IntTooLong (String.length ip))
          else inr (JInt (if neg then - Dec.int_of_digits ip else Dec.int_of_digits ip),
                    s4)
      | tail => inr (JFloat (sign ++ ip ++ tail), s4)
      end
  end.

Definition scan_literal (s : string) : failure + (t * string) :=
  match Dec.strip_prefix "null" s with
  | Some r => inr (JNull, r)
  | None =>
  match Dec.strip_prefix "true" s with
  | Some r => inr (JBool true, r)
  | None =>
  match Dec.strip_prefix "false" s with
  | Some r => inr (JBool false, r)
  | None =>
  match scan_number s with
  | inr res => inr res
  | inl (IntTooLong n) => inl (IntTooLong n)
  | inl _ =>
  match Dec.strip_prefix "NaN" s with
  | Some r => inr (JFloat "NaN", r)
  | None =>
  match Dec.strip_prefix "Infinity" s with
  | Some r => inr (JFloat "Infinity", r)
  | None =>
  match Dec.strip_prefix "-Infinity" s with
  | Some r => inr (JFloat "-Infinity", r)
  | None => inl Malformed
  end end end end end end end.

(** [scan_once]: one value at the head of [s] and what follows it.
    [elements] and [members] continue an array after ['['] or a comma,
    and an object at the opening quote of a key.  [depth] counts the
    nested calls the interpreter still allows: the scanner enters one for
    every object and array it opens and leaves it at the closing
    bracket. *)
Fixpoint scan_once (fuel depth : nat) (s : string) : failure + (t * string) :=
  match fuel with
  | O => inl Malformed
  | S fuel' =>
      match s with
      | EmptyString => inl Malformed
      | String c r =>
          if Ascii.eqb c dquote then
            match scanstring r with
            | Some (str, rest) => inr (JStr str, rest)
            | None => inl Malformed
            end
          else if Ascii.eqb c "{" then
            match depth with
            | O => inl (TooDeep "object")
            | S depth' =>
                match skip_ws r with
                | String c1 r1 =>
                    if Ascii.eqb c1 "}" then inr (JObj [], r1)
                    else
                      match members fuel' depth' (skip_ws r) with
                      | inr (pairs, rest) => inr (JObj (Dict.of_pairs pairs), rest)
                      | inl f => inl f
                      end
                | EmptyString => inl Malformed
                end
            end
          else if Ascii.eqb c "[" then
            match depth with
            | O => inl (TooDeep "array")
            | S depth' =>
                match skip_ws r with
                | String c1 r1 =>
                    if Ascii.eqb c1 "]" then inr (JArr [], r1)
                    else
                      match elements fuel' depth' (skip_ws r) with
                      | inr (items, rest) => inr (JArr items, rest)
                      | inl f => inl f
                      end
                | EmptyString => inl Malformed
                end
            end
          else scan_literal s
      end
  end
with elements (fuel depth : nat) (s : string) : failure + (list t * string) :=
  match fuel with
  | O => inl Malformed
  | S fuel' =>
      match scan_once fuel' depth s with
      | inl f => inl f
      | inr (v, rest) =>
          match skip_ws rest with
          | String c r =>
              if Ascii.eqb c "]" then inr ([v], r)
              else if Ascii.eqb c "," then
                match elements fuel' depth (skip_ws r) with
                | inr (vs, rest') => inr (v :: vs, rest')
                | inl f => inl f
                end
              else inl Malformed
          | EmptyString => inl Malformed
          end
      end
  end
with members (fuel depth : nat) (s : string)
    : failure + (list (string * t) * string) :=
  match fuel with
  | O => inl Malformed
  | S fuel' =>
      match s with
      | String q r =>
          if Ascii.eqb q dquote then
            match scanstring r with
            | None => inl Malformed
            | Some (key, rest) =>
                match skip_ws rest with
                | String c r1 =>
                    if Ascii.eqb c ":" then
                      match scan_once fuel' depth (skip_ws r1) with
                      | inl f => inl f
                      | inr (v, rest1) =>
                          match skip_ws rest1 with
                          | String c2 r2 =>
                              if Ascii.eqb c2 "}" then inr ([(key, v)], r2)
                              else if Ascii.eqb c2 "," then
                                match members fuel' depth (skip_ws r2) with
                                | inr (kvs, rest2) => inr ((key, v) :: kvs, rest2)
                                | inl f => inl f
                                end
                              else inl Malformed
                          | EmptyString => inl Malformed
                          end
                      end
                    else inl Malformed
                | EmptyString => inl Malformed
                end
            end
          else inl Malformed
      | EmptyString => inl Malformed
      end
  end.

(** [json.loads(s)] with [depth] nested calls left.  Every recursive
    call has consumed a character or follows one that did, so twice the
    length of the text is fuel enough (see [loads_fuel_enough] below). *)
Definition loads (depth : nat) (s : string) : failure + t :=
  match scan_once (2 * String.length s + 2) depth (skip_ws s) with
  | inr (v, rest) =>
      match skip_ws rest with
      | EmptyString => inr v
      | _ => inl Malformed
      end
  | inl f => inl f
  end.

(** *** The grammar of JSON texts

    What a JSON text is and which value it denotes, after RFC 8259 with
    the three names [NaN], [Infinity] and [-Infinity] that [json.loads]
    reads besides.  Every relation has the text that follows the value as
    its last argument. *)

(** White space between the tokens. *)
Definition blank (w : string) : bool := all_chars is_ws w.

(** What follows a number in a JSON text: the end, white space, a comma
    or a closing bracket. *)
Definition delimited (rest : string) : bool :=
  match rest with
  | EmptyString => true
  | String c _ => is_ws c || Ascii.eqb c "," || Ascii.eqb c "]" || Ascii.eqb c "}"
  end.

(** [string_text raw s rest]: [raw] continues a string literal after its
    opening quote up to the closing quote, which [rest] follows; the
    literal denotes [s].  The escape of a high surrogate joins the escape
    of a low surrogate that follows it and stands alone otherwise. *)
Inductive string_text : string -> string -> string -> Prop :=
| st_end (rest : string) : string_text (String dquote rest) "" rest
| st_char (c : ascii) (raw s rest : string) :
    Ascii.eqb c dquote = false -> Ascii.eqb c backslash = false ->
    (code c <? 32) = false ->
    string_text raw s rest ->
    string_text (String c raw) (String c s) rest
| st_escape (e x : ascii) (raw s rest : string) :
    simple_escape e = Some x ->
    string_text raw s rest ->
    string_text (String backslash (String e raw)) (String x s) rest
| st_unicode (h1 h2 h3 h4 : ascii) (cp : Z) (raw s rest : string) :
    hex4 h1 h2 h3 h4 = Some cp ->
    (55296 <=? cp) && (cp <=? 56319) = false ->
    string_text raw s rest ->
    string_text
      (String backslash (String "u" (String h1 (String h2 (String h3 (String h4 raw))))))
      (utf8 cp ++ s) rest
| st_pair (h1 h2 h3 h4 l1 l2 l3 l4 : ascii) (hi lo : Z) (raw s rest : string) :
    hex4 h1 h2 h3 h4 = Some hi ->
    (55296 <=? hi) && (hi <=? 56319) = true ->
    hex4 l1 l2 l3 l4 = Some lo ->
    (56320 <=? lo) && (lo <=? 57343) = true ->
    string_text raw s rest ->
    string_text
      (String backslash (String "u" (String h1 (String h2 (String h3 (String h4
         (String backslash (String "u" (String l1 (String l2 (String l3 (String l4
            raw))))))))))))
      (utf8 (65536 + (hi - 55296) * 1024 + (lo - 56320)) ++ s) rest
| st_lone (h1 h2 h3 h4 : ascii) (hi : Z) (raw s rest : string) :
    hex4 h1 h2 h3 h4 = Some hi ->
    (55296 <=? hi) && (hi <=? 56319) = true ->
    low_surrogate raw = None ->
    string_text raw s rest ->
    string_text
      (String backslash (String "u" (String h1 (String h2 (String h3 (String h4 raw))))))
      (utf8 hi ++ s) rest.

Definition minus (neg : bool) : string := if neg then "-" else "".

(** The integer part of a number: 0, or digits of which the first is
    not 0. *)
Inductive int_part : string -> Prop :=
| ip_zero : int_part "0"
| ip_digits (c : ascii) (ds : string) :
    is_digit c = true -> Ascii.eqb c "0" = false -> all_chars is_digit ds = true ->
    int_part (String c ds).

(** One digit or more. *)
Inductive digits1 : string -> Prop :=
| d1_digits (c : ascii) (ds : string) :
    is_digit c = true -> all_chars is_digit ds = true -> digits1 (String c ds).

Inductive fraction : string -> Prop :=
| fr_none : fraction ""
| fr_some (ds : string) : digits1 ds -> fraction (String "." ds).

Inductive exponent : string -> Prop :=
| ex_none : exponent ""
| ex_some (c : ascii) (sg ds : string) :
    Ascii.eqb c "e" || Ascii.eqb c "E" = true ->
    sg = "" \/ sg = "+" \/ sg = "-" ->
    digits1 ds ->
    exponent (String c (sg ++ ds)).

(** A number without fraction and exponent denotes a Python [int] and
    has at most [int_max_str_digits] digits; with one of them it denotes
    a [float], kept as the lexeme. *)
Inductive number_text : string -> t -> string -> Prop :=
| nt_int (neg : bool) (ip rest : string) :
    int_part ip ->
    (String.length ip <= int_max_str_digits)%nat ->
    delimited rest = true ->
    number_text (minus neg ++ ip ++ rest)
      (JInt (if neg then - Dec.int_of_digits ip else Dec.int_of_digits ip)) rest
| nt_float (neg : bool) (ip fr ex rest : string) :
    int_part ip -> fraction fr -> exponent ex ->
    (fr ++ ex)%string <> "" ->
    delimited rest = true ->
    number_text (minus neg ++ ip ++ (fr ++ ex) ++ rest)
      (JFloat (minus neg ++ ip ++ (fr ++ ex))) rest.

Inductive literal_text : string -> t -> string -> Prop :=
| lt_null (rest : string) : literal_text ("null" ++ rest) JNull rest
| lt_true (rest : string) : literal_text ("true" ++ rest) (JBool true) rest
| lt_false (rest : string) : literal_text ("false" ++ rest) (JBool false) rest
| lt_nan (rest : string) : literal_text ("NaN" ++ rest) (JFloat "NaN") rest
| lt_infinity (rest : string) :
    literal_text ("Infinity" ++ rest) (JFloat "Infinity") rest
| lt_minus_infinity (rest : string) :
    literal_text ("-Infinity" ++ rest) (JFloat "-Infinity") rest.

(** [value_text depth s v rest]: [s] starts with the text of the value
    [v], which [rest] follows, and its objects and arrays are nested at
    most [depth] deep.  An object denotes the dict of its members, a
    repeated key keeping its first place and its last value. *)
Inductive value_text : nat -> string -> t -> string -> Prop :=
| vt_string (depth : nat) (raw s rest : string) :
    string_text raw s rest ->
    value_text depth (String dquote raw) (JStr s) rest
| vt_literal (depth : nat) (s : string) (v : t) (rest : string) :
    literal_text s v rest -> value_text depth s v rest
| vt_number (depth : nat) (s : string) (v : t) (rest : string) :
    number_text s v rest -> value_text depth s v rest
| vt_object_empty (depth : nat) (w rest : string) :
    blank w = true ->
    value_text (S depth) (String "{" (w ++ String "}" rest)) (JObj []) rest
| vt_object (depth : nat) (w s : string) (pairs : list (string * t)) (rest : string) :
    blank w = true ->
    members_text depth s pairs rest ->
    value_text (S depth) (String "{" (w ++ s)) (JObj (Dict.of_pairs pairs)) rest
| vt_array_empty (depth : nat) (w rest : string) :
    blank w = true ->
    value_text (S depth) (String "[" (w ++ String "]" rest)) (JArr []) rest
| vt_array (depth : nat) (w s : string) (items : list t) (rest : string) :
    blank w = true ->
    elements_text depth s items rest ->
    value_text (S depth) (String "[" (w ++ s)) (JArr items) rest
with elements_text : nat -> string -> list t -> string -> Prop :=
| et_last (depth : nat) (s : string) (v : t) (w rest : string) :
    value_text depth s v (w ++ String "]" rest) ->
    blank w = true ->
    elements_text depth s [v] rest
| et_more (depth : nat) (s : string) (v : t) (w1 w2 s' : string) (vs : list t)
    (rest : string) :
    value_text depth s v (w1 ++ String "," (w2 ++ s')) ->
    blank w1 = true -> blank w2 = true ->
    elements_text depth s' vs rest ->
    elements_text depth s (v :: vs) rest
with members_text : nat -> string -> list (string * t) -> string -> Prop :=
| mt_last (depth : nat) (raw key w1 w2 s : string) (v : t) (w3 rest : string) :
    string_text raw key (w1 ++ String ":" (w2 ++ s)) ->
    blank w1 = true -> blank w2 = true ->
    value_text depth s v (w3 ++ String "}" rest) ->
    blank w3 = true ->
    members_text depth (String dquote raw) [(key, v)] rest
| mt_more (depth : nat) (raw key w1 w2 s : string) (v : t) (w3 w4 s' : string)
    (kvs : list (string * t)) (rest : string) :
    string_text raw key (w1 ++ String ":" (w2 ++ s)) ->
    blank w1 = true -> blank w2 = true ->
    value_text depth s v (w3 ++ String "," (w4 ++ s')) ->
    blank w3 = true -> blank w4 = true ->
    members_text depth s' kvs rest ->
    members_text depth (String dquote raw) ((key, v) :: kvs) rest.

(** A JSON text: one value with white space around it. *)
Definition json_text (depth : nat) (s : string) (v : t) : Prop :=
  exists w1 body w2 : string,
    s = (w1 ++ body)%string /\ blank w1 = true
    /\ value_text depth body v w2 /\ blank w2 = true.

(** Writes a text with ['] for the double quote. *)
Definition q (s : string) : string :=
  map_chars (fun c => if Ascii.eqb c "'" then dquote else c) s.

End Json.

(* ===================================================================== *)
(** ** Exceptions, results and the world *)

(** The exception classes that occur.  [JSONDecodeError] is a subclass of
    [ValueError]; [InvalidOperation] is an [ArithmeticError] and is not,
    nor is [RecursionError], a [RuntimeError]. *)
Inductive exn : Type :=
| ValueError (msg : string)
| JSONDecodeError
| InvalidOperation
| AttributeError (msg : string)
| RecursionError (msg : string)
| ConnectionError (msg : string)
| TimeoutError (msg : string)
| BinanceAPIError (status_code : Z) (code : Json.t) (message : Json.t).

(** [isinstance(e, ValueError)], what [except ValueError] catches. *)
Definition is_ValueError (e : exn) : bool :=
  match e with
  | ValueError _ | JSONDecodeError => true
  | _ => false
  end.

Inductive result (A : Type) : Type :=
| Return (a : A)
| Raise (e : exn).

Arguments Return {A} a.
Arguments Raise {A} e.

Definition rbind {A B : Type} (m : result A) (k : A -> result B) : result B :=
  match m with
  | Return a => k a
  | Raise e => Raise e
  end.

Declare Scope result_scope.
Delimit Scope result_scope with result.
Bind Scope result_scope with result.

Notation "'let!' x ':=' m 'in' k" := (rbind m (fun x => k))
  (at level 10, x name, m at level 100, k at level 200) : result_scope.

(** A reference to a dict object: its index in the heap. *)
Definition ref := nat.

(** What is handed to [Session.request]. *)
Record wire_request : Type := WireRequest {
  w_method : string;
  w_url : string;
  w_params : pydict;
  w_timeout : Z
}.

Record response : Type := Response {
  status_code : Z;
  text : string
}.

(** The three ways a call to the session ends that the gateway tells
    apart: [requests.ConnectionError], [requests.Timeout], and a
    response.  (A connect timeout is both of the first two in [requests]
    and is caught as the first.) *)
Inductive transport_result : Type :=
| ConnectionFailed (exc : string)
| TimedOut (exc : string)
| Responded (resp : response).

Definition session := wire_request -> transport_result.

(** The dict objects alive, and the requests put on the wire so far
    (oldest first). *)
Record world : Type := World {
  heap : list pydict;
  wire : list wire_request
}.

Definition io (A : Type) : Type := world -> world * result A.

Declare Scope io_scope.
Delimit Scope io_scope with io.
Bind Scope io_scope with io.

Definition ret {A : Type} (a : A) : io A := fun w => (w, Return a).

Definition raise {A : Type} (e : exn) : io A := fun w => (w, Raise e).

Definition bind {A B : Type} (m : io A) (k : A -> io B) : io B :=
  fun w =>
    match m w with
    | (w', Return a) => k a w'
    | (w', Raise e) => (w', Raise e)
    end.

Notation "'let!' x ':=' m 'in' k" := (bind m (fun x => k))
  (at level 10, x name, m at level 100, k at level 200) : io_scope.

Definition lift {A : Type} (m : result A) : io A := fun w => (w, m).

(** [dict(d)] and dict literals: a new object. *)
Definition alloc (d : pydict) : io ref :=
  fun w => (World (heap w ++ [d]) (wire w), Return (length (heap w))).

(** The items of the dict behind a reference. *)
Definition deref (r : ref) : io pydict :=
  fun w => (w, Return (default [] (heap w !! r))).

(** [params[k] = v] *)
Definition setitem (r : ref) (k : string) (v : pyval) : io unit :=
  fun w => (World (alter (fun d => Dict.set d k v) r (heap w)) (wire w), Return tt).

(** [session.request(method, url, params=params, timeout=t)] *)
Definition session_request (net : session) (method url : string)
    (params : pydict) (timeout : Z) : io transport_result :=
  fun w =>
    let req := WireRequest method url params timeout in
    (World (heap w) (wire w ++ [req]), Return (net req)).

(* ===================================================================== *)
(** ** bot/client.py *)

Definition BASE_URL : string := "https://testnet.binancefuture.com".

Record BinanceClient : Type := Client {
  api_key : string;
  api_secret : string;
  base_url : string;
  headers : list (string * string);
  _session : session
}.

Fixpoint rstrip_char (x : ascii) (s : string) : string :=
  match s with
  | EmptyString => EmptyString
  | String c r =>
      match rstrip_char x r with
      | EmptyString => if Ascii.eqb c x then EmptyString else String c EmptyString
      | r' => String c r'
      end
  end.

(** [a or b] for an optional string: [None] and the empty string are
    falsy. *)
Definition str_or (a : option string) (b : string) : string :=
  match a with
  | Some (String c r) => String c r
  | _ => b
  end.

(** [os.getenv(name, "")] *)
Definition getenv (env : string -> option string) (name : string) : string :=
  match env name with Some v => v | None => "" end.

(** [BinanceClient.__init__], in the environment [env] and with [net]
    standing for the network behind [requests.Session()]. *)
Definition BinanceClient_init (env : string -> option string) (net : session)
    (key secret : option string) (url : string) : result BinanceClient :=
  let k := str_or key (getenv env "BINANCE_TESTNET_API_KEY") in
  let s := str_or secret (getenv env "BINANCE_TESTNET_API_SECRET") in
  let u := rstrip_char "/" url in
  if String.eqb k "" || String.eqb s "" then
    Raise (ValueError
      ("API credentials are missing. Set BINANCE_TESTNET_API_KEY and "
       ++ "BINANCE_TESTNET_API_SECRET in your .env file."))
  else
    Return (Client k s u
              [("X-MBX-APIKEY", k);
               ("Content-Type", "application/x-www-form-urlencoded")]
              net).

(** [hmac.new(secret.encode(), query.encode(), hashlib.sha256).hexdigest()] *)
Definition signature_of (secret query : string) : string :=
  Sha256.hmac_sha256_hex (PyStr.encode secret) (PyStr.encode query).

(** [BinanceClient._sign]; [now] is the reading [int(time.time() * 1000)]
    of the clock.  The dict is updated in place and returned. *)
Definition _sign (self : BinanceClient) (now : Z) (params : ref) : io ref :=
  (let! _ := setitem params "recvWindow" (VInt 5000) in
   let! _ := setitem params "timestamp" (VInt now) in
   let! d := deref params in
   let query := Url.urlencode d in
   let signature := signature_of (api_secret self) query in
   let! _ := setitem params "signature" (VStr signature) in
   ret params)%io.

(** The exception [json.loads] raises for a failure of the decoder. *)
Definition decode_error (f : Json.failure) : exn :=
  match f with
  | Json.Malformed => JSONDecodeError
  | Json.IntTooLong digits =>
      ValueError
        ("Exceeds the limit ("
         ++ PyStr.str_of_int (Z.of_nat Json.int_max_str_digits)
         ++ " digits) for integer string conversion: value has "
         ++ PyStr.str_of_int (Z.of_nat digits)
         ++ " digits; use sys.set_int_max_str_digits() to increase the limit")
  | Json.TooDeep container =>
      RecursionError
        ("maximum recursion depth exceeded while decoding a JSON "
         ++ container ++ " from a unicode string")
  end.

(** [resp.json()]; [depth] is the number of nested calls the interpreter
    still allows when the decoder runs (its recursion limit less the
    calls in progress). *)
Definition resp_json (depth : nat) (resp : response) : result Json.t :=
  match Json.loads depth (text resp) with
  | inr v => Return v
  | inl f => Raise (decode_error f)
  end.

Definition type_name (v : Json.t) : string :=
  match v with
  | Json.JNull => "NoneType"
  | Json.JBool _ => "bool"
  | Json.JInt _ => "int"
  | Json.JFloat _ => "float"
  | Json.JStr _ => "str"
  | Json.JArr _ => "list"
  | Json.JObj _ => "dict"
  end.

(** [body.get(key, default)]: only a dict has the method. *)
Definition py_get (body : Json.t) (key : string) (dflt : Json.t) : result Json.t :=
  match body with
  | Json.JObj fields => Return (Dict.get_default fields key dflt)
  | _ => Raise (AttributeError
                  ("'" ++ type_name body ++ "' object has no attribute 'get'"))
  end.

(** The [try] block of the error branch of [_request]. *)
Definition api_code_and_msg (depth : nat) (resp : response)
    : result (Json.t * Json.t) :=
  (let! body := resp_json depth resp in
   let! api_code := py_get body "code" (Json.JInt (status_code resp)) in
   let! api_msg := py_get body "msg" (Json.JStr (text resp)) in
   Return (api_code, api_msg))%result.

(** [BinanceClient._request]; [now] is the reading of the clock when the
    request is signed, [depth] the nested calls left when the body is
    decoded. *)
Definition _request (self : BinanceClient) (now : Z) (depth : nat)
    (method path : string) (params : option ref) (signed : bool) : io Json.t :=
  (let url := (base_url self ++ path)%string in
   let! d0 := match params with
         | Some r => deref r
         | None => ret []
         end in
   let! params := alloc d0 in
   let! _ := (if signed then _sign self now params else ret params) in
   let! d := deref params in
   let! outcome := session_request (_session self) method url d 15 in
   match outcome with
   | ConnectionFailed exc =>
       raise (ConnectionError ("Cannot reach " ++ url ++ ": " ++ exc))
   | TimedOut exc =>
       raise (TimeoutError ("Request to " ++ url ++ " timed out."))
   | Responded resp =>
       if 400 <=? status_code resp then
         match api_code_and_msg depth resp with
         | Return (api_code, api_msg) =>
             raise (BinanceAPIError (status_code resp) api_code api_msg)
         | Raise e =>
             if is_ValueError e then
               raise (BinanceAPIError (status_code resp)
                        (Json.JInt (status_code resp)) (Json.JStr (text resp)))
             else raise e
         end
       else lift (resp_json depth resp)
   end)%io.

Definition get (self : BinanceClient) (now : Z) (depth : nat) (path : string)
    (params : option ref) (signed : bool) : io Json.t :=
  _request self now depth "GET" path params signed.

Definition post (self : BinanceClient) (now : Z) (depth : nat) (path : string)
    (params : option ref) (signed : bool) : io Json.t :=
  _request self now depth "POST" path params signed.

Definition delete (self : BinanceClient) (now : Z) (depth : nat) (path : string)
    (params : option ref) (signed : bool) : io Json.t :=
  _request self now depth "DELETE" path params signed.

Definition exchange_info (self : BinanceClient) (now : Z) (depth : nat)
    (symbol : option string) : io Json.t :=
  (let! params := alloc (match symbol with
                    | Some (String c r) => [("symbol", VStr (String c r))]
                    | _ => []
                    end) in
   get self now depth "/fapi/v1/exchangeInfo" (Some params) false)%io.

Definition account_info (self : BinanceClient) (now : Z) (depth : nat) : io Json.t :=
  get self now depth "/fapi/v2/account" None true.

Definition ticker_price (self : BinanceClient) (now : Z) (depth : nat)
    (symbol : string) : io Json.t :=
  (let! params := alloc [("symbol", VStr symbol)] in
   get self now depth "/fapi/v1/ticker/price" (Some params) false)%io.

(* ===================================================================== *)
(** ** bot/validators.py *)

Definition VALID_SIDES : list string := ["BUY"; "SELL"].

Definition VALID_ORDER_TYPES : list string :=
  ["MARKET"; "LIMIT"; "STOP"; "STOP_MARKET"; "TAKE_PROFIT"; "TAKE_PROFIT_MARKET"].

Definition PRICE_REQUIRED_TYPES : list string := ["LIMIT"; "STOP"; "TAKE_PROFIT"].

Definition STOP_REQUIRED_TYPES : list string :=
  ["STOP"; "STOP_MARKET"; "TAKE_PROFIT"; "TAKE_PROFIT_MARKET"].

(** [x in s] for a set of strings. *)
Definition member (x : string) (s : list string) : bool :=
  existsb (String.eqb x) s.

Definition validate_symbol (symbol : string) : result string :=
  let symbol := PyStr.upper (PyStr.strip symbol) in
  if String.eqb symbol "" || negb (PyStr.isalpha symbol) then
    Raise (ValueError
      ("Invalid symbol '" ++ symbol ++ "'. Must be alphabetic (e.g. BTCUSDT)."))
  else if PyStr.len symbol <? 5 then
    Raise (ValueError
      ("Symbol '" ++ symbol ++ "' looks too short. Expected something like BTCUSDT."))
  else Return symbol.

(** The text of the message prints the set [VALID_SIDES]; Python prints
    the two members in an order that depends on the hash seed, here BUY
    comes first. *)
Definition validate_side (side : string) : result string :=
  let side := PyStr.upper (PyStr.strip side) in
  if negb (member side VALID_SIDES) then
    Raise (ValueError
      ("Invalid side '" ++ side ++ "'. Must be one of {'BUY', 'SELL'}."))
  else Return side.

Definition validate_order_type (order_type : string) : result string :=
  let order_type := PyStr.upper (PyStr.strip order_type) in
  if negb (member order_type VALID_ORDER_TYPES) then
    Raise (ValueError
      ("Invalid order type '" ++ order_type ++ "'. Supported: "
       ++ "LIMIT, MARKET, STOP, STOP_MARKET, TAKE_PROFIT, TAKE_PROFIT_MARKET."))
  else Return order_type.

(** [d <= 0] on a [Decimal]: the signal of the comparison is the
    exception [decimal.InvalidOperation]. *)
Definition decimal_le_zero (d : Dec.t) : result bool :=
  match Dec.le_zero d with
  | inl Dec.InvalidOperation => Raise InvalidOperation
  | inr b => Return b
  end.

(** [validate_quantity]; the argument is [str(quantity)], the text the
    function hands to [Decimal].  Only the construction of the decimal is
    inside the [try]; the comparison is not. *)
Definition validate_quantity (quantity : string) : result Dec.t :=
  match Dec.of_string quantity with
  | None =>
      Raise (ValueError
        ("Invalid quantity '" ++ quantity ++ "'. Must be a positive number."))
  | Some qty =>
      (let! not_positive := decimal_le_zero qty in
       if not_positive then
         Raise (ValueError ("Quantity must be > 0, got " ++ Dec.to_str qty ++ "."))
       else Return qty)%result
  end.

Definition validate_price (price : option string) (order_type : string)
    : result (option Dec.t) :=
  match price with
  | None =>
      if member order_type PRICE_REQUIRED_TYPES then
        Raise (ValueError ("Price is required for " ++ order_type ++ " orders."))
      else Return None
  | Some raw =>
      match Dec.of_string raw with
      | None =>
          Raise (ValueError
            ("Invalid price '" ++ raw ++ "'. Must be a positive number."))
      | Some p =>
          (let! not_positive := decimal_le_zero p in
           if not_positive then
             Raise (ValueError ("Price must be > 0, got " ++ Dec.to_str p ++ "."))
           else Return (Some p))%result
      end
  end.

Definition validate_stop_price (stop_price : option string) (order_type : string)
    : result (option Dec.t) :=
  match stop_price with
  | None =>
      if member order_type STOP_REQUIRED_TYPES then
        Raise (ValueError ("Stop price is required for " ++ order_type ++ " orders."))
      else Return None
  | Some raw =>
      match Dec.of_string raw with
      | None =>
          Raise (ValueError
            ("Invalid stop price '" ++ raw ++ "'. Must be a positive number."))
      | Some sp =>
          (let! not_positive := decimal_le_zero sp in
           if not_positive then
             Raise (ValueError ("Stop price must be > 0, got " ++ Dec.to_str sp ++ "."))
           else Return (Some sp))%result
      end
  end.

(* ===================================================================== *)
(** ** bot/orders.py *)

Definition ORDER_PATH : string := "/fapi/v1/order".

Definition TIF_REQUIRED_TYPES : list string := ["LIMIT"; "STOP"; "TAKE_PROFIT"].

Definition _fmt (d : Dec.t) : string := Dec.format_f d.

Record order : Type := Order {
  o_symbol : string;
  o_side : string;
  o_type : string;
  o_quantity : Dec.t;
  o_price : option Dec.t;
  o_stop_price : option Dec.t
}.

(** The parameter dict [place_order] builds before the call. *)
Definition order_params (o : order) (time_in_force : string) : pydict :=
  let params : pydict :=
    [("symbol", VStr (o_symbol o)); ("side", VStr (o_side o));
     ("type", VStr (o_type o)); ("quantity", VStr (_fmt (o_quantity o)))] in
  let params :=
    match o_price o with
    | Some price => Dict.set params "price" (VStr (_fmt price))
    | None => params
    end in
  let params :=
    match o_stop_price o with
    | Some stop_price => Dict.set params "stopPrice" (VStr (_fmt stop_price))
    | None => params
    end in
  if member (o_type o) TIF_REQUIRED_TYPES
  then Dict.set params "timeInForce" (VStr time_in_force)
  else params.

(** [place_order]: the logging after the call reads the response with
    [response.get], which only a dict has. *)
Definition place_order (client : BinanceClient) (now : Z) (depth : nat)
    (o : order) (time_in_force : string) : io Json.t :=
  (let! params := alloc (order_params o time_in_force) in
   let! response := post client now depth ORDER_PATH (Some params) true in
   let! _ := lift (py_get response "orderId" Json.JNull) in
   ret response)%io.

(* ===================================================================== *)
(** ** cli.py: the order pipeline *)

(** The raw fields of an order as [_execute_order] receives them; the
    numbers are given by the text of [str(...)]. *)
Record raw_order : Type := RawOrder {
  r_symbol : string;
  r_side : string;
  r_type : string;
  r_quantity : string;
  r_price : option string;
  r_stop_price : option string
}.

(** The first [try] block of [_execute_order]. *)
Definition validate_order (r : raw_order) : result order :=
  (let! symbol := validate_symbol (r_symbol r) in
   let! side := validate_side (r_side r) in
   let! order_type := validate_order_type (r_type r) in
   let! qty := validate_quantity (r_quantity r) in
   let! validated_price := validate_price (r_price r) order_type in
   let! validated_stop := validate_stop_price (r_stop_price r) order_type in
   Return (Order symbol side order_type qty validated_price validated_stop))%result.

(** What [_execute_order] reports to the user. *)
Inductive report : Type :=
| ValidationFailed (e : exn)
| OrderPlaced (resp : Json.t)
| ApiErrorShown (e : exn)
| NetworkErrorShown (e : exn)
| UnexpectedErrorShown (e : exn).

(** The handlers of the second [try] block, in the order of the code. *)
Definition classify (e : exn) : report :=
  match e with
  | BinanceAPIError _ _ _ => ApiErrorShown e
  | ConnectionError _ | TimeoutError _ => NetworkErrorShown e
  | _ => UnexpectedErrorShown e
  end.

(** [_execute_order]: an exception of the validators that is not a
    [ValueError] is not handled and leaves the function. *)
Definition _execute_order (env : string -> option string) (net : session)
    (now : Z) (depth : nat) (r : raw_order) : io report :=
  match validate_order r with
  | Raise e => if is_ValueError e then ret (ValidationFailed e) else raise e
  | Return o =>
      fun w =>
        match
          (let! client := lift (BinanceClient_init env net None None BASE_URL) in
           place_order client now depth o "GTC")%io w
        with
        | (w', Return resp) => (w', Return (OrderPlaced resp))
        | (w', Raise e) => (w', Return (classify e))
        end
  end.

(* ===================================================================== *)
(** ** Definitions used in the statements *)

(** What the first two assignments of [_sign] make of the items [d]. *)
Definition with_window (now : Z) (d : pydict) : pydict :=
  Dict.set (Dict.set d "recvWindow" (VInt 5000)) "timestamp" (VInt now).

(** The items of the dict when [_sign] returns. *)
Definition signed_params (secret : string) (now : Z) (d : pydict) : pydict :=
  Dict.set (with_window now d) "signature"
    (VStr (signature_of secret (Url.urlencode (with_window now d)))).

(** What [_request] makes of the outcome of the transport. *)
Definition respond (depth : nat) (url : string) (outcome : transport_result)
    : result Json.t :=
  match outcome with
  | ConnectionFailed exc =>
      Raise (ConnectionError ("Cannot reach " ++ url ++ ": " ++ exc))
  | TimedOut exc =>
      Raise (TimeoutError ("Request to " ++ url ++ " timed out."))
  | Responded resp =>
      if 400 <=? status_code resp then
        match api_code_and_msg depth resp with
        | Return (c, m) => Raise (BinanceAPIError (status_code resp) c m)
        | Raise e =>
            if is_ValueError e then
              Raise (BinanceAPIError (status_code resp)
                       (Json.JInt (status_code resp)) (Json.JStr (text resp)))
            else Raise e
        end
      else resp_json depth resp
  end.

(** The items of the dict the caller passes ([params or {}]). *)
Definition caller_items (w : world) (params : option ref) : pydict :=
  match params with
  | Some r => default [] (heap w !! r)
  | None => []
  end.

(** The items handed to the session. *)
Definition sent_items (self : BinanceClient) (now : Z) (signed : bool)
    (d0 : pydict) : pydict :=
  if signed then signed_params (api_secret self) now d0 else d0.

Definition sent_request (self : BinanceClient) (now : Z) (method path : string)
    (signed : bool) (d0 : pydict) : wire_request :=
  WireRequest method (base_url self ++ path) (sent_items self now signed d0) 15.

(** The signature [_sign] leaves in the dict behind [r]. *)
Definition signature_after (self : BinanceClient) (now : Z) (r : ref) (w : world)
    : option pyval :=
  Dict.get (default [] (heap (fst (_sign self now r w)) !! r)) "signature".

Definition is_some {A : Type} (x : option A) : bool :=
  match x with Some _ => true | None => false end.

(** A client and an environment for the examples. *)
Definition demo_secret : string :=
  "NhqPtmdSJYdKjVHjA7PZj4Mge3R5YNiP1e3UZjInClVN65XAbvqqM6A7H5fATj0j".

Definition demo_env (name : string) : option string :=
  if String.eqb name "BINANCE_TESTNET_API_KEY" then Some "demo-key"
  else if String.eqb name "BINANCE_TESTNET_API_SECRET" then Some demo_secret
  else None.

Definition demo_client (net : session) : BinanceClient :=
  Client "demo-key" demo_secret BASE_URL
    [("X-MBX-APIKEY", "demo-key");
     ("Content-Type", "application/x-www-form-urlencoded")] net.

Definition answer (status : Z) (body : string) : session :=
  fun _ => Responded (Response status body).

(** The nested calls left for the decoder in the examples: the default
    recursion limit of 1000 with a hundred calls in progress. *)
Definition demo_depth : nat := 900.

(** The digits of [bytes.hex()]. *)
Definition is_lower_hex (c : ascii) : bool :=
  PyStr.is_digit c || PyStr.in_range 97 102 c.

(** Two hexadecimal digits determine the byte. *)
Definition unhex_pair (c1 c2 : ascii) : option byte :=
  match Url.hex_value c1, Url.hex_value c2 with
  | Some a, Some b => Some (PyStr.byte_of_Z (16 * a + b))
  | _, _ => None
  end.

(** The joined text up to a part, and from the end of a part on. *)
Definition joined_before (sep : string) (xs : list string) : string :=
  fold_right (fun x acc => x ++ sep ++ acc)%string EmptyString xs.

Definition joined_after (sep : string) (ys : list string) : string :=
  match ys with
  | [] => EmptyString
  | _ => (sep ++ PyStr.join sep ys)%string
  end.

(** The characters of a number in plain notation. *)
Definition plain_char (c : ascii) : bool :=
  PyStr.is_digit c || Ascii.eqb c ".".

(** A digest read as a number, the first byte leading. *)
Definition big_endian (bs : list byte) : Z :=
  fold_left (fun acc b => 256 * acc + PyStr.byte_to_Z b) bs 0.

(** The dict of the examples with the quantity [v]. *)
Definition with_quantity (v : pyval) : pydict :=
  [("symbol", VStr "BTCUSDT"); ("quantity", v)].

(* ===================================================================== *)
(** ** More of bot/client.py and cli.py *)

(** The exceptions of a subscript [data[key]]: a dict without the key
    raises [KeyError]; a value that is no dict has no string subscript
    and raises [TypeError]. *)
Inductive lookup_exn : Type :=
| KeyError (key : string)
| TypeError (type : string).

(** [data[key]] for a string key. *)
Definition subscript (data : Json.t) (key : string) : lookup_exn + Json.t :=
  match data with
  | Json.JObj fields =>
      match Dict.get fields key with
      | Some v => inr v
      | None => inl (KeyError key)
      end
  | _ => inl (TypeError (type_name data))
  end.

(** [BinanceClient.server_time]: [Raise e] is an exception of the
    gateway, [Return (inl e)] one of the subscript. *)
Definition server_time (self : BinanceClient) (now : Z) (depth : nat)
    : io (lookup_exn + Json.t) :=
  (let! data := get self now depth "/fapi/v1/time" None false in
   ret (subscript data "serverTime"))%io.

(** What the [price] command shows: the two fields of the answer, or the
    exception its [except Exception] caught. *)
Inductive price_report : Type :=
| PriceShown (symbol price : Json.t)
| PriceError (e : exn)
| PriceLookupError (e : lookup_exn).

(** The [price] command of cli.py ([_interactive_price] runs the same
    steps). *)
Definition price (env : string -> option string) (net : session) (now : Z)
    (depth : nat) (symbol : string) : io price_report :=
  fun w =>
    match
      (let! client := lift (BinanceClient_init env net None None BASE_URL) in
       let! symbol := lift (validate_symbol symbol) in
       ticker_price client now depth symbol)%io w
    with
    | (w', Raise e) => (w', Return (PriceError e))
    | (w', Return data) =>
        (w', Return
               match subscript data "symbol" with
               | inl err => PriceLookupError err
               | inr s =>
                   match subscript data "price" with
                   | inl err => PriceLookupError err
                   | inr p => PriceShown s p
                   end
               end)
    end.

(** The answers to the prompts of [_interactive_order]; the price and
    the stop price are only asked for when the order type calls for them,
    and the numbers are given by the text of [str(...)]. *)
Record order_answers : Type := OrderAnswers {
  a_symbol : string;
  a_side : string;
  a_type : string;
  a_quantity : string;
  a_price : string;
  a_stop_price : string;
  a_confirm : bool
}.

(** [_interactive_order]; [None] when the order is not confirmed. *)
Definition _interactive_order (env : string -> option string) (net : session)
    (now : Z) (depth : nat) (a : order_answers) : io (option report) :=
  let price :=
    if member (PyStr.upper (a_type a)) ["LIMIT"; "STOP"; "TAKE_PROFIT"]
    then Some (a_price a) else None in
  let stop_price :=
    if member (PyStr.upper (a_type a))
         ["STOP"; "STOP_MARKET"; "TAKE_PROFIT"; "TAKE_PROFIT_MARKET"]
    then Some (a_stop_price a) else None in
  if a_confirm a then
    (let! rep := _execute_order env net now depth
                   (RawOrder (a_symbol a) (a_side a) (a_type a) (a_quantity a)
                      price stop_price) in
     ret (Some rep))%io
  else ret None.

(* ===================================================================== *)
(** ** bot/logging_config.py *)

Module Logging.

Definition DEBUG : Z := 10.
Definition INFO : Z := 20.
Definition WARNING : Z := 30.

Inductive handler_kind : Type :=
| StreamHandler
| RotatingFileHandler (path : string) (maxBytes backupCount : Z) (encoding : string).

Record handler : Type := Handler {
  h_kind : handler_kind;
  h_level : Z;
  h_fmt : string;
  h_datefmt : string
}.

(** The state the module touches: its flag, the root logger, the level
    of the [urllib3] logger and the directories that exist. *)
Record state : Type := State {
  _configured : bool;
  root_level : Z;
  root_handlers : list handler;
  urllib3_level : option Z;
  directories : list string
}.

(** How a call ends: it returns, or the file system refuses and
    [OSError] leaves the function. *)
Inductive outcome : Type :=
| Done
| OSError (path : string).

(** [os.makedirs(path, exist_ok=True)] where the directory can be
    made. *)
Definition makedirs (path : string) (dirs : list string) : list string :=
  if existsb (String.eqb path) dirs then dirs else dirs ++ [path].

Definition fmt : string :=
  "%(asctime)s | %(levelname)-8s | %(name)s | %(message)s".

Definition datefmt : string := "%Y-%m-%d %H:%M:%S".

(** [setup_logging(level)].  [log_dir] is [LOG_DIR], the directory
    [logs] beside the package; [dir_ok] tells whether [os.makedirs]
    succeeds and [file_ok] whether [RotatingFileHandler] can open the log
    file, which it does when it is created.  The flag is set before
    anything else. *)
Definition setup_logging (log_dir : string) (dir_ok file_ok : bool) (level : Z)
    (st : state) : state * outcome :=
  if _configured st then (st, Done)
  else if negb dir_ok then
    (State true (root_level st) (root_handlers st) (urllib3_level st) (directories st),
     OSError log_dir)
  else
    let dirs := makedirs log_dir (directories st) in
    let console := Handler StreamHandler INFO fmt datefmt in
    let log_file := (log_dir ++ "/trading_bot.log")%string in
    if negb file_ok then
      (State true level (root_handlers st ++ [console]) (urllib3_level st) dirs,
       OSError log_file)
    else
      let file_handler :=
        Handler (RotatingFileHandler log_file (5 * 1024 * 1024) 3 "utf-8")
                DEBUG fmt datefmt in
      (State true level (root_handlers st ++ [console; file_handler])
         (Some WARNING) dirs,
       Done).

End Logging.

(* ===================================================================== *)
(** ** Definitions used in the further statements *)

(** The bytes of ASCII text. *)
Definition is_ascii (c : ascii) : bool := PyStr.code c <? 128.

(** A positive decimal: finite and above zero, or plus infinity. *)
Definition positive (d : Dec.t) : Prop :=
  match d with
  | Dec.Finite false c _ => c <> 0%N
  | Dec.Inf false => True
  | _ => False
  end.

(** Whether a text ends with the character [x]. *)
Fixpoint ends_with_char (x : ascii) (s : string) : bool :=
  match s with
  | EmptyString => false
  | String c EmptyString => Ascii.eqb c x
  | String _ r => ends_with_char x r
  end.

(* ===================================================================== *)
(** * Properties *)

(** ** Test vectors *)

Example sha256_abc :
  Sha256.hex (Sha256.sha256 (PyStr.encode "abc"))
  = "ba7816bf8f01cfea414140de5dae2223b00361a396177a9cb410ff61f20015ad".
Proof. vm_compute. reflexivity. Qed.

Example sha256_empty :
  Sha256.hex (Sha256.sha256 [])
  = "e3b0c44298fc1c149afbf4c8996fb92427ae41e4649b934ca495991b7852b855".
Proof. vm_compute. reflexivity. Qed.

Example hmac_rfc4231_case2 :
  Sha256.hmac_sha256_hex (PyStr.encode "Jefe")
    (PyStr.encode "what do ya want for nothing?")
  = "5bdcc146bf60754e6a042426089575c75a003f089d2739839dec58b964ec3843".
Proof. vm_compute. reflexivity. Qed.

Example urlencode_example :
  Url.urlencode [("symbol", VStr "BTC USDT/x~"); ("recvWindow", VInt 5000);
                 ("a&b=c", VStr "100%+é"); ("n", VInt (-12)); ("z", VInt 0)]
  = "symbol=BTC+USDT%2Fx~&recvWindow=5000&a%26b%3Dc=100%25%2B%C3%A9&n=-12&z=0".
Proof. vm_compute. reflexivity. Qed.

(** ** Dicts *)

Section DictFacts.
Context {V : Type}.
Implicit Types (d : Dict.t V) (k : string) (v : V).

Lemma dict_get_set_eq d k v : Dict.get (Dict.set d k v) k = Some v.
Proof.
  induction d as [|[k' v'] d IH]; simpl.
  - now rewrite String.eqb_refl.
  - destruct (String.eqb k' k) eqn:E; simpl; rewrite E; auto.
Qed.

Lemma dict_get_set_ne d k k' v :
  k <> k' -> Dict.get (Dict.set d k v) k' = Dict.get d k'.
Proof.
  intros Hne. induction d as [|[k0 v0] d IH]; simpl.
  - destruct (String.eqb k k') eqn:E; auto.
    apply String.eqb_eq in E. contradiction.
  - destruct (String.eqb k0 k) eqn:E; simpl.
    + apply String.eqb_eq in E. subst k0.
      destruct (String.eqb k k') eqn:E'; auto.
      apply String.eqb_eq in E'. contradiction.
    + now rewrite IH.
Qed.

(** A new key goes to the end. *)
Lemma dict_set_absent d k v :
  Dict.get d k = None -> Dict.set d k v = (d ++ [(k, v)])%list.
Proof.
  induction d as [|[k' v'] d IH]; simpl; auto.
  destruct (String.eqb k' k); [discriminate|].
  intros H. now rewrite IH.
Qed.

Lemma dict_get_app_absent d d' k :
  Dict.get d k = None -> Dict.get (d ++ d')%list k = Dict.get d' k.
Proof.
  induction d as [|[k' v'] d IH]; simpl; auto.
  destruct (String.eqb k' k); [discriminate | auto].
Qed.

Lemma dict_get_app_present d d' k v :
  Dict.get d k = Some v -> Dict.get (d ++ d')%list k = Some v.
Proof.
  induction d as [|[k' v'] d IH]; simpl; [discriminate|].
  destruct (String.eqb k' k); auto.
Qed.

Lemma dict_mem_set d k k' v :
  Dict.mem (Dict.set d k v) k' = String.eqb k k' || Dict.mem d k'.
Proof.
  unfold Dict.mem. destruct (String.eqb k k') eqn:E.
  - apply String.eqb_eq in E. subst. now rewrite dict_get_set_eq.
  - apply String.eqb_neq in E. now rewrite dict_get_set_ne.
Qed.

(** Assigning to a key other than [k] leaves the item of [k] where it
    is, and does to the items before and after it what it would do
    without that item. *)
Lemma dict_set_around (pre post : Dict.t V) k v k0 v0 :
  k0 <> k ->
  Dict.set (pre ++ (k, v) :: post)%list k0 v0
  = if Dict.mem pre k0
    then (Dict.set pre k0 v0 ++ (k, v) :: post)%list
    else (pre ++ (k, v) :: Dict.set post k0 v0)%list.
Proof.
  intros Hne. unfold Dict.mem.
  induction pre as [|[k' v'] pre IH]; simpl.
  - destruct (String.eqb k k0) eqn:E; auto.
    apply String.eqb_eq in E. congruence.
  - destruct (String.eqb k' k0) eqn:E; simpl; auto.
    rewrite IH. destruct (Dict.get pre k0); reflexivity.
Qed.

Lemma dict_get_None_keys d k : Dict.get d k = None <-> ~ In k (Dict.keys d).
Proof.
  unfold Dict.keys. induction d as [|[k' v'] d IH]; simpl; [tauto|].
  destruct (String.eqb k' k) eqn:E.
  - apply String.eqb_eq in E. subst.
    split; [intros H; discriminate H | intros H; exfalso; apply H; now left].
  - apply String.eqb_neq in E. rewrite IH.
    split; [intros H [?|?]; [congruence | auto] | intros H Hin; apply H; now right].
Qed.

(** Assignments keep the keys of a dict pairwise distinct. *)
Lemma dict_set_NoDup d k v :
  List.NoDup (Dict.keys d) -> List.NoDup (Dict.keys (Dict.set d k v)).
Proof.
  unfold Dict.keys. induction d as [|[k' v'] d IH]; simpl; intros Hd.
  - apply List.NoDup_cons; [intros [] | apply List.NoDup_nil].
  - inversion Hd as [|? ? Hnotin Hrest]; subst.
    destruct (String.eqb k' k) eqn:E; simpl.
    + apply List.NoDup_cons; assumption.
    + apply List.NoDup_cons; [|now apply IH].
      apply String.eqb_neq in E. intros Hin. apply Hnotin.
      clear -Hin E. induction d as [|[k0 v0] d IH']; simpl in *.
      * destruct Hin as [->|[]]. congruence.
      * destruct (String.eqb k0 k); simpl in Hin; tauto.
Qed.

End DictFacts.

(** ** The heap *)

Lemma alter_known {A : Type} (f : A -> A) (l : list A) (i : nat) (x : A) :
  l !! i = Some x -> alter f i l = <[i := f x]> l.
Proof.
  intros H. apply list_eq. intros j.
  destruct (decide (i = j)) as [->|Hne].
  - rewrite list_lookup_alter_eq, H. simpl.
    rewrite list_lookup_insert_eq; auto. eapply lookup_lt_Some; eauto.
  - rewrite list_lookup_alter_ne, list_lookup_insert_ne; auto.
Qed.

Lemma insert_snoc {A : Type} (l : list A) (x y : A) :
  <[length l := y]> (l ++ [x])%list = (l ++ [y])%list.
Proof.
  induction l as [|a l IH]; simpl; auto. now f_equal.
Qed.

Lemma lookup_snoc {A : Type} (l : list A) (x : A) :
  (l ++ [x])%list !! length l = Some x.
Proof.
  induction l as [|a l IH]; simpl; auto.
Qed.

(** ** The signer *)

(** [_sign] rewrites the object it is given and returns that object. *)
Lemma _sign_run (self : BinanceClient) (now : Z) (r : ref) (w : world) (d : pydict) :
  heap w !! r = Some d ->
  _sign self now r w
  = (World (<[r := signed_params (api_secret self) now d]> (heap w)) (wire w),
     Return r).
Proof.
  intros H. assert (Hr : (r < length (heap w))%nat) by (eapply lookup_lt_Some; eauto).
  unfold _sign, bind, setitem, deref, ret. simpl.
  rewrite (alter_known _ _ _ _ H).
  erewrite (alter_known _ (<[r := _]> (heap w)) r)
    by (apply list_lookup_insert_eq; exact Hr).
  rewrite list_insert_insert_eq.
  erewrite alter_known by (apply list_lookup_insert_eq; exact Hr).
  rewrite list_insert_insert_eq.
  do 2 f_equal. f_equal. unfold signed_params, with_window.
  do 4 f_equal.
  change (default [] (<[r := Dict.set (Dict.set d "recvWindow" (VInt 5000))
                             "timestamp" (VInt now)]> (heap w) !! r)
          = Dict.set (Dict.set d "recvWindow" (VInt 5000)) "timestamp" (VInt now)).
  now rewrite list_lookup_insert_eq by exact Hr.
Qed.

(** ** The gateway *)

(** One gateway call: a new dict object is created and, for a signed
    call, signed; one request goes on the wire; the outcome of the
    transport decides the result. *)
Lemma _request_run (self : BinanceClient) (now : Z) (depth : nat)
    (method path : string) (params : option ref) (signed : bool) (w : world) :
  let d0 := caller_items w params in
  let req := sent_request self now method path signed d0 in
  _request self now depth method path params signed w
  = (World (heap w ++ [sent_items self now signed d0]) (wire w ++ [req]),
     respond depth (base_url self ++ path) (_session self req)).
Proof.
  intros d0 req.
  assert (Hcopy :
    match params with Some r => deref r | None => ret [] end w = (w, Return d0)).
  { destruct params; reflexivity. }
  unfold _request. unfold bind at 1. rewrite Hcopy.
  unfold bind at 1. unfold alloc at 1.
  unfold bind at 1.
  assert (Hwire : forall d : pydict,
    (let! d := deref (length (heap w)) in
     let! outcome := session_request (_session self) method
                       (base_url self ++ path) d 15 in
     match outcome with
     | ConnectionFailed exc =>
         raise (ConnectionError ("Cannot reach " ++ (base_url self ++ path) ++ ": " ++ exc))
     | TimedOut exc =>
         raise (TimeoutError ("Request to " ++ (base_url self ++ path) ++ " timed out."))
     | Responded resp =>
         if 400 <=? status_code resp then
           match api_code_and_msg depth resp with
           | Return (api_code, api_msg) =>
               raise (BinanceAPIError (status_code resp) api_code api_msg)
           | Raise e =>
               if is_ValueError e then
                 raise (BinanceAPIError (status_code resp)
                          (Json.JInt (status_code resp)) (Json.JStr (text resp)))
               else raise e
           end
         else lift (resp_json depth resp)
     end)%io (World (heap w ++ [d]) (wire w))
    = (World (heap w ++ [d])
         (wire w ++ [WireRequest method (base_url self ++ path) d 15]),
       respond depth (base_url self ++ path)
         (_session self (WireRequest method (base_url self ++ path) d 15)))).
  { intros d. unfold bind at 1. unfold deref at 1. cbn [heap wire].
    rewrite lookup_snoc. cbn [default from_option id].
    unfold bind at 1. unfold session_request at 1. cbn [heap wire].
    unfold respond, raise, lift.
    destruct (_session self _) as [exc|exc|resp]; try reflexivity.
    destruct (400 <=? status_code resp); try reflexivity.
    destruct (api_code_and_msg depth resp) as [[c m]|e]; try reflexivity.
    destruct (is_ValueError e); reflexivity. }
  destruct signed.
  - erewrite _sign_run by apply lookup_snoc.
    cbn [heap wire]. rewrite insert_snoc. apply Hwire.
  - unfold ret at 1. apply Hwire.
Qed.

(** ** Claims about the signer and the parameter copy *)

(** The signature of the example in the documentation of the exchange. *)
Example sign_documented_example :
  _sign (demo_client (answer 200 "{}")) 1499827319559 0%nat
    (World [[("symbol", VStr "LTCBTC"); ("side", VStr "BUY");
             ("type", VStr "LIMIT"); ("timeInForce", VStr "GTC");
             ("quantity", VStr "1"); ("price", VStr "0.1")]] [])
  = (World [[("symbol", VStr "LTCBTC"); ("side", VStr "BUY");
             ("type", VStr "LIMIT"); ("timeInForce", VStr "GTC");
             ("quantity", VStr "1"); ("price", VStr "0.1");
             ("recvWindow", VInt 5000); ("timestamp", VInt 1499827319559);
             ("signature", VStr
                "c8db56825ae71d6d79447849e617115f4a920fa2acdcab2b053c4b2838bd6b71")]]
       [],
     Return 0%nat).
Proof. vm_compute. reflexivity. Qed.

Lemma with_window_fresh (now : Z) (d : pydict) :
  Dict.get d "recvWindow" = None ->
  Dict.get d "timestamp" = None ->
  with_window now d
  = (d ++ [("recvWindow", VInt 5000); ("timestamp", VInt now)])%list.
Proof.
  intros Hr Ht. unfold with_window.
  rewrite (dict_set_absent d) by exact Hr.
  rewrite dict_set_absent.
  - now rewrite <- app_assoc.
  - rewrite dict_get_app_absent by exact Ht. reflexivity.
Qed.

Lemma with_window_get_other (now : Z) (d : pydict) (k : string) :
  k <> "recvWindow" -> k <> "timestamp" ->
  Dict.get (with_window now d) k = Dict.get d k.
Proof.
  intros H1 H2. unfold with_window.
  rewrite dict_get_set_ne by congruence.
  now rewrite dict_get_set_ne by congruence.
Qed.

Lemma with_window_recvWindow (now : Z) (d : pydict) :
  Dict.get (with_window now d) "recvWindow" = Some (VInt 5000).
Proof.
  unfold with_window. rewrite dict_get_set_ne by discriminate.
  apply dict_get_set_eq.
Qed.

Lemma with_window_timestamp (now : Z) (d : pydict) :
  Dict.get (with_window now d) "timestamp" = Some (VInt now).
Proof. unfold with_window. apply dict_get_set_eq. Qed.

(** C10.  When the dict holds none of the keys recvWindow, timestamp and
    signature, [_sign] returns the very object it was given; that object
    now holds its former items followed by recvWindow = 5000, the
    timestamp and the signature, so its keys are the former keys and these
    three, and every former key maps to the value it had.  No other object
    of the heap changes. *)
Theorem sign_adds_three_keys (self : BinanceClient) (now : Z) (r : ref)
    (w : world) (d : pydict) :
  heap w !! r = Some d ->
  Dict.get d "recvWindow" = None ->
  Dict.get d "timestamp" = None ->
  Dict.get d "signature" = None ->
  let d2 := (d ++ [("recvWindow", VInt 5000); ("timestamp", VInt now)])%list in
  let d3 := (d2 ++ [("signature",
                     VStr (signature_of (api_secret self) (Url.urlencode d2)))])%list in
  _sign self now r w = (World (<[r := d3]> (heap w)) (wire w), Return r)
  /\ Dict.keys d3 = (Dict.keys d ++ ["recvWindow"; "timestamp"; "signature"])%list
  /\ Dict.get d3 "recvWindow" = Some (VInt 5000)
  /\ (forall k v, Dict.get d k = Some v -> Dict.get d3 k = Some v)
  /\ (forall r', r' <> r -> <[r := d3]> (heap w) !! r' = heap w !! r').
Proof.
  intros Hr Hw Ht Hs d2 d3.
  assert (E2 : with_window now d = d2) by now apply with_window_fresh.
  assert (E3 : signed_params (api_secret self) now d = d3).
  { unfold signed_params. rewrite E2. apply dict_set_absent.
    subst d2. rewrite dict_get_app_absent by exact Hs. reflexivity. }
  repeat split.
  - rewrite (_sign_run self now r w d Hr). now rewrite E3.
  - subst d3 d2. unfold Dict.keys. rewrite !map_app, <- app_assoc. reflexivity.
  - subst d3 d2. rewrite <- app_assoc.
    rewrite dict_get_app_absent by exact Hw. reflexivity.
  - intros k v Hk. subst d3 d2. rewrite <- app_assoc.
    now apply dict_get_app_present.
  - intros r' Hne. now apply list_lookup_insert_ne.
Qed.

Lemma sign_adds_three_keys_witness :
  _sign (demo_client (answer 200 "{}")) 1700000000000 0%nat
    (World [[("symbol", VStr "BTCUSDT")]] [])
  = (World
       [[("symbol", VStr "BTCUSDT"); ("recvWindow", VInt 5000);
         ("timestamp", VInt 1700000000000);
         ("signature",
          VStr (signature_of demo_secret
                  "symbol=BTCUSDT&recvWindow=5000&timestamp=1700000000000"))]]
       [],
     Return 0%nat).
Proof.
  exact (proj1 (sign_adds_three_keys (demo_client (answer 200 "{}"))
                  1700000000000 0%nat
                  (World [[("symbol", VStr "BTCUSDT")]] [])
                  [("symbol", VStr "BTCUSDT")]
                  eq_refl eq_refl eq_refl eq_refl)).
Defined.

(** C6.  A gateway call changes no dict that existed before it, the
    caller's included: it creates one new dict holding the caller's items
    and hands that one to the session, signed in place for a signed call
    and as it is for an unsigned call.  (With no [params] the new dict
    starts empty.) *)
Theorem request_keeps_caller_params (self : BinanceClient) (now : Z)
    (depth : nat) (method path : string) (params : option ref) (signed : bool)
    (w : world) :
  let w' := fst (_request self now depth method path params signed w) in
  let given := caller_items w params in
  let sent := if signed then signed_params (api_secret self) now given else given in
  (forall (r : ref) (d : pydict), heap w !! r = Some d -> heap w' !! r = Some d)
  /\ heap w' = (heap w ++ [sent])%list
  /\ wire w' = (wire w ++ [WireRequest method (base_url self ++ path) sent 15])%list.
Proof.
  intros w' given sent. subst w'. rewrite _request_run. cbn [fst heap wire].
  repeat split.
  intros r d H. now apply lookup_app_l_Some.
Qed.

(** ** The shape of a digest *)

Module Sha256Facts.
Import Sha256.

Lemma round_length (st : list Z) (kw : Z * Z) :
  length (round st kw) = length st.
Proof.
  unfold round.
  do 9 (destruct st as [|? st]; try reflexivity).
Qed.

Lemma rounds_length (kws : list (Z * Z)) (st : list Z) :
  length (fold_left round kws st) = length st.
Proof.
  revert st. induction kws as [|kw kws IH]; intros st; simpl; auto.
  now rewrite IH, round_length.
Qed.

Lemma zip_add_length (xs ys : list Z) :
  length xs = length ys -> length (zip_add xs ys) = length xs.
Proof.
  revert ys. induction xs as [|x xs IH]; intros [|y ys] H;
    simpl in *; try reflexivity; try discriminate.
  injection H as H. now rewrite IH.
Qed.

Lemma compress_length (h block : list Z) :
  length (compress h block) = length h.
Proof.
  unfold compress. apply zip_add_length. now rewrite rounds_length.
Qed.

Lemma digest_words_length (msg : list Z) : length (digest_words msg) = 8%nat.
Proof.
  unfold digest_words.
  generalize (blocks (length (words_of_bytes (pad msg))) (words_of_bytes (pad msg))).
  intros bs. change 8%nat with (length H0). generalize H0.
  induction bs as [|b bs IH]; intros h; simpl; auto.
  now rewrite IH, compress_length.
Qed.

Lemma flat_bytes_length (ws : list Z) :
  length (flat_map bytes_of_word ws) = (4 * length ws)%nat.
Proof.
  induction ws as [|x ws IH]; simpl; auto. rewrite IH. lia.
Qed.

(** A SHA-256 digest has 32 bytes. *)
Lemma sha256_length (msg : list byte) : length (sha256 msg) = 32%nat.
Proof.
  unfold sha256.
  rewrite length_map, flat_bytes_length, digest_words_length. reflexivity.
Qed.

Lemma hmac_length (key msg : list byte) : length (hmac_sha256 key msg) = 32%nat.
Proof. unfold hmac_sha256. apply sha256_length. Qed.

Lemma hex_of_byte_lower (b : byte) :
  PyStr.all_chars is_lower_hex (hex_of_byte b) = true.
Proof. destruct b; vm_compute; reflexivity. Qed.

Lemma hex_cons (b : byte) (bs : list byte) :
  exists c1 c2, hex_of_byte b = String c1 (String c2 EmptyString)
                /\ hex (b :: bs) = String c1 (String c2 (hex bs)).
Proof.
  eexists _, _. split; reflexivity.
Qed.

Lemma hex_length (bs : list byte) :
  String.length (hex bs) = (2 * length bs)%nat.
Proof.
  induction bs as [|b bs IH]; auto.
  destruct (hex_cons b bs) as (c1 & c2 & _ & ->).
  cbn [String.length length]. rewrite IH. lia.
Qed.

Lemma hex_lower (bs : list byte) :
  PyStr.all_chars is_lower_hex (hex bs) = true.
Proof.
  induction bs as [|b bs IH]; auto.
  pose proof (hex_of_byte_lower b) as Hb.
  destruct (hex_cons b bs) as (c1 & c2 & E & ->).
  rewrite E in Hb. cbn [PyStr.all_chars] in *.
  apply andb_prop in Hb as [H1 Hb]. apply andb_prop in Hb as [H2 _].
  now rewrite H1, H2, IH.
Qed.

Lemma unhex_hex_of_byte (b : byte) :
  match hex_of_byte b with
  | String c1 (String c2 EmptyString) => unhex_pair c1 c2 = Some b
  | _ => False
  end.
Proof. destruct b; vm_compute; reflexivity. Qed.

Lemma hex_injective (bs bs' : list byte) : hex bs = hex bs' -> bs = bs'.
Proof.
  revert bs'. induction bs as [|b bs IH]; intros [|b' bs'] H; auto.
  - destruct (hex_cons b' bs') as (c1 & c2 & _ & E). rewrite E in H. discriminate.
  - destruct (hex_cons b bs) as (c1 & c2 & _ & E). rewrite E in H. discriminate.
  - pose proof (unhex_hex_of_byte b) as Hb.
    pose proof (unhex_hex_of_byte b') as Hb'.
    destruct (hex_cons b bs) as (c1 & c2 & E1 & E2).
    destruct (hex_cons b' bs') as (c1' & c2' & E1' & E2').
    rewrite E1 in Hb. rewrite E1' in Hb'. rewrite E2, E2' in H.
    injection H as -> -> Hrest.
    f_equal; [congruence | now apply IH].
Qed.

End Sha256Facts.

(** ** The query string loses nothing *)

Module UrlFacts.
Import Url.

Lemma app_assoc_str (a b c : string) : ((a ++ b) ++ c = a ++ (b ++ c))%string.
Proof. induction a as [|x a IH]; simpl; [reflexivity | now rewrite IH]. Qed.

Lemma app_length_str (a b : string) :
  String.length (a ++ b) = (String.length a + String.length b)%nat.
Proof. induction a as [|x a IH]; simpl; [reflexivity | now rewrite IH]. Qed.

Lemma app_cancel_l (p a b : string) : (p ++ a = p ++ b)%string -> a = b.
Proof.
  induction p as [|x p IH]; simpl; auto.
  intros H. injection H as H. auto.
Qed.

Lemma app_cancel_r (a b t : string) : (a ++ t = b ++ t)%string -> a = b.
Proof.
  revert b. induction a as [|x a IH]; intros [|y b] H; simpl in H; auto.
  - apply (f_equal String.length) in H. simpl in H.
    rewrite app_length_str in H. lia.
  - apply (f_equal String.length) in H. simpl in H.
    rewrite app_length_str in H. lia.
  - injection H as -> H. f_equal. now apply IH.
Qed.

(** Decoding one encoded character gives the character back. *)
Lemma unquote_quote_char (c : ascii) (r : string) :
  unquote_plus (quote_char c ++ r) = String c (unquote_plus r).
Proof.
  destruct c as [b0 b1 b2 b3 b4 b5 b6 b7].
  destruct b0, b1, b2, b3, b4, b5, b6, b7; reflexivity.
Qed.

Lemma unquote_quote_plus (s : string) : unquote_plus (quote_plus s) = s.
Proof.
  induction s as [|c s IH]; [reflexivity|].
  cbn [quote_plus]. now rewrite unquote_quote_char, IH.
Qed.

(** [quote_plus] maps different strings to different strings. *)
Lemma quote_plus_injective (s s' : string) :
  quote_plus s = quote_plus s' -> s = s'.
Proof.
  intros H. rewrite <- (unquote_quote_plus s), <- (unquote_quote_plus s').
  now rewrite H.
Qed.

(** The joined text around one of its parts. *)
Lemma join_around (sep : string) (xs ys : list string) (y : string) :
  PyStr.join sep (xs ++ y :: ys)%list
  = (joined_before sep xs ++ y ++ joined_after sep ys)%string.
Proof.
  induction xs as [|x xs IH].
  - destruct ys as [|y' ys]; simpl.
    + induction y; simpl; congruence.
    + reflexivity.
  - assert (E : PyStr.join sep ((x :: xs) ++ y :: ys)%list
                = (x ++ sep ++ PyStr.join sep (xs ++ y :: ys)%list)%string)
      by (destruct xs; reflexivity).
    rewrite E, IH. simpl. now rewrite !app_assoc_str.
Qed.

(** The query string of a dict around the value of one item. *)
Lemma urlencode_around (pre post : pydict) (k : string) (v : pyval) :
  urlencode (pre ++ (k, v) :: post)%list
  = ((joined_before "&" (map encode_item pre) ++ quote_plus k ++ "=")
     ++ quote_plus (py_str v) ++ joined_after "&" (map encode_item post))%string.
Proof.
  unfold urlencode. rewrite map_app. cbn [map].
  rewrite join_around. unfold encode_item at 2. cbn [fst snd].
  now rewrite !app_assoc_str.
Qed.

(** Two dicts that differ in the text of one value have different query
    strings. *)
Lemma urlencode_sensitive (pre post : pydict) (k : string) (v v' : pyval) :
  py_str v <> py_str v' ->
  urlencode (pre ++ (k, v) :: post)%list <> urlencode (pre ++ (k, v') :: post)%list.
Proof.
  intros Hne H. rewrite !urlencode_around in H.
  apply app_cancel_l, app_cancel_r, quote_plus_injective in H.
  contradiction.
Qed.

End UrlFacts.

(** ** The signature *)

Lemma dict_keys_set {V : Type} (d : Dict.t V) (k : string) (v : V) :
  Dict.keys (Dict.set d k v)
  = (Dict.keys d ++ (if Dict.mem d k then [] else [k]))%list.
Proof.
  unfold Dict.keys, Dict.mem. induction d as [|[k' v'] d IH]; simpl; auto.
  destruct (String.eqb k' k); simpl.
  - now rewrite app_nil_r.
  - now rewrite IH.
Qed.

(** The first two assignments of [_sign] leave an item with another key
    in place; what surrounds it afterwards does not depend on its value. *)
Lemma with_window_around (now : Z) (pre post : pydict) (k : string) :
  k <> "recvWindow" -> k <> "timestamp" ->
  exists pre2 post2 : pydict, forall v : pyval,
    with_window now (pre ++ (k, v) :: post)%list = (pre2 ++ (k, v) :: post2)%list.
Proof.
  intros H1 H2. unfold with_window.
  destruct (Dict.mem pre "recvWindow") eqn:E1.
  - destruct (Dict.mem (Dict.set pre "recvWindow" (VInt 5000)) "timestamp") eqn:E2.
    + eexists _, _. intros v.
      rewrite dict_set_around, E1 by congruence.
      rewrite dict_set_around, E2 by congruence. reflexivity.
    + eexists _, _. intros v.
      rewrite dict_set_around, E1 by congruence.
      rewrite dict_set_around, E2 by congruence. reflexivity.
  - destruct (Dict.mem pre "timestamp") eqn:E2.
    + eexists _, _. intros v.
      rewrite dict_set_around, E1 by congruence.
      rewrite dict_set_around, E2 by congruence. reflexivity.
    + eexists _, _. intros v.
      rewrite dict_set_around, E1 by congruence.
      rewrite dict_set_around, E2 by congruence. reflexivity.
Qed.

Lemma encode_injective (s s' : string) : PyStr.encode s = PyStr.encode s' -> s = s'.
Proof.
  unfold PyStr.encode. intros H.
  rewrite <- (string_of_list_byte_of_string s), <- (string_of_list_byte_of_string s').
  now rewrite H.
Qed.

(** C1, the input on which the claim as stated fails: a dict that already
    holds a [signature] key.  The key keeps its first position, so the
    last field of the result is the timestamp, and the text that is signed
    contains the signature field. *)
Lemma sign_with_signature_key_present :
  let w := World [[("signature", VStr "x")]] [] in
  let w' := fst (_sign (demo_client (answer 200 "{}")) 1 0%nat w) in
  heap w' !! 0%nat
  = Some [("signature",
           VStr (signature_of demo_secret "signature=x&recvWindow=5000&timestamp=1"));
          ("recvWindow", VInt 5000); ("timestamp", VInt 1)]
  /\ ~ (exists (d2 : pydict) (v : pyval),
          heap w' !! 0%nat = Some (d2 ++ [("signature", v)])%list).
Proof.
  intros w w'.
  assert (E : heap w' !! 0%nat
              = Some [("signature",
                       VStr (signature_of demo_secret
                               "signature=x&recvWindow=5000&timestamp=1"));
                      ("recvWindow", VInt 5000); ("timestamp", VInt 1)])
    by (vm_compute; reflexivity).
  split; [exact E|].
  intros (d2 & v & H). rewrite E in H. injection H as H.
  apply (f_equal last) in H. rewrite last_snoc in H. cbn [last] in H.
  discriminate.
Qed.

(** C1, amended.  For a dict without a [signature] key, [_sign] sets
    recvWindow to 5000 and timestamp to the clock reading (in place when
    the key exists, at the end otherwise), joins the items in their order
    as [key=value] with [&], each side percent-encoded, takes the
    HMAC-SHA256 of the UTF-8 bytes of that text under the UTF-8 bytes of
    the secret, and appends the digest, 64 lowercase hexadecimal digits,
    as the last item [signature]; the signed text has no signature
    field. *)
Theorem sign_appends_signature (self : BinanceClient) (now : Z) (r : ref)
    (w : world) (d : pydict) :
  heap w !! r = Some d ->
  Dict.get d "signature" = None ->
  let d2 := Dict.set (Dict.set d "recvWindow" (VInt 5000)) "timestamp" (VInt now) in
  let query :=
    PyStr.join "&"
      (map (fun kv => Url.quote_plus (fst kv) ++ "=" ++ Url.quote_plus (py_str (snd kv)))%string
           d2) in
  let signature :=
    Sha256.hex (Sha256.hmac_sha256 (PyStr.encode (api_secret self))
                  (PyStr.encode query)) in
  _sign self now r w
  = (World (<[r := (d2 ++ [("signature", VStr signature)])%list]> (heap w)) (wire w),
     Return r)
  /\ Dict.get d2 "recvWindow" = Some (VInt 5000)
  /\ Dict.get d2 "timestamp" = Some (VInt now)
  /\ Dict.get d2 "signature" = None
  /\ (exists added, Dict.keys d2 = (Dict.keys d ++ added)%list)
  /\ String.length signature = 64%nat
  /\ PyStr.all_chars is_lower_hex signature = true.
Proof.
  intros Hr Hs d2 query signature.
  assert (Hs2 : Dict.get d2 "signature" = None).
  { subst d2. fold (with_window now d).
    now rewrite with_window_get_other by discriminate. }
  repeat split.
  - rewrite (_sign_run self now r w d Hr). unfold signed_params.
    fold d2. now rewrite (dict_set_absent d2) by exact Hs2.
  - apply with_window_recvWindow.
  - apply with_window_timestamp.
  - exact Hs2.
  - subst d2. rewrite !dict_keys_set, <- app_assoc. eauto.
  - subst signature. now rewrite Sha256Facts.hex_length, Sha256Facts.hmac_length.
  - apply Sha256Facts.hex_lower.
Qed.

Lemma sign_appends_signature_witness :
  _sign (demo_client (answer 200 "{}")) 1499827319559 0%nat
    (World [[("symbol", VStr "LTCBTC"); ("timestamp", VInt 7)]] [])
  = (World [[("symbol", VStr "LTCBTC"); ("timestamp", VInt 1499827319559);
             ("recvWindow", VInt 5000);
             ("signature", VStr
                (signature_of demo_secret
                   "symbol=LTCBTC&timestamp=1499827319559&recvWindow=5000"))]] [],
     Return 0%nat).
Proof.
  exact (proj1 (sign_appends_signature (demo_client (answer 200 "{}"))
                  1499827319559 0%nat
                  (World [[("symbol", VStr "LTCBTC"); ("timestamp", VInt 7)]] [])
                  [("symbol", VStr "LTCBTC"); ("timestamp", VInt 7)]
                  eq_refl eq_refl)).
Defined.

Lemma signature_after_run (self : BinanceClient) (now : Z) (r : ref) (w : world)
    (d : pydict) :
  heap w !! r = Some d ->
  signature_after self now r w
  = Some (VStr (signature_of (api_secret self) (Url.urlencode (with_window now d)))).
Proof.
  intros H. unfold signature_after. rewrite (_sign_run self now r w d H).
  cbn [fst heap]. rewrite list_lookup_insert_eq by (eapply lookup_lt_Some; eauto).
  cbn [default from_option id]. unfold signed_params. apply dict_get_set_eq.
Qed.

(** ** Claims about the gateway *)

Section ErrorResponses.
Variables (depth : nat) (url : string) (resp : response).
Hypothesis Hstatus : 400 <= status_code resp.







End ErrorResponses.

(** The two responses of the specification; the object of the first
    takes one nested call of the decoder. *)
Example invalid_symbol_response (depth : nat) :
  snd (_request (demo_client
                   (answer 400 (Json.q "{'code': -1121, 'msg': 'Invalid symbol.'}")))
         1 (S depth) "POST" ORDER_PATH None true (World [] []))
  = Raise (BinanceAPIError 400 (Json.JInt (-1121)) (Json.JStr "Invalid symbol.")).
Proof. vm_compute. reflexivity. Qed.

Example plain_text_response (depth : nat) :
  snd (_request (demo_client (answer 400 "plain text error"))
         1 depth "POST" ORDER_PATH None true (World [] []))
  = Raise (BinanceAPIError 400 (Json.JInt 400) (Json.JStr "plain text error")).
Proof. vm_compute. reflexivity. Qed.

(** C3, where the code leaves the claim: an error status whose body is
    JSON but not an object.  The body decodes, [body.get] raises
    [AttributeError], the handler for [ValueError] does not catch it, and
    no [BinanceAPIError] is raised; the command line reports it as an
    unexpected error.  (The decoder enters one nested call for the array,
    so that the interpreter must allow one: [S depth].) *)
Theorem error_status_with_json_array (depth : nat) :
  let out := snd (_request (demo_client (answer 502 "[]"))
                    1 (S depth) "POST" ORDER_PATH None true (World [] [])) in
  out = Raise (AttributeError "'list' object has no attribute 'get'")
  /\ (forall status c m, out <> Raise (BinanceAPIError status c m))
  /\ classify (AttributeError "'list' object has no attribute 'get'")
     = UnexpectedErrorShown (AttributeError "'list' object has no attribute 'get'").
Proof.
  assert (E : snd (_request (demo_client (answer 502 "[]"))
                     1 (S depth) "POST" ORDER_PATH None true (World [] []))
              = Raise (AttributeError "'list' object has no attribute 'get'"))
    by (vm_compute; reflexivity).
  cbv zeta. rewrite E. split; [reflexivity|]. split; [|reflexivity].
  intros status c m. discriminate.
Qed.

(** An empty success body is refused as well. *)
Example empty_success_body (depth : nat) :
  snd (_request (demo_client (answer 204 "")) 1 depth "DELETE" ORDER_PATH None true
         (World [] []))
  = Raise JSONDecodeError.
Proof. vm_compute. reflexivity. Qed.

(** The three outcomes of the transport. *)
Example connection_refused (depth : nat) :
  snd (_request (demo_client (fun _ => ConnectionFailed "refused")) 1 depth "GET"
         "/fapi/v1/time" None false (World [] []))
  = Raise (ConnectionError
             "Cannot reach https://testnet.binancefuture.com/fapi/v1/time: refused").
Proof. reflexivity. Qed.

Example request_timed_out (depth : nat) :
  snd (_request (demo_client (fun _ => TimedOut "read timeout")) 1 depth "GET"
         "/fapi/v1/time" None false (World [] []))
  = Raise (TimeoutError
             "Request to https://testnet.binancefuture.com/fapi/v1/time timed out.").
Proof. reflexivity. Qed.

(** The public ticker call sends its one parameter unsigned; the account
    call signs an empty parameter set. *)
Example ticker_price_is_unsigned (depth : nat) :
  wire (fst (ticker_price (demo_client (answer 200 "{}")) 1 depth "BTCUSDT"
               (World [] [])))
  = [WireRequest "GET" "https://testnet.binancefuture.com/fapi/v1/ticker/price"
       [("symbol", VStr "BTCUSDT")] 15].
Proof. reflexivity. Qed.

Example account_info_is_signed (depth : nat) :
  wire (fst (account_info (demo_client (answer 200 "{}")) 1 depth (World [] [])))
  = [WireRequest "GET" "https://testnet.binancefuture.com/fapi/v2/account"
       [("recvWindow", VInt 5000); ("timestamp", VInt 1);
        ("signature", VStr (signature_of demo_secret "recvWindow=5000&timestamp=1"))]
       15].
Proof. vm_compute. reflexivity. Qed.

(** ** Claims about the validators *)

Lemma member_In (x : string) (s : list string) : member x s = true <-> In x s.
Proof.
  unfold member. rewrite existsb_exists. split.
  - intros (y & Hy & E). apply String.eqb_eq in E. now subst.
  - intros H. exists x. split; [exact H | apply String.eqb_refl].
Qed.

Lemma member_not_In (x : string) (s : list string) : member x s = false <-> ~ In x s.
Proof.
  rewrite <- member_In. destruct (member x s); split; congruence.
Qed.

(** C7.  Without a price, [validate_price] raises the required-field
    error exactly for the order types LIMIT, STOP and TAKE_PROFIT and
    returns [None] for every other order type; without a stop price,
    [validate_stop_price] raises exactly for STOP, STOP_MARKET,
    TAKE_PROFIT and TAKE_PROFIT_MARKET and returns [None] otherwise. *)
Theorem absent_price_required_by_type (order_type : string) :
  (In order_type ["LIMIT"; "STOP"; "TAKE_PROFIT"] <->
   validate_price None order_type
   = Raise (ValueError ("Price is required for " ++ order_type ++ " orders.")))
  /\ (~ In order_type ["LIMIT"; "STOP"; "TAKE_PROFIT"] <->
      validate_price None order_type = Return None)
  /\ (In order_type ["STOP"; "STOP_MARKET"; "TAKE_PROFIT"; "TAKE_PROFIT_MARKET"] <->
      validate_stop_price None order_type
      = Raise (ValueError ("Stop price is required for " ++ order_type ++ " orders.")))
  /\ (~ In order_type ["STOP"; "STOP_MARKET"; "TAKE_PROFIT"; "TAKE_PROFIT_MARKET"] <->
      validate_stop_price None order_type = Return None).
Proof.
  unfold validate_price, validate_stop_price.
  fold PRICE_REQUIRED_TYPES STOP_REQUIRED_TYPES.
  rewrite <- !member_In.
  destruct (member order_type PRICE_REQUIRED_TYPES);
    destruct (member order_type STOP_REQUIRED_TYPES);
    repeat split; intros; congruence.
Qed.

(** C9.  The text "Infinity" passes the three numeric validators and
    comes back as the infinite decimal; the text "NaN" makes each of them
    raise [decimal.InvalidOperation], which is not a [ValueError]. *)
Theorem special_values_escape_validation (order_type : string) :
  validate_quantity "Infinity" = Return (Dec.Inf false)
  /\ validate_quantity "NaN" = Raise InvalidOperation
  /\ validate_price (Some "Infinity") order_type = Return (Some (Dec.Inf false))
  /\ validate_price (Some "NaN") order_type = Raise InvalidOperation
  /\ validate_stop_price (Some "Infinity") order_type = Return (Some (Dec.Inf false))
  /\ validate_stop_price (Some "NaN") order_type = Raise InvalidOperation
  /\ is_ValueError InvalidOperation = false.
Proof. repeat split. Qed.

(** C4, where the code leaves the claim: for the quantity [nan] (what
    the command line passes on for [--quantity nan]) the validator raises
    [InvalidOperation] instead of a validation error, the handler of
    [_execute_order] for [ValueError] does not catch it, and the command
    ends with that exception; for [inf] the order is sent with the
    quantity Infinity. *)
Theorem quantity_nan_is_not_a_validation_error (depth : nat) :
  validate_quantity "nan" = Raise InvalidOperation
  /\ is_ValueError InvalidOperation = false
  /\ _execute_order demo_env (answer 200 "{}") 1 depth
       (RawOrder "BTCUSDT" "BUY" "MARKET" "nan" None None) (World [] [])
     = (World [] [], Raise InvalidOperation)
  /\ validate_quantity "inf" = Return (Dec.Inf false)
  /\ order_params (Order "BTCUSDT" "BUY" "MARKET" (Dec.Inf false) None None) "GTC"
     = [("symbol", VStr "BTCUSDT"); ("side", VStr "BUY"); ("type", VStr "MARKET");
        ("quantity", VStr "Infinity")].
Proof. repeat split. Qed.

(** ** The price fields of an order *)

(** A validator of an optional price returns a price exactly when it was
    given one, and was given one whenever the order type requires it. *)
Lemma validate_price_presence (raw : option string) (order_type : string)
    (p : option Dec.t) :
  validate_price raw order_type = Return p ->
  (p <> None <-> raw <> None)
  /\ (In order_type PRICE_REQUIRED_TYPES -> p <> None).
Proof.
  unfold validate_price. rewrite <- member_In. destruct raw as [s|].
  - destruct (Dec.of_string s) as [d|]; [|discriminate].
    destruct (decimal_le_zero d) as [[|]|]; cbn [rbind]; try discriminate.
    intros [= <-]. repeat split; discriminate.
  - destruct (member order_type PRICE_REQUIRED_TYPES); [discriminate|].
    intros [= <-]. repeat split; congruence.
Qed.

Lemma validate_stop_price_presence (raw : option string) (order_type : string)
    (p : option Dec.t) :
  validate_stop_price raw order_type = Return p ->
  (p <> None <-> raw <> None)
  /\ (In order_type STOP_REQUIRED_TYPES -> p <> None).
Proof.
  unfold validate_stop_price. rewrite <- member_In. destruct raw as [s|].
  - destruct (Dec.of_string s) as [d|]; [|discriminate].
    destruct (decimal_le_zero d) as [[|]|]; cbn [rbind]; try discriminate.
    intros [= <-]. repeat split; discriminate.
  - destruct (member order_type STOP_REQUIRED_TYPES); [discriminate|].
    intros [= <-]. repeat split; congruence.
Qed.

(** What the pipeline keeps of the raw fields. *)
Lemma validate_order_fields (r : raw_order) (o : order) :
  validate_order r = Return o ->
  validate_price (r_price r) (o_type o) = Return (o_price o)
  /\ validate_stop_price (r_stop_price r) (o_type o) = Return (o_stop_price o).
Proof.
  unfold validate_order.
  destruct (validate_symbol (r_symbol r)) as [sym|]; [|discriminate].
  destruct (validate_side (r_side r)) as [side|]; [|discriminate].
  destruct (validate_order_type (r_type r)) as [ot|]; [|discriminate].
  destruct (validate_quantity (r_quantity r)) as [qty|]; [|discriminate].
  cbn [rbind].
  destruct (validate_price (r_price r) ot) as [p|] eqn:Hp; [|discriminate].
  destruct (validate_stop_price (r_stop_price r) ot) as [sp|] eqn:Hsp; [|discriminate].
  cbn [rbind]. intros [= <-]. cbn [o_type o_price o_stop_price]. now split.
Qed.

(** The two price keys of the parameter dict follow the two optional
    fields of the order. *)
Lemma order_params_price_keys (o : order) (tif : string) :
  Dict.mem (order_params o tif) "price" = is_some (o_price o)
  /\ Dict.mem (order_params o tif) "stopPrice" = is_some (o_stop_price o).
Proof.
  unfold order_params.
  destruct (o_price o), (o_stop_price o), (member (o_type o) TIF_REQUIRED_TYPES);
    split; reflexivity.
Qed.

Lemma signed_params_mem_other (secret : string) (now : Z) (d : pydict) (k : string) :
  k <> "recvWindow" -> k <> "timestamp" -> k <> "signature" ->
  Dict.mem (signed_params secret now d) k = Dict.mem d k.
Proof.
  intros H1 H2 H3. unfold signed_params, with_window.
  rewrite !dict_mem_set.
  replace (String.eqb "signature" k) with false
    by (symmetry; apply String.eqb_neq; congruence).
  replace (String.eqb "timestamp" k) with false
    by (symmetry; apply String.eqb_neq; congruence).
  replace (String.eqb "recvWindow" k) with false
    by (symmetry; apply String.eqb_neq; congruence).
  reflexivity.
Qed.

(** [place_order] creates the parameter dict, and the gateway its signed
    copy, which goes on the wire. *)
Lemma place_order_run (client : BinanceClient) (now : Z) (depth : nat)
    (o : order) (tif : string) (w : world) :
  let sent := signed_params (api_secret client) now (order_params o tif) in
  let req := WireRequest "POST" (base_url client ++ ORDER_PATH) sent 15 in
  exists out,
    place_order client now depth o tif w
    = (World (heap w ++ [order_params o tif; sent]) (wire w ++ [req]), out).
Proof.
  intros sent req. unfold place_order, post.
  unfold bind at 1. unfold alloc at 1.
  unfold bind at 1. rewrite _request_run.
  unfold sent_request, sent_items, caller_items. cbn [heap wire].
  rewrite lookup_snoc. cbn [default from_option id]. fold sent. fold req.
  rewrite <- app_assoc. cbn [app].
  destruct (respond depth (base_url client ++ ORDER_PATH) (_session client req))
    as [resp|e];
    [|eexists; reflexivity].
  unfold bind, lift, ret.
  destruct (py_get resp "orderId" Json.JNull); eexists; reflexivity.
Qed.

Lemma client_init_fields (env : string -> option string) (net : session)
    (client : BinanceClient) :
  BinanceClient_init env net None None BASE_URL = Return client ->
  base_url client = BASE_URL /\ _session client = net.
Proof.
  unfold BinanceClient_init.
  destruct (_ || _); [discriminate|]. intros [= <-]. split; reflexivity.
Qed.

(** What [_execute_order] puts on the wire for an order that passes the
    validators. *)
Lemma execute_order_wire (env : string -> option string) (net : session)
    (now : Z) (depth : nat) (r : raw_order) (o : order) (client : BinanceClient)
    (w : world) :
  validate_order r = Return o ->
  BinanceClient_init env net None None BASE_URL = Return client ->
  wire (fst (_execute_order env net now depth r w))
  = (wire w ++ [WireRequest "POST" (BASE_URL ++ ORDER_PATH)
                 (signed_params (api_secret client) now (order_params o "GTC")) 15])%list.
Proof.
  intros Hv Hc. unfold _execute_order. rewrite Hv.
  unfold bind at 1. unfold lift at 1. rewrite Hc.
  destruct (place_order_run client now depth o "GTC" w) as (out & ->).
  destruct (client_init_fields env net client Hc) as [-> _].
  destruct out; reflexivity.
Qed.

(** C2, the input on which the claim as stated fails: a MARKET order
    given with a price ([order -t MARKET -p 50000]).  The order passes
    the validators and the request on the wire carries the price, although
    MARKET is not one of LIMIT, STOP and TAKE_PROFIT. *)
Lemma market_order_with_price_is_sent :
  let r := RawOrder "BTCUSDT" "BUY" "MARKET" "0.01" (Some "50000.0") None in
  let w' := fst (_execute_order demo_env (answer 200 "{}") 1 demo_depth r
                   (World [] [])) in
  validate_order r
  = Return (Order "BTCUSDT" "BUY" "MARKET" (Dec.Finite false 1 (-2))
              (Some (Dec.Finite false 500000 (-1))) None)
  /\ (exists req, wire w' = [req]
        /\ Dict.get (w_params req) "type" = Some (VStr "MARKET")
        /\ Dict.get (w_params req) "price" = Some (VStr "50000.0")
        /\ ~ (Dict.mem (w_params req) "price" = true
              <-> In "MARKET" ["LIMIT"; "STOP"; "TAKE_PROFIT"])).
Proof.
  intros r w'. split; [vm_compute; reflexivity|].
  assert (Hv : validate_order r
               = Return (Order "BTCUSDT" "BUY" "MARKET" (Dec.Finite false 1 (-2))
                           (Some (Dec.Finite false 500000 (-1))) None))
    by (vm_compute; reflexivity).
  assert (Hc : BinanceClient_init demo_env (answer 200 "{}") None None BASE_URL
               = Return (demo_client (answer 200 "{}")))
    by (vm_compute; reflexivity).
  pose proof (execute_order_wire demo_env (answer 200 "{}") 1 demo_depth r _
                (demo_client (answer 200 "{}")) (World [] []) Hv Hc) as Hw.
  fold w' in Hw. cbn [wire app] in Hw.
  eexists. split; [exact Hw|]. cbn [w_params].
  split; [reflexivity|]. split; [reflexivity|].
  intros [H _]. specialize (H eq_refl).
  destruct H as [H|[H|[H|[]]]]; discriminate.
Qed.

(** C2, amended.  For an order that passes the validators and is
    submitted, the request on the wire holds [price] exactly when a price
    was given and [stopPrice] exactly when a stop price was given; a
    price was given whenever the order type is LIMIT, STOP or
    TAKE_PROFIT, and a stop price whenever it is STOP, STOP_MARKET,
    TAKE_PROFIT or TAKE_PROFIT_MARKET. *)
Theorem price_fields_follow_the_input (env : string -> option string)
    (net : session) (now : Z) (depth : nat) (r : raw_order) (o : order)
    (client : BinanceClient) (w : world) :
  validate_order r = Return o ->
  BinanceClient_init env net None None BASE_URL = Return client ->
  exists req : wire_request,
    wire (fst (_execute_order env net now depth r w)) = (wire w ++ [req])%list
    /\ (Dict.mem (w_params req) "price" = true <-> r_price r <> None)
    /\ (Dict.mem (w_params req) "stopPrice" = true <-> r_stop_price r <> None)
    /\ (In (o_type o) ["LIMIT"; "STOP"; "TAKE_PROFIT"] ->
        Dict.mem (w_params req) "price" = true)
    /\ (In (o_type o) ["STOP"; "STOP_MARKET"; "TAKE_PROFIT"; "TAKE_PROFIT_MARKET"] ->
        Dict.mem (w_params req) "stopPrice" = true).
Proof.
  intros Hv Hc. eexists. split; [exact (execute_order_wire _ _ _ _ _ _ _ _ Hv Hc)|].
  cbn [w_params].
  rewrite !signed_params_mem_other by discriminate.
  destruct (order_params_price_keys o "GTC") as [-> ->].
  destruct (validate_order_fields r o Hv) as [Hp Hs].
  destruct (validate_price_presence _ _ _ Hp) as [Hp1 Hp2].
  destruct (validate_stop_price_presence _ _ _ Hs) as [Hs1 Hs2].
  assert (Hsome : forall x : option Dec.t, is_some x = true <-> x <> None)
    by (intros [x|]; simpl; split; congruence).
  rewrite !Hsome. repeat split; try tauto.
Qed.

Lemma price_fields_follow_the_input_witness :
  exists req : wire_request,
    wire (fst (_execute_order demo_env (answer 200 "{}") 1 demo_depth
                 (RawOrder "btcusdt" "buy" "limit" "0.01" (Some "50000") None)
                 (World [] [])))
    = [req]
    /\ (Dict.mem (w_params req) "price" = true <-> Some "50000" <> None)
    /\ (Dict.mem (w_params req) "stopPrice" = true <-> @None string <> None).
Proof.
  assert (Hv : validate_order
                 (RawOrder "btcusdt" "buy" "limit" "0.01" (Some "50000") None)
               = Return (Order "BTCUSDT" "BUY" "LIMIT" (Dec.Finite false 1 (-2))
                           (Some (Dec.Finite false 50000 0)) None))
    by (vm_compute; reflexivity).
  assert (Hc : BinanceClient_init demo_env (answer 200 "{}") None None BASE_URL
               = Return (demo_client (answer 200 "{}")))
    by (vm_compute; reflexivity).
  destruct (price_fields_follow_the_input demo_env (answer 200 "{}") 1 demo_depth
              (RawOrder "btcusdt" "buy" "limit" "0.01" (Some "50000") None)
              (Order "BTCUSDT" "BUY" "LIMIT" (Dec.Finite false 1 (-2))
                 (Some (Dec.Finite false 50000 0)) None)
              (demo_client (answer 200 "{}")) (World [] [])
              Hv Hc)
    as (req & Hw & Hp & Hs & _).
  exists req. split; [exact Hw|]. split; [exact Hp | exact Hs].
Defined.

(** The scenarios of the specification. *)
Example limit_order_scenario :
  validate_order (RawOrder "btcusdt" "buy" "limit" "0.01" (Some "50000") None)
  = Return (Order "BTCUSDT" "BUY" "LIMIT" (Dec.Finite false 1 (-2))
              (Some (Dec.Finite false 50000 0)) None).
Proof. vm_compute. reflexivity. Qed.

Example stop_market_without_stop_price (symbol quantity sym : string) (qty : Dec.t) :
  validate_symbol symbol = Return sym ->
  validate_quantity quantity = Return qty ->
  validate_order (RawOrder symbol "buy" "stop_market" quantity None None)
  = Raise (ValueError "Stop price is required for STOP_MARKET orders.").
Proof.
  intros Hs Hq. unfold validate_order. cbn [r_symbol r_side r_type r_quantity
    r_price r_stop_price]. rewrite Hs, Hq. reflexivity.
Qed.

Example short_symbol_scenario (side type quantity : string) (price stop : option string) :
  validate_order (RawOrder "btc" side type quantity price stop)
  = Raise (ValueError "Symbol 'BTC' looks too short. Expected something like BTCUSDT.").
Proof. reflexivity. Qed.

(** ** Exact decimals *)

Module DecFacts.
Import PyStr Dec.

Lemma all_chars_app (p : ascii -> bool) (a b : string) :
  all_chars p (a ++ b) = all_chars p a && all_chars p b.
Proof.
  induction a as [|c a IH]; simpl; [reflexivity|].
  now rewrite IH, andb_assoc.
Qed.

Lemma all_chars_impl (p q : ascii -> bool) (s : string) :
  (forall c, p c = true -> q c = true) ->
  all_chars p s = true -> all_chars q s = true.
Proof.
  intros Hpq. induction s as [|c s IH]; simpl; auto.
  intros H. apply andb_prop in H as [H1 H2]. now rewrite (Hpq c H1), IH.
Qed.

(** A plain character is no whitespace, no underscore, no sign, no
    letter. *)
Lemma plain_char_facts (c : ascii) :
  plain_char c = true ->
  is_space c = false /\ Ascii.eqb c "_" = false /\ Ascii.eqb c "-" = false
  /\ Ascii.eqb c "+" = false /\ lower_char c = c
  /\ Ascii.eqb c "i" = false /\ Ascii.eqb c "n" = false /\ Ascii.eqb c "s" = false.
Proof.
  destruct c as [b0 b1 b2 b3 b4 b5 b6 b7].
  destruct b0, b1, b2, b3, b4, b5, b6, b7; vm_compute; intros H;
    try discriminate H; repeat split.
Qed.

Lemma rstrip_plain (s : string) : all_chars plain_char s = true -> rstrip s = s.
Proof.
  induction s as [|c s IH]; [reflexivity|].
  cbn [all_chars rstrip]. intros H. apply andb_prop in H as [Hc Hs].
  rewrite (IH Hs). destruct (plain_char_facts c Hc) as (-> & _).
  destruct s; reflexivity.
Qed.

Lemma strip_plain (s : string) : all_chars plain_char s = true -> strip s = s.
Proof.
  intros H. unfold strip.
  assert (E : lstrip s = s).
  { destruct s as [|c s]; [reflexivity|]. cbn [all_chars] in H.
    apply andb_prop in H as [Hc _].
    cbn [lstrip]. now destruct (plain_char_facts c Hc) as (-> & _). }
  rewrite E. now apply rstrip_plain.
Qed.

Lemma remove_underscore_plain (s : string) :
  all_chars plain_char s = true -> remove_char "_" s = s.
Proof.
  induction s as [|c s IH]; [reflexivity|].
  cbn [all_chars remove_char]. intros H. apply andb_prop in H as [Hc Hs].
  destruct (plain_char_facts c Hc) as (_ & -> & _). now rewrite IH.
Qed.

Lemma lower_plain (s : string) : all_chars plain_char s = true -> lower s = s.
Proof.
  unfold lower. induction s as [|c s IH]; [reflexivity|].
  cbn [all_chars map_chars]. intros H. apply andb_prop in H as [Hc Hs].
  destruct (plain_char_facts c Hc) as (_ & _ & _ & _ & -> & _). now rewrite IH.
Qed.

(** A non-empty text in plain characters is read as a finite number. *)
Lemma of_string_plain (s : string) :
  s <> EmptyString -> all_chars plain_char s = true ->
  of_string s = parse_finite false s.
Proof.
  intros Hne H. unfold of_string.
  rewrite (strip_plain s H), (remove_underscore_plain s H).
  destruct s as [|c s]; [congruence|].
  pose proof H as H'. cbn [all_chars] in H'. apply andb_prop in H' as [Hc Hs].
  destruct (plain_char_facts c Hc) as (_ & _ & Hm & Hp & Hl & Hi & Hn & Hsn).
  unfold split_sign. rewrite Hm, Hp. rewrite (lower_plain _ H).
  assert (E1 : String.eqb (String c s) "inf" = false)
    by (cbn [String.eqb]; now rewrite Hi).
  assert (E2 : String.eqb (String c s) "infinity" = false)
    by (cbn [String.eqb]; now rewrite Hi).
  rewrite E1, E2. cbn [orb].
  unfold parse_nan, strip_prefix. cbn [String.prefix].
  destruct (ascii_dec "n" c) as [<-|_]; [discriminate Hn|].
  destruct (ascii_dec "s" c) as [<-|_]; [discriminate Hsn|].
  reflexivity.
Qed.

Lemma span_digits_then (ds rest : string) :
  all_chars is_digit ds = true ->
  (match rest with String c _ => is_digit c = false | EmptyString => True end) ->
  span is_digit (ds ++ rest) = (ds, rest).
Proof.
  intros Hd Hr. induction ds as [|c ds IH].
  - destruct rest as [|c r]; [reflexivity|]. cbn [append span]. now rewrite Hr.
  - cbn [all_chars] in Hd. apply andb_prop in Hd as [Hc Hd].
    cbn [append span]. now rewrite Hc, (IH Hd).
Qed.

Lemma digit_value (c : ascii) : is_digit c = true -> 0 <= code c - 48 <= 9.
Proof.
  unfold is_digit, in_range. intros H. apply andb_prop in H as [H1 H2].
  apply Z.leb_le in H1, H2. lia.
Qed.

(** The value of a digit string lies below the power of ten of its
    length. *)
Lemma int_of_digits_acc_bound (s : string) (acc : Z) :
  all_chars is_digit s = true -> 0 <= acc ->
  acc * 10 ^ len s <= int_of_digits_acc acc s < (acc + 1) * 10 ^ len s.
Proof.
  unfold len. revert acc. induction s as [|c s IH]; intros acc Hd Hacc.
  - cbn. lia.
  - cbn [all_chars] in Hd. apply andb_prop in Hd as [Hc Hd].
    pose proof (digit_value c Hc) as Hv.
    cbn [int_of_digits_acc String.length].
    specialize (IH (10 * acc + (code c - 48)) Hd ltac:(lia)).
    rewrite Nat2Z.inj_succ, Z.pow_succ_r by lia.
    assert (0 < 10 ^ Z.of_nat (String.length s)) by (apply Z.pow_pos_nonneg; lia).
    nia.
Qed.

Lemma digits_of_pos_length (fuel : nat) (n : Z) (k : Z) (acc : string) :
  1 <= k -> 0 <= n < 10 ^ k ->
  len (digits_of_pos fuel n acc) <= k + len acc.
Proof.
  unfold len. revert n k acc. induction fuel as [|fuel IH]; intros n k acc Hk Hn.
  - cbn. lia.
  - cbn [digits_of_pos]. destruct (n <? 10) eqn:E.
    + cbn [String.length]. lia.
    + apply Z.ltb_ge in E.
      assert (Hk2 : 2 <= k).
      { destruct (Z.eq_dec k 1) as [->|]; [|lia]. change (10 ^ 1) with 10 in Hn. lia. }
      specialize (IH (n / 10) (k - 1)
                    (String (chr (48 + n mod 10)) acc) ltac:(lia)).
      cbn [String.length] in IH. rewrite Nat2Z.inj_succ in IH.
      assert (Hdiv : 0 <= n / 10 < 10 ^ (k - 1)).
      { split; [apply Z.div_pos; lia|].
        apply Z.div_lt_upper_bound; [lia|].
        replace (10 * 10 ^ (k - 1)) with (10 ^ k); [lia|].
        replace k with (Z.succ (k - 1)) at 1 by lia.
        rewrite Z.pow_succ_r by lia. reflexivity. }
      specialize (IH Hdiv). lia.
Qed.

(** A coefficient has no more digits than the text it was read from. *)
Lemma ndigits_le_length (ds : string) :
  ds <> EmptyString -> all_chars is_digit ds = true ->
  ndigits (Z.to_N (int_of_digits ds)) <= len ds.
Proof.
  intros Hne Hd. unfold ndigits, str_of_nonneg, int_of_digits.
  pose proof (int_of_digits_acc_bound ds 0 Hd ltac:(lia)) as Hb.
  rewrite Z2N.id by lia.
  assert (Hlen : 1 <= len ds).
  { unfold len. destruct ds; [congruence|]. cbn [String.length]. lia. }
  pose proof (digits_of_pos_length
                (S (Z.to_nat (Z.log2 (int_of_digits_acc 0 ds))))
                (int_of_digits_acc 0 ds) (len ds) EmptyString Hlen ltac:(lia)) as H.
  unfold len in *. cbn [String.length] in H. lia.
Qed.

Lemma int_of_digits_acc_linear (s : string) (a : Z) :
  int_of_digits_acc a s = a * 10 ^ len s + int_of_digits_acc 0 s.
Proof.
  unfold len. revert a. induction s as [|c s IH]; intros a.
  - cbn. lia.
  - cbn [int_of_digits_acc String.length].
    rewrite (IH (10 * a + (code c - 48))), (IH (10 * 0 + (code c - 48))).
    rewrite Nat2Z.inj_succ, Z.pow_succ_r by lia. ring.
Qed.

Lemma code_chr (z : Z) : 0 <= z < 256 -> code (chr z) = z.
Proof.
  intros H. unfold code, chr. rewrite N_ascii_embedding; lia.
Qed.

Lemma digits_of_pos_value (fuel : nat) (n : Z) (acc : string) :
  0 <= n < 2 ^ Z.of_nat fuel ->
  int_of_digits (digits_of_pos fuel n acc) = n * 10 ^ len acc + int_of_digits acc.
Proof.
  unfold int_of_digits. revert n acc. induction fuel as [|fuel IH]; intros n acc Hn.
  - cbn in Hn. cbn [digits_of_pos]. assert (n = 0) as -> by lia. lia.
  - cbn [digits_of_pos].
    assert (Hm : 0 <= n mod 10 < 10) by (apply Z.mod_pos_bound; lia).
    assert (Hhead : forall r,
      int_of_digits_acc 0 (String (chr (48 + n mod 10)) r)
      = (n mod 10) * 10 ^ len r + int_of_digits_acc 0 r).
    { intros r. cbn [int_of_digits_acc]. rewrite code_chr by lia.
      rewrite int_of_digits_acc_linear. f_equal. f_equal. lia. }
    destruct (n <? 10) eqn:E.
    + apply Z.ltb_lt in E. rewrite Hhead. rewrite Z.mod_small by lia. reflexivity.
    + apply Z.ltb_ge in E. rewrite IH.
      * rewrite Hhead. unfold len. cbn [String.length].
        rewrite Nat2Z.inj_succ, Z.pow_succ_r by lia.
        pose proof (Z.div_mod n 10 ltac:(lia)) as Hd. nia.
      * rewrite Nat2Z.inj_succ, Z.pow_succ_r in Hn by lia.
        split; [apply Z.div_pos; lia|].
        apply Z.div_lt_upper_bound; lia.
Qed.

(** [str(n)] spells [n]: reading the digits back gives the number. *)
Lemma int_of_str_of_nonneg (n : Z) : 0 <= n -> int_of_digits (str_of_nonneg n) = n.
Proof.
  intros Hn. unfold str_of_nonneg. rewrite digits_of_pos_value.
  - change (n * 10 ^ 0 + 0 = n). rewrite Z.pow_0_r. lia.
  - rewrite Nat2Z.inj_succ, Z2Nat.id by apply Z.log2_nonneg.
    destruct (Z.eq_dec n 0) as [->|Hne]; [cbn; lia|].
    pose proof (Z.log2_spec n ltac:(lia)). lia.
Qed.

End DecFacts.

Lemma append_empty_r (s : string) : (s ++ "")%string = s.
Proof. induction s as [|c s IH]; simpl; [reflexivity | now rewrite IH]. Qed.

Lemma parse_finite_plain (ip fp : string) :
  PyStr.all_chars PyStr.is_digit ip = true ->
  PyStr.all_chars PyStr.is_digit fp = true ->
  PyStr.len ip + PyStr.len fp <= Dec.MAX_PREC ->
  0 < Dec.int_of_digits (ip ++ fp) ->
  Dec.parse_finite false (ip ++ "." ++ fp)
  = Some (Dec.Finite false (Z.to_N (Dec.int_of_digits (ip ++ fp))) (- PyStr.len fp)).
Proof.
  intros Hi Hf Hlen Hpos. unfold Dec.parse_finite.
  rewrite (DecFacts.span_digits_then ip ("." ++ fp) Hi) by reflexivity.
  cbn [append]. cbn [Ascii.eqb Bool.eqb].
  pose proof (DecFacts.span_digits_then fp "" Hf I) as Hs.
  rewrite append_empty_r in Hs. rewrite Hs.
  assert (Hne : (ip ++ fp)%string <> EmptyString).
  { intros E. rewrite E in Hpos. cbn in Hpos. lia. }
  assert (Hd : PyStr.all_chars PyStr.is_digit (ip ++ fp) = true)
    by (rewrite DecFacts.all_chars_app, Hi, Hf; reflexivity).
  pose proof (DecFacts.ndigits_le_length (ip ++ fp) Hne Hd) as Hn.
  assert (Hl : PyStr.len (ip ++ fp) = PyStr.len ip + PyStr.len fp).
  { unfold PyStr.len. rewrite UrlFacts.app_length_str. lia. }
  assert (Hnd : 0 <= Dec.ndigits (Z.to_N (Dec.int_of_digits (ip ++ fp))))
    by (unfold Dec.ndigits, PyStr.len; lia).
  assert (Hfp : 0 <= PyStr.len fp /\ 0 <= PyStr.len ip) by (unfold PyStr.len; lia).
  assert (Hrep : Dec.representable (Z.to_N (Dec.int_of_digits (ip ++ fp)))
                   (0 - PyStr.len fp) = true).
  { unfold Dec.representable, Dec.MAX_PREC, Dec.MAX_EMAX, Dec.MIN_ETINY in *.
    rewrite !andb_true_iff, !Z.leb_le. lia. }
  cbn [Dec.parse_exponent].
  destruct (ip ++ fp)%string as [|c ds]; [congruence|].
  rewrite Hrep. reflexivity.
Qed.

(** The part of C4 that holds: a positive number written with digits and
    a decimal point comes back as the decimal with exactly those digits,
    the integer they spell as coefficient and the number of digits after
    the point as (negative) exponent; nothing is rounded. *)
Lemma validate_quantity_exact (ip fp : string) :
  PyStr.all_chars PyStr.is_digit ip = true ->
  PyStr.all_chars PyStr.is_digit fp = true ->
  PyStr.len ip + PyStr.len fp <= Dec.MAX_PREC ->
  0 < Dec.int_of_digits (ip ++ fp) ->
  validate_quantity (ip ++ "." ++ fp)
  = Return (Dec.Finite false (Z.to_N (Dec.int_of_digits (ip ++ fp))) (- PyStr.len fp)).
Proof.
  intros Hi Hf Hlen Hpos. unfold validate_quantity.
  rewrite DecFacts.of_string_plain.
  - rewrite (parse_finite_plain ip fp Hi Hf Hlen Hpos).
    unfold decimal_le_zero, Dec.le_zero. cbn [orb rbind].
    destruct (Z.to_N (Dec.int_of_digits (ip ++ fp)) =? 0)%N eqn:E; [|reflexivity].
    apply N.eqb_eq in E. lia.
  - destruct ip; discriminate.
  - rewrite !DecFacts.all_chars_app.
    rewrite (DecFacts.all_chars_impl PyStr.is_digit plain_char ip),
            (DecFacts.all_chars_impl PyStr.is_digit plain_char fp); auto;
      intros c Hc; unfold plain_char; now rewrite Hc.
Qed.

Example validate_quantity_exact_example :
  validate_quantity "0.010" = Return (Dec.Finite false 10 (-3))
  /\ _fmt (Dec.Finite false 10 (-3)) = "0.010".
Proof. split; reflexivity. Qed.

(** A quantity that is zero or negative is refused with a
    [ValueError]. *)
Example validate_quantity_not_positive :
  validate_quantity "0" = Raise (ValueError "Quantity must be > 0, got 0.")
  /\ validate_quantity "-1.5"
     = Raise (ValueError "Quantity must be > 0, got -1.5.")
  /\ validate_quantity "abc"
     = Raise (ValueError "Invalid quantity 'abc'. Must be a positive number.").
Proof. repeat split. Qed.

(** ** The JSON scanner has fuel enough *)

Module JsonFacts.
Import Json.

Lemma skip_ws_length (s : string) : (String.length (skip_ws s) <= String.length s)%nat.
Proof.
  induction s as [|c s IH]; simpl; [lia|].
  destruct (is_ws c); simpl; lia.
Qed.

Lemma skip_ws_cons_length (s r : string) (c : ascii) :
  skip_ws s = String c r -> (String.length r < String.length s)%nat.
Proof.
  intros H. pose proof (skip_ws_length s) as Hl. rewrite H in Hl. simpl in Hl. lia.
Qed.

Lemma span_length (p : ascii -> bool) (s a b : string) :
  Dec.span p s = (a, b) -> String.length s = (String.length a + String.length b)%nat.
Proof.
  revert a b. induction s as [|c s IH]; intros a b; simpl.
  - intros [= <- <-]. reflexivity.
  - destruct (p c).
    + destruct (Dec.span p s) as [a' b'] eqn:E. intros [= <- <-].
      simpl. now rewrite (IH a' b' eq_refl).
    + intros [= <- <-]. reflexivity.
Qed.

Lemma substring_length_le (n m : nat) (s : string) :
  (String.length (substring n m s) <= m)%nat.
Proof.
  revert n m. induction s as [|c s IH]; intros [|n] [|m]; simpl; try lia.
  - specialize (IH 0%nat m). lia.
  - apply IH.
  - apply IH.
Qed.

Lemma prefix_length (p s : string) :
  String.prefix p s = true -> (String.length p <= String.length s)%nat.
Proof.
  revert s. induction p as [|c p IH]; intros [|d s]; simpl; try lia; try discriminate.
  destruct (ascii_dec c d); [|discriminate]. intros H. specialize (IH s H). lia.
Qed.

Lemma strip_prefix_length (p s r : string) :
  Dec.strip_prefix p s = Some r -> (String.length r + String.length p <= String.length s)%nat.
Proof.
  unfold Dec.strip_prefix. destruct (String.prefix p s) eqn:E; [|discriminate].
  intros [= <-]. apply prefix_length in E.
  pose proof (substring_length_le (String.length p) (String.length s - String.length p) s). lia.
Qed.

Ltac crack H :=
  repeat (match type of H with
          | context [if ?x then _ else _] => destruct x eqn:?
          | context [match ?x with _ => _ end] =>
              first [ is_var x; destruct x
                    | destruct x as [[? ?]|] eqn:?
                    | destruct x eqn:? ]
          end; try discriminate H).

Lemma scanstring_length_aux (n : nat) (s b r : string) :
  (String.length s <= n)%nat -> scanstring s = Some (b, r) ->
  (String.length r < String.length s)%nat.
Proof.
  revert s b r. induction n as [|n IH]; intros s b r Hn H.
  - destruct s; [discriminate | simpl in Hn; lia].
  - destruct s as [|c s1]; [discriminate|]. cbn [scanstring] in H.
    crack H; injection H as <- <-;
      repeat match goal with
             | E : scanstring ?x = Some (_, _) |- _ =>
                 apply IH in E; [|simpl in *; lia]
             end;
      simpl in *; lia.
Qed.

Lemma scanstring_length (s b r : string) :
  scanstring s = Some (b, r) -> (String.length r < String.length s)%nat.
Proof. apply (scanstring_length_aux (String.length s)). lia. Qed.

(** Case analysis on a scrutinee of [H] that has no match inside. *)
Ltac innermost H :=
  match type of H with
  | context [match ?scrut with _ => _ end] =>
      lazymatch scrut with
      | context [match _ with _ => _ end] => fail 0 "a match inside"
      | _ =>
          first [ is_var scrut; destruct scrut
                | lazymatch type of scrut with
                  | option (prod _ _) => destruct scrut as [[? ?]|] eqn:?
                  | _ => destruct scrut eqn:?
                  end ]
      end
  end.

Ltac span_facts :=
  repeat match goal with
         | E : Dec.span _ _ = (_, _) |- _ => apply span_length in E
         | E : Dec.strip_prefix _ _ = Some _ |- _ => apply strip_prefix_length in E
         end.

Lemma scan_number_length (s r : string) (v : t) :
  scan_number s = inr (v, r) -> (String.length r < String.length s)%nat.
Proof.
  unfold scan_number, scan_sign, scan_int_part, scan_fraction, scan_exponent.
  intros H.
  repeat (innermost H; cbn beta iota in H; try discriminate H);
    injection H as <- <-; span_facts; simpl in *; lia.
Qed.

Lemma scan_literal_length (s r : string) (v : t) :
  scan_literal s = inr (v, r) -> (String.length r < String.length s)%nat.
Proof.
  unfold scan_literal. intros H.
  repeat (innermost H; cbn beta iota in H; try discriminate H);
    try (injection H as <- <-; span_facts; simpl in *; lia).
  all: injection H as ->; eapply scan_number_length; eauto.
Qed.

(** Every scanner returns a proper suffix of its input. *)
Lemma scanners_consume (fuel : nat) :
  (forall d s v r, scan_once fuel d s = inr (v, r) ->
                   (String.length r < String.length s)%nat)
  /\ (forall d s vs r, elements fuel d s = inr (vs, r) ->
                       (String.length r < String.length s)%nat)
  /\ (forall d s kvs r, members fuel d s = inr (kvs, r) ->
                        (String.length r < String.length s)%nat).
Proof.
  induction fuel as [|fuel (IHv & IHe & IHm)];
    [repeat split; intros; discriminate|].
  assert (Hv : forall d s v r, scan_once (S fuel) d s = inr (v, r) ->
                               (String.length r < String.length s)%nat).
  { intros d s v r H. cbn [scan_once] in H.
    destruct s as [|c s1]; [discriminate|].
    destruct (Ascii.eqb c dquote).
    { destruct (scanstring s1) as [[str rest]|] eqn:E; [|discriminate].
      injection H as <- <-. apply scanstring_length in E. simpl. lia. }
    destruct (Ascii.eqb c "{").
    { destruct d as [|d]; [discriminate|].
      pose proof (skip_ws_length s1) as Hw.
      destruct (skip_ws s1) as [|c1 r1] eqn:E; [discriminate|].
      destruct (Ascii.eqb c1 "}").
      - injection H as <- <-. simpl in *. lia.
      - destruct (members fuel d (String c1 r1)) as [f|[pairs rest]] eqn:Em;
          [discriminate|].
        injection H as <- <-. apply IHm in Em. simpl in *. lia. }
    destruct (Ascii.eqb c "[").
    { destruct d as [|d]; [discriminate|].
      pose proof (skip_ws_length s1) as Hw.
      destruct (skip_ws s1) as [|c1 r1] eqn:E; [discriminate|].
      destruct (Ascii.eqb c1 "]").
      - injection H as <- <-. simpl in *. lia.
      - destruct (elements fuel d (String c1 r1)) as [f|[items rest]] eqn:Ee;
          [discriminate|].
        injection H as <- <-. apply IHe in Ee. simpl in *. lia. }
    now apply scan_literal_length in H. }
  split; [exact Hv|]. split.
  - intros d s vs r H. cbn [elements] in H.
    destruct (scan_once fuel d s) as [f|[v rest]] eqn:E; [discriminate|].
    apply IHv in E. pose proof (skip_ws_length rest) as Hw.
    destruct (skip_ws rest) as [|c r1] eqn:E1; [discriminate|].
    destruct (Ascii.eqb c "]").
    + injection H as <- <-. simpl in *. lia.
    + destruct (Ascii.eqb c ","); [|discriminate].
      pose proof (skip_ws_length r1) as Hw1.
      destruct (elements fuel d (skip_ws r1)) as [f|[vs' rest']] eqn:E2; [discriminate|].
      injection H as <- <-. apply IHe in E2. simpl in *. lia.
  - intros d s kvs r H. cbn [members] in H.
    destruct s as [|q s1]; [discriminate|].
    destruct (Ascii.eqb q dquote); [|discriminate].
    destruct (scanstring s1) as [[key rest]|] eqn:E; [|discriminate].
    apply scanstring_length in E. pose proof (skip_ws_length rest) as Hw.
    destruct (skip_ws rest) as [|c r1] eqn:E1; [discriminate|].
    destruct (Ascii.eqb c ":"); [|discriminate].
    pose proof (skip_ws_length r1) as Hw1.
    destruct (scan_once fuel d (skip_ws r1)) as [f|[v rest1]] eqn:E2; [discriminate|].
    apply IHv in E2. pose proof (skip_ws_length rest1) as Hw2.
    destruct (skip_ws rest1) as [|c2 r2] eqn:E3; [discriminate|].
    destruct (Ascii.eqb c2 "}").
    + injection H as <- <-. simpl in *. lia.
    + destruct (Ascii.eqb c2 ","); [|discriminate].
      pose proof (skip_ws_length r2) as Hw3.
      destruct (members fuel d (skip_ws r2)) as [f|[kvs' rest2]] eqn:E4; [discriminate|].
      injection H as <- <-. apply IHm in E4. simpl in *. lia.
Qed.

(** With fuel beyond twice the length of the text the scanners no longer
    depend on the fuel. *)
Lemma fuel_irrelevant (n : nat) :
  (forall d s f1 f2, (String.length s <= n)%nat ->
     (2 * n + 1 <= f1)%nat -> (2 * n + 1 <= f2)%nat ->
     scan_once f1 d s = scan_once f2 d s)
  /\ (forall d s f1 f2, (String.length s <= n)%nat ->
       (2 * n + 2 <= f1)%nat -> (2 * n + 2 <= f2)%nat ->
       elements f1 d s = elements f2 d s)
  /\ (forall d s f1 f2, (String.length s <= n)%nat ->
       (2 * n + 2 <= f1)%nat -> (2 * n + 2 <= f2)%nat ->
       members f1 d s = members f2 d s).
Proof.
  induction n as [|n (IHv & IHe & IHm)].
  - repeat split; intros d [|c s] [|f1] [|f2] Hs H1 H2; try (simpl in *; lia);
      try reflexivity;
      destruct f1, f2; try (simpl in *; lia); reflexivity.
  - assert (Hv : forall d s f1 f2, (String.length s <= S n)%nat ->
                 (2 * S n + 1 <= f1)%nat -> (2 * S n + 1 <= f2)%nat ->
                 scan_once f1 d s = scan_once f2 d s).
    { intros d s [|f1] [|f2] Hs H1 H2; try lia. cbn [scan_once].
      destruct s as [|c s1]; [reflexivity|]. simpl in Hs.
      pose proof (skip_ws_length s1) as Hw.
      destruct d as [|d]; [reflexivity|].
      rewrite (IHm d (skip_ws s1) f1 f2) by lia.
      rewrite (IHe d (skip_ws s1) f1 f2) by lia.
      reflexivity. }
    split; [exact Hv|]. split.
    + intros d s [|f1] [|f2] Hs H1 H2; try lia. cbn [elements].
      rewrite (Hv d s f1 f2) by lia.
      destruct (scan_once f2 d s) as [f|[v rest]] eqn:E; [reflexivity|].
      apply (proj1 (scanners_consume f2)) in E.
      pose proof (skip_ws_length rest) as Hw.
      destruct (skip_ws rest) as [|c r1]; [reflexivity|]. simpl in Hw.
      pose proof (skip_ws_length r1) as Hw1.
      rewrite (IHe d (skip_ws r1) f1 f2) by lia. reflexivity.
    + intros d s [|f1] [|f2] Hs H1 H2; try lia. cbn [members].
      destruct s as [|q s1]; [reflexivity|]. simpl in Hs.
      destruct (Ascii.eqb q dquote); [|reflexivity].
      destruct (scanstring s1) as [[key rest]|] eqn:E; [|reflexivity].
      apply scanstring_length in E. pose proof (skip_ws_length rest) as Hw.
      destruct (skip_ws rest) as [|c r1]; [reflexivity|]. simpl in Hw.
      destruct (Ascii.eqb c ":"); [|reflexivity].
      pose proof (skip_ws_length r1) as Hw1.
      rewrite (IHv d (skip_ws r1) f1 f2) by lia.
      destruct (scan_once f2 d (skip_ws r1)) as [f|[v rest1]] eqn:E2; [reflexivity|].
      apply (proj1 (scanners_consume f2)) in E2.
      pose proof (skip_ws_length rest1) as Hw2.
      destruct (skip_ws rest1) as [|c2 r2]; [reflexivity|]. simpl in Hw2.
      pose proof (skip_ws_length r2) as Hw3.
      rewrite (IHm d (skip_ws r2) f1 f2) by lia. reflexivity.
Qed.

(** [loads] has fuel enough: more fuel gives the same result. *)
Theorem loads_fuel_enough (s : string) (fuel depth : nat) :
  (2 * String.length s + 2 <= fuel)%nat ->
  scan_once fuel depth (skip_ws s)
  = scan_once (2 * String.length s + 2) depth (skip_ws s).
Proof.
  intros H. apply (proj1 (fuel_irrelevant (String.length s))); try lia.
  apply skip_ws_length.
Qed.

(** ** The scanner and the grammar of JSON texts *)

Lemma append_nil_r (s : string) : (s ++ "")%string = s.
Proof. induction s as [|c s IH]; simpl; congruence. Qed.

Lemma append_assoc (a b c : string) : ((a ++ b) ++ c = a ++ (b ++ c))%string.
Proof. induction a as [|x a IH]; simpl; congruence. Qed.

Lemma skip_ws_blank (w s : string) :
  blank w = true -> skip_ws (w ++ s) = skip_ws s.
Proof.
  unfold blank. induction w as [|c w IH]; simpl; [reflexivity|].
  intros H. apply andb_prop in H as [Hc Hw]. now rewrite Hc, IH.
Qed.

Lemma skip_ws_split (s : string) :
  exists w : string, blank w = true /\ s = (w ++ skip_ws s)%string.
Proof.
  induction s as [|c s (w & Hw & E)].
  - exists "". split; reflexivity.
  - simpl. destruct (is_ws c) eqn:Ec.
    + exists (String c w). split; [unfold blank in *; simpl; now rewrite Ec|].
      simpl. congruence.
    + exists "". split; reflexivity.
Qed.

Lemma skip_ws_empty (s : string) : skip_ws s = "" -> blank s = true.
Proof.
  unfold blank. induction s as [|c s IH]; simpl; [reflexivity|].
  destruct (is_ws c); [exact IH | discriminate].
Qed.

Lemma skip_ws_fixed (c : ascii) (s : string) :
  is_ws c = false -> skip_ws (String c s) = String c s.
Proof. intros H. simpl. now rewrite H. Qed.

Lemma skip_ws_head (s r : string) (c : ascii) :
  skip_ws s = String c r -> is_ws c = false.
Proof.
  induction s as [|x s IH]; simpl; [discriminate|].
  destruct (is_ws x) eqn:E; [exact IH|]. now intros [= <- <-].
Qed.

(** White space and then a mark. *)
Lemma skip_ws_mark (w : string) (c : ascii) (s : string) :
  blank w = true -> is_ws c = false -> skip_ws (w ++ String c s) = String c s.
Proof. intros Hw Hc. now rewrite skip_ws_blank, skip_ws_fixed. Qed.

Lemma blank_delimited (w : string) (c : ascii) (s : string) :
  blank w = true ->
  Ascii.eqb c "," || Ascii.eqb c "]" || Ascii.eqb c "}" = true ->
  delimited (w ++ String c s) = true.
Proof.
  unfold blank. destruct w as [|x w]; simpl.
  - intros _ H.
    destruct (is_ws c), (Ascii.eqb c ","), (Ascii.eqb c "]"), (Ascii.eqb c "}");
      simpl in *; congruence.
  - intros H _. apply andb_prop in H as [-> _]. reflexivity.
Qed.

Lemma blank_end_delimited (w : string) : blank w = true -> delimited w = true.
Proof.
  unfold blank. destruct w as [|x w]; simpl; [reflexivity|].
  intros H. apply andb_prop in H as [-> _]. reflexivity.
Qed.

Lemma skip_ws_delimited (s r : string) (c : ascii) :
  skip_ws s = String c r ->
  Ascii.eqb c "," || Ascii.eqb c "]" || Ascii.eqb c "}" = true ->
  delimited s = true.
Proof.
  intros H Hc. destruct (skip_ws_split s) as (w & Hw & E).
  rewrite E, H. now apply blank_delimited.
Qed.

(** *** Strings *)

Lemma simple_escape_not_u (e x : ascii) :
  simple_escape e = Some x -> Ascii.eqb e "u" = false.
Proof.
  destruct (Ascii.eqb e "u") eqn:E; [|reflexivity].
  apply Ascii.eqb_eq in E. subst e. discriminate.
Qed.

Lemma low_surrogate_Some (s : string) (lo : Z) (r : string) :
  low_surrogate s = Some (lo, r) ->
  exists l1 l2 l3 l4 : ascii,
    s = String backslash (String "u" (String l1 (String l2 (String l3 (String l4 r)))))
    /\ hex4 l1 l2 l3 l4 = Some lo
    /\ (56320 <=? lo) && (lo <=? 57343) = true.
Proof.
  unfold low_surrogate.
  destruct s as [|e [|u [|a [|b [|c [|d r']]]]]]; try discriminate.
  destruct (Ascii.eqb e backslash) eqn:Ee; [|discriminate].
  destruct (Ascii.eqb u "u") eqn:Eu; [|discriminate]. cbn [andb].
  destruct (hex4 a b c d) as [lo'|] eqn:Eh; [|discriminate].
  destruct ((56320 <=? lo') && (lo' <=? 57343)) eqn:Er; [|discriminate].
  intros [= <- <-]. apply Ascii.eqb_eq in Ee, Eu. subst e u.
  exists a, b, c, d. auto.
Qed.

Lemma low_surrogate_pair (l1 l2 l3 l4 : ascii) (lo : Z) (r : string) :
  hex4 l1 l2 l3 l4 = Some lo ->
  (56320 <=? lo) && (lo <=? 57343) = true ->
  low_surrogate
    (String backslash (String "u" (String l1 (String l2 (String l3 (String l4 r))))))
  = Some (lo, r).
Proof.
  intros Hh Hr. unfold low_surrogate.
  change (Ascii.eqb backslash backslash && Ascii.eqb "u" "u") with true.
  cbv iota. now rewrite Hh, Hr.
Qed.

(** The equation of [scanstring] after the escape of a code point. *)
Lemma scanstring_unicode (h1 h2 h3 h4 : ascii) (r2 : string) :
  scanstring
    (String backslash (String "u" (String h1 (String h2 (String h3 (String h4 r2))))))
  = match hex4 h1 h2 h3 h4 with
    | None => None
    | Some hi =>
        if (55296 <=? hi) && (hi <=? 56319) then
          match low_surrogate r2 with
          | Some (lo, r3) =>
              match scanstring r3 with
              | Some (body, rest) =>
                  Some (utf8 (65536 + (hi - 55296) * 1024 + (lo - 56320)) ++ body, rest)
              | None => None
              end
          | None =>
              match scanstring r2 with
              | Some (body, rest) => Some (utf8 hi ++ body, rest)
              | None => None
              end
          end
        else
          match scanstring r2 with
          | Some (body, rest) => Some (utf8 hi ++ body, rest)
          | None => None
          end
    end.
Proof.
  cbn [scanstring].
  change (Ascii.eqb backslash dquote) with false.
  change (Ascii.eqb backslash backslash) with true.
  change (Ascii.eqb "u" "u") with true. cbv iota.
  destruct (hex4 h1 h2 h3 h4) as [hi|]; [|reflexivity].
  destruct ((55296 <=? hi) && (hi <=? 56319)); [|reflexivity].
  destruct (low_surrogate r2) as [[lo r3]|] eqn:El.
  - destruct (low_surrogate_Some _ _ _ El) as (l1 & l2 & l3 & l4 & -> & _ & _).
    reflexivity.
  - destruct r2 as [|b1 [|b2 [|l1 [|l2 [|l3 [|l4 r3]]]]]]; reflexivity.
Qed.

Lemma scanstring_escape (e : ascii) (r1 : string) :
  Ascii.eqb e "u" = false ->
  scanstring (String backslash (String e r1))
  = match simple_escape e with
    | Some x =>
        match scanstring r1 with
        | Some (body, rest) => Some (String x body, rest)
        | None => None
        end
    | None => None
    end.
Proof.
  intros He. cbn [scanstring].
  change (Ascii.eqb backslash dquote) with false.
  change (Ascii.eqb backslash backslash) with true. cbv iota.
  now rewrite He.
Qed.

Lemma scanstring_complete (raw s rest : string) :
  string_text raw s rest -> scanstring raw = Some (s, rest).
Proof.
  induction 1 as [rest | c raw s rest Hq Hb Hc _ IH | e x raw s rest He _ IH
                  | h1 h2 h3 h4 cp raw s rest Hh Hr _ IH
                  | h1 h2 h3 h4 l1 l2 l3 l4 hi lo raw s rest Hh Hr Hl Hlr _ IH
                  | h1 h2 h3 h4 hi raw s rest Hh Hr Hl _ IH].
  - reflexivity.
  - cbn [scanstring]. now rewrite Hq, Hb, Hc, IH.
  - rewrite scanstring_escape by (eapply simple_escape_not_u; eauto).
    now rewrite He, IH.
  - rewrite scanstring_unicode, Hh, Hr. now rewrite IH.
  - rewrite scanstring_unicode, Hh, Hr.
    rewrite (low_surrogate_pair _ _ _ _ _ _ Hl Hlr). now rewrite IH.
  - rewrite scanstring_unicode, Hh, Hr, Hl. now rewrite IH.
Qed.

Lemma scanstring_sound_aux (n : nat) (raw s rest : string) :
  (String.length raw <= n)%nat ->
  scanstring raw = Some (s, rest) -> string_text raw s rest.
Proof.
  revert raw s rest. induction n as [|n IH]; intros raw s rest Hn H.
  - destruct raw; [discriminate | simpl in Hn; lia].
  - destruct raw as [|c r]; [discriminate|].
    destruct (Ascii.eqb c dquote) eqn:Eq.
    { apply Ascii.eqb_eq in Eq. subst c. cbn [scanstring] in H.
      change (Ascii.eqb dquote dquote) with true in H. cbv iota in H.
      injection H as <- <-. constructor. }
    destruct (Ascii.eqb c backslash) eqn:Eb.
    { apply Ascii.eqb_eq in Eb. subst c.
      destruct r as [|e r1]; [discriminate|].
      destruct (Ascii.eqb e "u") eqn:Eu.
      - apply Ascii.eqb_eq in Eu. subst e.
        destruct r1 as [|h1 [|h2 [|h3 [|h4 r2]]]]; try discriminate.
        rewrite scanstring_unicode in H.
        destruct (hex4 h1 h2 h3 h4) as [hi|] eqn:Eh; [|discriminate].
        destruct ((55296 <=? hi) && (hi <=? 56319)) eqn:Er.
        + destruct (low_surrogate r2) as [[lo r3]|] eqn:El.
          * destruct (low_surrogate_Some _ _ _ El) as (l1 & l2 & l3 & l4 & -> & Hl & Hlr).
            destruct (scanstring r3) as [[body rest']|] eqn:E3; [|discriminate].
            injection H as <- <-.
            eapply st_pair; eauto. apply IH; [simpl in *; lia | exact E3].
          * destruct (scanstring r2) as [[body rest']|] eqn:E2; [|discriminate].
            injection H as <- <-.
            eapply st_lone; eauto. apply IH; [simpl in *; lia | exact E2].
        + destruct (scanstring r2) as [[body rest']|] eqn:E2; [|discriminate].
          injection H as <- <-.
          eapply st_unicode; eauto. apply IH; [simpl in *; lia | exact E2].
      - rewrite scanstring_escape in H by exact Eu.
        destruct (simple_escape e) as [x|] eqn:Ee; [|discriminate].
        destruct (scanstring r1) as [[body rest']|] eqn:E1; [|discriminate].
        injection H as <- <-.
        eapply st_escape; eauto. apply IH; [simpl in *; lia | exact E1]. }
    cbn [scanstring] in H. rewrite Eq, Eb in H.
    destruct (PyStr.code c <? 32) eqn:Ec; [discriminate|].
    destruct (scanstring r) as [[body rest']|] eqn:E1; [|discriminate].
    injection H as <- <-.
    apply st_char; auto. apply IH; [simpl in *; lia | exact E1].
Qed.

(** The string scanner accepts the string literals of the grammar and
    nothing else. *)
Lemma scanstring_spec (raw s rest : string) :
  scanstring raw = Some (s, rest) <-> string_text raw s rest.
Proof.
  split.
  - apply (scanstring_sound_aux (String.length raw)). lia.
  - apply scanstring_complete.
Qed.

(** *** Numbers *)

Definition not_starting (p : ascii -> bool) (s : string) : Prop :=
  match s with
  | String c _ => p c = false
  | EmptyString => True
  end.

Lemma span_spec (p : ascii -> bool) (s a b : string) :
  Dec.span p s = (a, b) ->
  s = (a ++ b)%string /\ PyStr.all_chars p a = true /\ not_starting p b.
Proof.
  revert a b. induction s as [|c s IH]; intros a b; simpl.
  - intros [= <- <-]. repeat split.
  - destruct (p c) eqn:Ec.
    + destruct (Dec.span p s) as [a' b'] eqn:E. intros [= <- <-].
      destruct (IH a' b' eq_refl) as (-> & Ha & Hb).
      simpl. rewrite Ec, Ha. repeat split. exact Hb.
    + intros [= <- <-]. repeat split. exact Ec.
Qed.

Lemma span_complete (p : ascii -> bool) (a b : string) :
  PyStr.all_chars p a = true -> not_starting p b -> Dec.span p (a ++ b) = (a, b).
Proof.
  intros Ha Hb. induction a as [|c a IH].
  - destruct b as [|c r]; [reflexivity|]. simpl in *. now rewrite Hb.
  - simpl in Ha. apply andb_prop in Ha as [Hc Ha].
    simpl. now rewrite Hc, (IH Ha).
Qed.

Lemma delimited_start (rest : string) :
  delimited rest = true ->
  not_starting PyStr.is_digit rest
  /\ not_starting (fun c => Ascii.eqb c ".") rest
  /\ not_starting (fun c => Ascii.eqb c "e" || Ascii.eqb c "E") rest.
Proof.
  destruct rest as [|c r]; [repeat split|]. unfold delimited, is_ws. intros H.
  repeat (apply orb_prop in H as [H|H]);
    apply Ascii.eqb_eq in H; subst c; repeat split.
Qed.

Lemma int_part_start (ip s : string) :
  int_part ip ->
  exists (c : ascii) (r : string),
    (ip ++ s)%string = String c r /\ PyStr.is_digit c = true.
Proof.
  intros [|c ds Hc _ _]; simpl; eauto.
Qed.

Lemma digit_marks (c : ascii) :
  PyStr.is_digit c = true ->
  Ascii.eqb c "-" = false /\ Ascii.eqb c "+" = false /\ Ascii.eqb c "." = false
  /\ Ascii.eqb c "e" = false /\ Ascii.eqb c "E" = false.
Proof.
  intros H.
  repeat split;
    match goal with
    | |- Ascii.eqb c ?x = false =>
        destruct (Ascii.eqb c x) eqn:E; [|reflexivity];
        apply Ascii.eqb_eq in E; subst c; discriminate
    end.
Qed.

Lemma scan_sign_spec (s s1 : string) (neg : bool) :
  scan_sign s = (neg, s1) -> s = (minus neg ++ s1)%string.
Proof.
  unfold scan_sign. destruct s as [|c r]; [now intros [= <- <-]|].
  destruct (Ascii.eqb c "-") eqn:E; intros [= <- <-]; [|reflexivity].
  apply Ascii.eqb_eq in E. now subst c.
Qed.

Lemma scan_sign_complete (neg : bool) (s1 : string) :
  not_starting (fun c => Ascii.eqb c "-") s1 ->
  scan_sign (minus neg ++ s1) = (neg, s1).
Proof.
  intros H. destruct neg; [reflexivity|]. unfold scan_sign. cbn [minus append].
  destruct s1 as [|c r]; [reflexivity|]. simpl in H. now rewrite H.
Qed.

Lemma scan_int_part_spec (s ip s2 : string) :
  scan_int_part s = (ip, s2) ->
  s = (ip ++ s2)%string /\ (ip = "" \/ int_part ip).
Proof.
  unfold scan_int_part. destruct s as [|c r]; [intros [= <- <-]; auto|].
  destruct (Ascii.eqb c "0") eqn:E0.
  { apply Ascii.eqb_eq in E0. subst c. intros [= <- <-]. split; [reflexivity|].
    right. constructor. }
  destruct (PyStr.is_digit c) eqn:Ed; [|intros [= <- <-]; auto].
  intros H. destruct (span_spec _ _ _ _ H) as (E & Ha & _). split; [exact E|].
  right. destruct ip as [|c' ds]; simpl in E.
  - subst s2. simpl in H. rewrite Ed in H. destruct (Dec.span _ r). discriminate.
  - injection E as <- _. simpl in Ha. apply andb_prop in Ha as [_ Ha].
    now constructor.
Qed.

Lemma scan_int_part_complete (ip s2 : string) :
  int_part ip -> not_starting PyStr.is_digit s2 ->
  scan_int_part (ip ++ s2) = (ip, s2).
Proof.
  intros [|c ds Hc H0 Hds] Hs; [reflexivity|].
  unfold scan_int_part. cbn [append]. rewrite H0, Hc.
  change (String c (ds ++ s2)) with (String c ds ++ s2)%string.
  apply span_complete; [|exact Hs]. simpl. now rewrite Hc, Hds.
Qed.

Lemma digits1_span (ds : string) :
  ds <> "" -> PyStr.all_chars PyStr.is_digit ds = true -> digits1 ds.
Proof.
  destruct ds as [|c ds]; [congruence|]. simpl. intros _ H.
  apply andb_prop in H as [Hc Hds]. now constructor.
Qed.

Lemma digits1_all (ds : string) :
  digits1 ds -> PyStr.all_chars PyStr.is_digit ds = true.
Proof. intros [c r Hc Hr]. simpl. now rewrite Hc, Hr. Qed.

Lemma scan_fraction_spec (s fr s3 : string) :
  scan_fraction s = (fr, s3) -> s = (fr ++ s3)%string /\ fraction fr.
Proof.
  unfold scan_fraction. destruct s as [|c r]; [intros [= <- <-]; split; constructor|].
  destruct (Ascii.eqb c ".") eqn:E; [|intros [= <- <-]; split; constructor].
  apply Ascii.eqb_eq in E. subst c.
  destruct (Dec.span PyStr.is_digit r) as [fp r'] eqn:Es.
  destruct (span_spec _ _ _ _ Es) as (-> & Ha & _).
  destruct fp as [|d fp]; intros [= <- <-]; split; try constructor.
  now apply digits1_span.
Qed.

Lemma scan_fraction_complete (fr s3 : string) :
  fraction fr ->
  not_starting PyStr.is_digit s3 ->
  not_starting (fun c => Ascii.eqb c ".") s3 ->
  scan_fraction (fr ++ s3) = (fr, s3).
Proof.
  intros [|ds Hds] Hd Hp.
  - unfold scan_fraction. cbn [append]. destruct s3 as [|c r]; [reflexivity|].
    simpl in Hp. now rewrite Hp.
  - unfold scan_fraction. cbn [append].
    change (Ascii.eqb "." ".") with true. cbv iota.
    rewrite span_complete by (auto using digits1_all).
    now destruct Hds.
Qed.

Lemma scan_exponent_spec (s ex s4 : string) :
  scan_exponent s = (ex, s4) -> s = (ex ++ s4)%string /\ exponent ex.
Proof.
  unfold scan_exponent. destruct s as [|c r]; [intros [= <- <-]; split; constructor|].
  destruct (Ascii.eqb c "e" || Ascii.eqb c "E") eqn:E;
    [|intros [= <- <-]; split; constructor].
  assert (Hsign : exists sg r1,
    match r with
    | String x r' =>
        if Ascii.eqb x "-" || Ascii.eqb x "+" then (String x "", r') else ("", r)
    | EmptyString => ("", r)
    end = (sg, r1)
    /\ r = (sg ++ r1)%string /\ (sg = "" \/ sg = "+" \/ sg = "-")).
  { destruct r as [|x r']; [exists "", ""; auto|].
    destruct (Ascii.eqb x "-") eqn:Em.
    { apply Ascii.eqb_eq in Em. subst x. exists "-", r'. auto. }
    destruct (Ascii.eqb x "+") eqn:Ep.
    { apply Ascii.eqb_eq in Ep. subst x. exists "+", r'. auto. }
    exists "", (String x r'). auto. }
  destruct Hsign as (sg & r1 & -> & -> & Hsg).
  destruct (Dec.span PyStr.is_digit r1) as [ds r'] eqn:Es.
  destruct (span_spec _ _ _ _ Es) as (-> & Ha & _).
  destruct ds as [|d ds]; intros [= <- <-]; split; try constructor; auto.
  - cbn [append]. now rewrite append_assoc.
  - now apply digits1_span.
Qed.

Lemma scan_exponent_complete (ex s4 : string) :
  exponent ex ->
  not_starting PyStr.is_digit s4 ->
  not_starting (fun c => Ascii.eqb c "e" || Ascii.eqb c "E") s4 ->
  scan_exponent (ex ++ s4) = (ex, s4).
Proof.
  intros [|c sg ds Hc Hsg Hds] Hd He.
  - unfold scan_exponent. cbn [append]. destruct s4 as [|c r]; [reflexivity|].
    simpl in He. now rewrite He.
  - unfold scan_exponent. cbn [append]. rewrite Hc. rewrite append_assoc.
    destruct Hds as [d ds Hdig Hall].
    destruct (digit_marks d Hdig) as (Hm & Hp & _).
    assert (Hspan : Dec.span PyStr.is_digit (String d ds ++ s4) = (String d ds, s4)).
    { apply span_complete; [simpl; now rewrite Hdig, Hall | exact Hd]. }
    destruct Hsg as [-> | [-> | ->]]; cbn [append].
    + rewrite Hm, Hp. cbn [orb].
      change (String d (ds ++ s4)) with (String d ds ++ s4)%string.
      now rewrite Hspan.
    + change (Ascii.eqb "+" "-" || Ascii.eqb "+" "+") with true. cbv iota.
      change (String d (ds ++ s4)) with (String d ds ++ s4)%string.
      now rewrite Hspan.
    + change (Ascii.eqb "-" "-" || Ascii.eqb "-" "+") with true. cbv iota.
      change (String d (ds ++ s4)) with (String d ds ++ s4)%string.
      now rewrite Hspan.
Qed.

Lemma fraction_start (fr s : string) :
  fraction fr -> fr <> "" ->
  exists r, (fr ++ s)%string = String "." r.
Proof. intros [|ds _] H; [congruence|]. simpl. eauto. Qed.

Lemma exponent_start (ex s : string) :
  exponent ex -> ex <> "" ->
  exists c r, (ex ++ s)%string = String c r
              /\ Ascii.eqb c "e" || Ascii.eqb c "E" = true.
Proof. intros [|c sg ds Hc _ _] H; [congruence|]. simpl. eauto. Qed.

Lemma exponent_mark (c : ascii) :
  Ascii.eqb c "e" || Ascii.eqb c "E" = true ->
  PyStr.is_digit c = false /\ Ascii.eqb c "." = false.
Proof.
  intros H. apply orb_prop in H as [H|H]; apply Ascii.eqb_eq in H; subst c;
    split; reflexivity.
Qed.

Lemma scan_number_complete (s : string) (v : t) (rest : string) :
  number_text s v rest -> scan_number s = inr (v, rest).
Proof.
  intros [neg ip rest' Hip Hlen Hrest | neg ip fr ex rest' Hip Hfr Hex Hne Hrest];
    destruct (delimited_start _ Hrest) as (Hd & Hp & He); unfold scan_number.
  - destruct (int_part_start ip rest' Hip) as (c & r & Ec & Hc).
    rewrite scan_sign_complete
      by (rewrite Ec; simpl; apply (digit_marks c Hc)).
    rewrite scan_int_part_complete by assumption.
    assert (F : scan_fraction rest' = ("", rest'))
      by (apply (scan_fraction_complete "" rest'); auto; constructor).
    assert (X : scan_exponent rest' = ("", rest'))
      by (apply (scan_exponent_complete "" rest'); auto; constructor).
    apply Nat.ltb_ge in Hlen.
    destruct Hip as [|c0 ds H1 H2 H3]; cbv beta iota zeta;
      rewrite F; cbv beta iota zeta; rewrite X; cbv beta iota zeta;
      cbn [append]; now rewrite Hlen.
  - destruct (int_part_start ip ((fr ++ ex) ++ rest') Hip) as (c & r & Ec & Hc).
    rewrite scan_sign_complete
      by (rewrite Ec; simpl; apply (digit_marks c Hc)).
    assert (Hex_rest : not_starting PyStr.is_digit (ex ++ rest')
                       /\ not_starting (fun c => Ascii.eqb c ".") (ex ++ rest')).
    { destruct ex as [|x ex'] eqn:Ex; [now split|]. rewrite <- Ex in *.
      destruct (exponent_start ex rest' Hex) as (c' & r' & -> & Hc');
        [subst; discriminate|].
      simpl. now apply exponent_mark. }
    assert (Htail : not_starting PyStr.is_digit ((fr ++ ex) ++ rest')).
    { rewrite append_assoc. destruct fr as [|x fr'] eqn:Ef; [apply Hex_rest|].
      rewrite <- Ef in *.
      destruct (fraction_start fr (ex ++ rest') Hfr) as (r' & ->);
        [subst; discriminate | reflexivity]. }
    rewrite scan_int_part_complete by assumption.
    assert (F : scan_fraction ((fr ++ ex) ++ rest') = (fr, (ex ++ rest')%string)).
    { rewrite append_assoc. apply scan_fraction_complete; auto; apply Hex_rest. }
    assert (X : scan_exponent (ex ++ rest') = (ex, rest'))
      by (apply scan_exponent_complete; auto).
    destruct Hip as [|c0 ds H1 H2 H3]; cbv beta iota zeta;
      rewrite F; cbv beta iota zeta; rewrite X; cbv beta iota zeta;
      (destruct (fr ++ ex)%string eqn:Et; [congruence | reflexivity]).
Qed.

Lemma append_empty (a b : string) : (a ++ b)%string = "" -> a = "" /\ b = "".
Proof. destruct a; [auto | discriminate]. Qed.

Lemma scan_number_sound (s : string) (v : t) (rest : string) :
  scan_number s = inr (v, rest) -> delimited rest = true -> number_text s v rest.
Proof.
  unfold scan_number. intros H Hrest.
  destruct (scan_sign s) as [neg s1] eqn:E1.
  destruct (scan_int_part s1) as [ip s2] eqn:E2.
  apply scan_sign_spec in E1. apply scan_int_part_spec in E2 as [E2 Hip].
  destruct Hip as [->|Hip]; [discriminate|].
  assert (Hnext :
    (let (frac, s3) := scan_fraction s2 in
     let (ex, s4) := scan_exponent s3 in
     match (frac ++ ex)%string with
     | EmptyString =>
         if (int_max_str_digits <? String.length ip)%nat
         then inl (IntTooLong (String.length ip))
         else inr (JInt (if neg then - Dec.int_of_digits ip else Dec.int_of_digits ip),
                   s4)
     | tail => inr (JFloat ((if neg then "-" else "") ++ ip ++ tail), s4)
     end) = inr (v, rest)).
  { destruct ip; [inversion Hip | exact H]. }
  clear H.
  destruct (scan_fraction s2) as [fr s3] eqn:E3.
  destruct (scan_exponent s3) as [ex s4] eqn:E4.
  apply scan_fraction_spec in E3 as [E3 Hfr].
  apply scan_exponent_spec in E4 as [E4 Hex].
  subst s s1 s2 s3.
  destruct (fr ++ ex)%string as [|x tail] eqn:Et.
  - apply append_empty in Et as [-> ->]. cbn [append].
    destruct (int_max_str_digits <? String.length ip)%nat eqn:El; [discriminate|].
    injection Hnext as <- <-. apply Nat.ltb_ge in El.
    now apply nt_int.
  - injection Hnext as <- <-. rewrite <- Et.
    replace (ip ++ fr ++ ex ++ s4)%string with (ip ++ (fr ++ ex) ++ s4)%string
      by now rewrite append_assoc.
    apply nt_float; auto. rewrite Et. discriminate.
Qed.

(** The number scanner reads the numbers of the grammar and nothing
    else that a delimiter follows. *)
Lemma scan_number_spec (s : string) (v : t) (rest : string) :
  delimited rest = true ->
  scan_number s = inr (v, rest) <-> number_text s v rest.
Proof.
  intros Hrest. split.
  - intros H. now apply scan_number_sound.
  - apply scan_number_complete.
Qed.

(** *** Literals *)

Lemma substring_all (s : string) : substring 0 (String.length s) s = s.
Proof. induction s as [|c s IH]; simpl; congruence. Qed.

Lemma strip_prefix_spec (p s r : string) :
  Dec.strip_prefix p s = Some r -> s = (p ++ r)%string.
Proof.
  unfold Dec.strip_prefix. revert s r.
  induction p as [|c p IH]; intros s r.
  - simpl. destruct s; simpl; intros [= <-]; [reflexivity|].
    now rewrite substring_all.
  - destruct s as [|d s]; simpl; [discriminate|].
    destruct (ascii_dec c d) as [<-|]; [|discriminate].
    intros H. apply IH in H. simpl. congruence.
Qed.

Lemma strip_prefix_complete (p r : string) :
  Dec.strip_prefix p (p ++ r) = Some r.
Proof.
  unfold Dec.strip_prefix. induction p as [|c p IH].
  - simpl. destruct r; simpl; [reflexivity|].
    now rewrite substring_all.
  - simpl. destruct (ascii_dec c c); [exact IH | congruence].
Qed.

Lemma strip_prefix_head (x c : ascii) (p r : string) :
  x <> c -> Dec.strip_prefix (String x p) (String c r) = None.
Proof.
  intros H. unfold Dec.strip_prefix. simpl.
  destruct (ascii_dec x c); [contradiction | reflexivity].
Qed.

Lemma number_start (s : string) (v : t) (rest : string) :
  number_text s v rest ->
  exists (c : ascii) (r : string),
    s = String c r /\ (c = "-"%char \/ PyStr.is_digit c = true).
Proof.
  intros [neg ip rest' Hip _ _ | neg ip fr ex rest' Hip _ _ _ _];
    (destruct neg; cbn [minus append]; [eauto|]);
    match goal with
    | |- context [(ip ++ ?x)%string] =>
        destruct (int_part_start ip x Hip) as (c & r & -> & Hc); eauto
    end.
Qed.

(** The first character of a number is none of the marks that open
    another value. *)
Lemma number_head (c : ascii) :
  c = "-"%char \/ PyStr.is_digit c = true ->
  Ascii.eqb c dquote = false /\ Ascii.eqb c "{" = false /\ Ascii.eqb c "[" = false
  /\ Ascii.eqb c "]" = false /\ is_ws c = false
  /\ c <> "n"%char /\ c <> "t"%char /\ c <> "f"%char.
Proof.
  intros [->|H]; [repeat split; discriminate|].
  repeat split;
    try match goal with
        | |- Ascii.eqb c ?x = false =>
            destruct (Ascii.eqb c x) eqn:E; [|reflexivity];
            apply Ascii.eqb_eq in E; subst c; discriminate
        | |- c <> _ => intros ->; discriminate
        end.
  unfold is_ws.
  destruct (Ascii.eqb c " ") eqn:E1; [apply Ascii.eqb_eq in E1; subst; discriminate|].
  destruct (Ascii.eqb c "009") eqn:E2; [apply Ascii.eqb_eq in E2; subst; discriminate|].
  destruct (Ascii.eqb c "010") eqn:E3; [apply Ascii.eqb_eq in E3; subst; discriminate|].
  destruct (Ascii.eqb c "013") eqn:E4; [apply Ascii.eqb_eq in E4; subst; discriminate|].
  reflexivity.
Qed.

Lemma strip_prefix_cons (c : ascii) (p r : string) :
  Dec.strip_prefix (String c p) (String c r) = Dec.strip_prefix p r.
Proof.
  unfold Dec.strip_prefix. simpl.
  destruct (ascii_dec c c); [reflexivity | congruence].
Qed.

Lemma strip_prefix_nil (r : string) : Dec.strip_prefix "" r = Some r.
Proof. apply (strip_prefix_complete "" r). Qed.

Ltac skip_name := rewrite strip_prefix_head by discriminate; cbv iota.
Ltac take_name := rewrite !strip_prefix_cons, strip_prefix_nil; cbv iota.

Lemma scan_literal_complete (s : string) (v : t) (rest : string) :
  literal_text s v rest \/ number_text s v rest ->
  scan_literal s = inr (v, rest).
Proof.
  intros [[r|r|r|r|r|r] | H]; unfold scan_literal; cbn [append].
  - now take_name.
  - skip_name. now take_name.
  - do 2 skip_name. now take_name.
  - do 3 skip_name.
    change (scan_number (String "N" ?x)) with (@inl failure (t * string) Malformed).
    cbv iota. now take_name.
  - do 3 skip_name.
    change (scan_number (String "I" ?x)) with (@inl failure (t * string) Malformed).
    cbv iota. skip_name. now take_name.
  - do 3 skip_name.
    change (scan_number (String "-" (String "I" ?x)))
      with (@inl failure (t * string) Malformed).
    cbv iota. do 2 skip_name. now take_name.
  - destruct (number_start _ _ _ H) as (c & r & -> & Hc).
    destruct (number_head c Hc) as (_ & _ & _ & _ & _ & Hn & Ht & Hf).
    rewrite !strip_prefix_head by congruence.
    now rewrite (scan_number_complete _ _ _ H).
Qed.

Lemma scan_literal_sound (s : string) (v : t) (rest : string) :
  scan_literal s = inr (v, rest) -> delimited rest = true ->
  literal_text s v rest \/ number_text s v rest.
Proof.
  unfold scan_literal. intros H Hrest.
  destruct (Dec.strip_prefix "null" s) as [r|] eqn:E1.
  { injection H as <- <-. apply strip_prefix_spec in E1 as ->. left. constructor. }
  destruct (Dec.strip_prefix "true" s) as [r|] eqn:E2.
  { injection H as <- <-. apply strip_prefix_spec in E2 as ->. left. constructor. }
  destruct (Dec.strip_prefix "false" s) as [r|] eqn:E3.
  { injection H as <- <-. apply strip_prefix_spec in E3 as ->. left. constructor. }
  destruct (scan_number s) as [f|res] eqn:En.
  2:{ injection H as ->. right. now apply scan_number_sound. }
  assert (Hlit :
    match Dec.strip_prefix "NaN" s with
    | Some r => inr (JFloat "NaN", r)
    | None =>
        match Dec.strip_prefix "Infinity" s with
        | Some r => inr (JFloat "Infinity", r)
        | None =>
            match Dec.strip_prefix "-Infinity" s with
            | Some r => inr (JFloat "-Infinity", r)
            | None => inl Malformed
            end
        end
    end = @inr failure _ (v, rest)).
  { destruct f; try exact H; discriminate. }
  clear H. left.
  destruct (Dec.strip_prefix "NaN" s) as [r|] eqn:E4.
  { injection Hlit as <- <-. apply strip_prefix_spec in E4 as ->. constructor. }
  destruct (Dec.strip_prefix "Infinity" s) as [r|] eqn:E5.
  { injection Hlit as <- <-. apply strip_prefix_spec in E5 as ->. constructor. }
  destruct (Dec.strip_prefix "-Infinity" s) as [r|] eqn:E6; [|discriminate].
  injection Hlit as <- <-. apply strip_prefix_spec in E6 as ->. constructor.
Qed.

(** *** Values *)

Scheme value_text_min := Minimality for value_text Sort Prop
  with elements_text_min := Minimality for elements_text Sort Prop
  with members_text_min := Minimality for members_text Sort Prop.

Combined Scheme json_text_min
  from value_text_min, elements_text_min, members_text_min.

(** A value does not start with white space nor with a closing bracket,
    and a scalar that is not a string starts with none of the opening
    marks. *)
Lemma literal_head (s : string) (v : t) (rest : string) :
  literal_text s v rest ->
  exists (c : ascii) (r : string),
    s = String c r /\ is_ws c = false /\ Ascii.eqb c "]" = false
    /\ Ascii.eqb c dquote = false /\ Ascii.eqb c "{" = false /\ Ascii.eqb c "[" = false.
Proof. intros [r|r|r|r|r|r]; cbn [append]; do 2 eexists; repeat split. Qed.

Lemma value_head (d : nat) (s : string) (v : t) (rest : string) :
  value_text d s v rest ->
  exists (c : ascii) (r : string),
    s = String c r /\ is_ws c = false /\ Ascii.eqb c "]" = false.
Proof.
  intros [depth raw s0 rest0 _ | depth s0 v0 rest0 H | depth s0 v0 rest0 H
          | depth w rest0 _ | depth w s0 pairs rest0 _ _
          | depth w rest0 _ | depth w s0 items rest0 _ _];
    try (do 2 eexists; repeat split; fail).
  - destruct (literal_head _ _ _ H) as (c & r & -> & Hw & Hb & _). eauto.
  - destruct (number_start _ _ _ H) as (c & r & -> & Hc).
    destruct (number_head c Hc) as (_ & _ & _ & Hb & Hw & _). eauto.
Qed.

Lemma elements_head (d : nat) (s : string) (vs : list t) (rest : string) :
  elements_text d s vs rest ->
  exists (c : ascii) (r : string),
    s = String c r /\ is_ws c = false /\ Ascii.eqb c "]" = false.
Proof. intros [? ? ? ? ? H _ | ? ? ? ? ? ? ? ? H _ _ _]; eapply value_head; eauto. Qed.

Lemma members_head (d : nat) (s : string) (kvs : list (string * t)) (rest : string) :
  members_text d s kvs rest -> exists raw : string, s = String dquote raw.
Proof. intros [|]; eauto. Qed.

Lemma scan_once_scalar (fuel d : nat) (c : ascii) (r : string) :
  Ascii.eqb c dquote = false -> Ascii.eqb c "{" = false -> Ascii.eqb c "[" = false ->
  scan_once (S fuel) d (String c r) = scan_literal (String c r).
Proof. intros H1 H2 H3. cbn [scan_once]. now rewrite H1, H2, H3. Qed.

Lemma skip_ws_value (w s : string) (c : ascii) (r : string) :
  blank w = true -> s = String c r -> is_ws c = false ->
  skip_ws (w ++ s) = s.
Proof. intros Hw -> Hc. now apply skip_ws_mark. Qed.

(** Every text of the grammar is scanned to the value it denotes, once
    the fuel suffices. *)
Lemma scan_complete :
  (forall d s v rest, value_text d s v rest ->
     exists f0, forall fuel, (f0 <= fuel)%nat -> scan_once fuel d s = inr (v, rest))
  /\ (forall d s vs rest, elements_text d s vs rest ->
        exists f0, forall fuel, (f0 <= fuel)%nat ->
                   elements fuel d s = inr (vs, rest))
  /\ (forall d s kvs rest, members_text d s kvs rest ->
        exists f0, forall fuel, (f0 <= fuel)%nat ->
                   members fuel d s = inr (kvs, rest)).
Proof.
  apply json_text_min.
  - (* a string *)
    intros d raw s rest H. exists 1%nat. intros [|fuel] Hf; [lia|].
    cbn [scan_once]. change (Ascii.eqb dquote dquote) with true. cbv iota.
    now rewrite (scanstring_complete _ _ _ H).
  - (* a literal *)
    intros d s v rest H. exists 1%nat. intros [|fuel] Hf; [lia|].
    destruct (literal_head _ _ _ H) as (c & r & -> & _ & _ & H1 & H2 & H3).
    rewrite scan_once_scalar by assumption.
    apply scan_literal_complete. now left.
  - (* a number *)
    intros d s v rest H. exists 1%nat. intros [|fuel] Hf; [lia|].
    destruct (number_start _ _ _ H) as (c & r & -> & Hc).
    destruct (number_head c Hc) as (H1 & H2 & H3 & _).
    rewrite scan_once_scalar by assumption.
    apply scan_literal_complete. now right.
  - (* the empty object *)
    intros d w rest Hw. exists 1%nat. intros [|fuel] Hf; [lia|].
    cbn [scan_once]. change (Ascii.eqb "{" dquote) with false.
    change (Ascii.eqb "{" "{") with true. cbv iota.
    now rewrite skip_ws_mark.
  - (* an object *)
    intros d w s pairs rest Hw Hm (f0 & IH). exists (S f0).
    intros [|fuel] Hf; [lia|].
    destruct (members_head _ _ _ _ Hm) as (raw & ->).
    cbn [scan_once]. change (Ascii.eqb "{" dquote) with false.
    change (Ascii.eqb "{" "{") with true. cbv iota.
    rewrite skip_ws_mark by (auto; reflexivity).
    change (Ascii.eqb dquote "}") with false. cbv iota.
    rewrite IH by lia. reflexivity.
  - (* the empty array *)
    intros d w rest Hw. exists 1%nat. intros [|fuel] Hf; [lia|].
    cbn [scan_once]. change (Ascii.eqb "[" dquote) with false.
    change (Ascii.eqb "[" "{") with false.
    change (Ascii.eqb "[" "[") with true. cbv iota.
    now rewrite skip_ws_mark.
  - (* an array *)
    intros d w s items rest Hw He (f0 & IH). exists (S f0).
    intros [|fuel] Hf; [lia|].
    destruct (elements_head _ _ _ _ He) as (c & r & -> & Hc & Hb).
    cbn [scan_once]. change (Ascii.eqb "[" dquote) with false.
    change (Ascii.eqb "[" "{") with false.
    change (Ascii.eqb "[" "[") with true. cbv iota.
    rewrite skip_ws_mark by assumption. rewrite Hb.
    rewrite IH by lia. reflexivity.
  - (* the last element *)
    intros d s v w rest Hv (f0 & IH) Hw. exists (S f0).
    intros [|fuel] Hf; [lia|].
    cbn [elements]. rewrite IH by lia.
    rewrite skip_ws_mark by (auto; reflexivity). reflexivity.
  - (* an element and more *)
    intros d s v w1 w2 s' vs rest Hv (f0 & IH) Hw1 Hw2 He (f1 & IH1).
    exists (S (f0 + f1)). intros [|fuel] Hf; [lia|].
    destruct (elements_head _ _ _ _ He) as (c & r & -> & Hc & _).
    cbn [elements]. rewrite IH by lia.
    rewrite skip_ws_mark by (auto; reflexivity).
    change (Ascii.eqb "," "]") with false. change (Ascii.eqb "," ",") with true.
    cbv iota. rewrite skip_ws_mark by assumption.
    rewrite IH1 by lia. reflexivity.
  - (* the last member *)
    intros d raw key w1 w2 s v w3 rest Hk Hw1 Hw2 Hv (f0 & IH) Hw3.
    exists (S f0). intros [|fuel] Hf; [lia|].
    destruct (value_head _ _ _ _ Hv) as (c & r & -> & Hc & _).
    cbn [members]. change (Ascii.eqb dquote dquote) with true. cbv iota.
    rewrite (scanstring_complete _ _ _ Hk).
    rewrite skip_ws_mark by (auto; reflexivity).
    change (Ascii.eqb ":" ":") with true. cbv iota.
    rewrite skip_ws_mark by assumption.
    rewrite IH by lia. rewrite skip_ws_mark by (auto; reflexivity).
    reflexivity.
  - (* a member and more *)
    intros d raw key w1 w2 s v w3 w4 s' kvs rest Hk Hw1 Hw2 Hv (f0 & IH)
      Hw3 Hw4 Hm (f1 & IH1).
    exists (S (f0 + f1)). intros [|fuel] Hf; [lia|].
    destruct (value_head _ _ _ _ Hv) as (c & r & -> & Hc & _).
    destruct (members_head _ _ _ _ Hm) as (raw' & ->).
    cbn [members]. change (Ascii.eqb dquote dquote) with true. cbv iota.
    rewrite (scanstring_complete _ _ _ Hk).
    rewrite skip_ws_mark by (auto; reflexivity).
    change (Ascii.eqb ":" ":") with true. cbv iota.
    rewrite skip_ws_mark by assumption.
    rewrite IH by lia. rewrite skip_ws_mark by (auto; reflexivity).
    change (Ascii.eqb "," "}") with false. change (Ascii.eqb "," ",") with true.
    cbv iota. rewrite skip_ws_mark by (auto; reflexivity).
    rewrite IH1 by lia. reflexivity.
Qed.

Lemma mark_delimited (s r : string) (c : ascii) :
  skip_ws s = String c r ->
  (if Ascii.eqb c "]" then true else Ascii.eqb c ",") = true
  \/ (if Ascii.eqb c "}" then true else Ascii.eqb c ",") = true ->
  delimited s = true.
Proof.
  intros H Hc. apply (skip_ws_delimited s r c H).
  destruct (Ascii.eqb c ","), (Ascii.eqb c "]"), (Ascii.eqb c "}"), Hc;
    simpl in *; congruence.
Qed.

(** What the scanners return is a text of the grammar. *)
Lemma scan_sound (fuel : nat) :
  (forall d s v rest, scan_once fuel d s = inr (v, rest) -> delimited rest = true ->
                      value_text d s v rest)
  /\ (forall d s vs rest, elements fuel d s = inr (vs, rest) ->
                          elements_text d s vs rest)
  /\ (forall d s kvs rest, members fuel d s = inr (kvs, rest) ->
                           members_text d s kvs rest).
Proof.
  induction fuel as [|fuel (IHv & IHe & IHm)];
    [repeat split; intros; discriminate|].
  split; [|split].
  - intros d s v rest H Hrest. cbn [scan_once] in H.
    destruct s as [|c s1]; [discriminate|].
    destruct (Ascii.eqb c dquote) eqn:Eq.
    { apply Ascii.eqb_eq in Eq. subst c.
      destruct (scanstring s1) as [[str rest']|] eqn:E; [|discriminate].
      injection H as <- <-. apply vt_string. now apply scanstring_spec. }
    destruct (Ascii.eqb c "{") eqn:Eo.
    { apply Ascii.eqb_eq in Eo. subst c.
      destruct d as [|d]; [discriminate|].
      destruct (skip_ws_split s1) as (w & Hw & Es).
      destruct (skip_ws s1) as [|c1 r1] eqn:E; [discriminate|].
      rewrite Es. destruct (Ascii.eqb c1 "}") eqn:Ec.
      - apply Ascii.eqb_eq in Ec. subst c1. injection H as <- <-.
        now apply vt_object_empty.
      - destruct (members fuel d (String c1 r1)) as [f|[pairs rest']] eqn:Em;
          [discriminate|].
        injection H as <- <-. apply vt_object; auto. }
    destruct (Ascii.eqb c "[") eqn:Ea.
    { apply Ascii.eqb_eq in Ea. subst c.
      destruct d as [|d]; [discriminate|].
      destruct (skip_ws_split s1) as (w & Hw & Es).
      destruct (skip_ws s1) as [|c1 r1] eqn:E; [discriminate|].
      rewrite Es. destruct (Ascii.eqb c1 "]") eqn:Ec.
      - apply Ascii.eqb_eq in Ec. subst c1. injection H as <- <-.
        now apply vt_array_empty.
      - destruct (elements fuel d (String c1 r1)) as [f|[items rest']] eqn:Ee;
          [discriminate|].
        injection H as <- <-. apply vt_array; auto. }
    destruct (scan_literal_sound _ _ _ H Hrest) as [Hl|Hn];
      [now apply vt_literal | now apply vt_number].
  - intros d s vs rest H. cbn [elements] in H.
    destruct (scan_once fuel d s) as [f|[v rest1]] eqn:E; [discriminate|].
    destruct (skip_ws_split rest1) as (w & Hw & Es).
    destruct (skip_ws rest1) as [|c r] eqn:E1; [discriminate|].
    assert (Hd : delimited rest1 = true).
    { apply (mark_delimited rest1 r c E1). left.
      destruct (Ascii.eqb c "]"); [reflexivity|].
      destruct (Ascii.eqb c ","); [reflexivity | discriminate]. }
    apply IHv in E; [|exact Hd]. rewrite Es in E.
    destruct (Ascii.eqb c "]") eqn:Ec.
    + apply Ascii.eqb_eq in Ec. subst c. injection H as <- <-.
      eapply et_last; eauto.
    + destruct (Ascii.eqb c ",") eqn:Ec'; [|discriminate].
      apply Ascii.eqb_eq in Ec'. subst c.
      destruct (skip_ws_split r) as (w2 & Hw2 & Es2).
      destruct (elements fuel d (skip_ws r)) as [f|[vs' rest']] eqn:E2; [discriminate|].
      injection H as <- <-. rewrite Es2 in E.
      eapply et_more; eauto.
  - intros d s kvs rest H. cbn [members] in H.
    destruct s as [|q s1]; [discriminate|].
    destruct (Ascii.eqb q dquote) eqn:Eq; [|discriminate].
    apply Ascii.eqb_eq in Eq. subst q.
    destruct (scanstring s1) as [[key rest0]|] eqn:E; [|discriminate].
    apply scanstring_spec in E.
    destruct (skip_ws_split rest0) as (w1 & Hw1 & Es1).
    destruct (skip_ws rest0) as [|c r1] eqn:E1; [discriminate|].
    destruct (Ascii.eqb c ":") eqn:Ec; [|discriminate].
    apply Ascii.eqb_eq in Ec. subst c.
    destruct (skip_ws_split r1) as (w2 & Hw2 & Es2).
    rewrite Es1, Es2 in E.
    destruct (scan_once fuel d (skip_ws r1)) as [f|[v rest1]] eqn:E2; [discriminate|].
    destruct (skip_ws_split rest1) as (w3 & Hw3 & Es3).
    destruct (skip_ws rest1) as [|c2 r2] eqn:E3; [discriminate|].
    assert (Hd : delimited rest1 = true).
    { apply (mark_delimited rest1 r2 c2 E3). right.
      destruct (Ascii.eqb c2 "}"); [reflexivity|].
      destruct (Ascii.eqb c2 ","); [reflexivity | discriminate]. }
    apply IHv in E2; [|exact Hd]. rewrite Es3 in E2.
    destruct (Ascii.eqb c2 "}") eqn:Ec2.
    + apply Ascii.eqb_eq in Ec2. subst c2. injection H as <- <-.
      eapply mt_last; eauto.
    + destruct (Ascii.eqb c2 ",") eqn:Ec3; [|discriminate].
      apply Ascii.eqb_eq in Ec3. subst c2.
      destruct (skip_ws_split r2) as (w4 & Hw4 & Es4).
      destruct (members fuel d (skip_ws r2)) as [f|[kvs' rest2]] eqn:E4; [discriminate|].
      injection H as <- <-. rewrite Es4 in E2.
      eapply mt_more; eauto.
Qed.

(** [json.loads] returns a value exactly for the JSON texts that stay
    within the limits of the interpreter, and returns the value the text
    denotes. *)
Theorem loads_spec (depth : nat) (s : string) (v : t) :
  loads depth s = inr v <-> json_text depth s v.
Proof.
  unfold loads, json_text. split.
  - intros H.
    destruct (scan_once _ depth (skip_ws s)) as [f|[v' rest]] eqn:E; [discriminate|].
    destruct (skip_ws rest) eqn:Er; [|discriminate]. injection H as ->.
    apply skip_ws_empty in Er.
    destruct (skip_ws_split s) as (w1 & Hw1 & Es).
    exists w1, (skip_ws s), rest. repeat split; auto.
    eapply (proj1 (scan_sound _)); eauto. now apply blank_end_delimited.
  - intros (w1 & body & w2 & -> & Hw1 & Hv & Hw2).
    destruct (value_head _ _ _ _ Hv) as (c & r & Eb & Hc & _).
    destruct (proj1 scan_complete _ _ _ _ Hv) as (f0 & Hf).
    rewrite <- (loads_fuel_enough _ (f0 + (2 * String.length (w1 ++ body) + 2))) by lia.
    rewrite (skip_ws_value w1 body c r) by assumption.
    rewrite Hf by lia.
    rewrite <- (append_nil_r w2). rewrite skip_ws_blank by exact Hw2. reflexivity.
Qed.





End JsonFacts.

(** ** The body of a success response *)






(** An error status with such bodies: the [ValueError] of the long
    integer is caught like a decode error, the [RecursionError] is not. *)
Example error_status_beyond_limits :
  snd (_request (demo_client (answer 400 (String "1" (Dec.zeros 4300))))
         1 demo_depth "POST" ORDER_PATH None true (World [] []))
  = Raise (BinanceAPIError 400 (Json.JInt 400) (Json.JStr (String "1" (Dec.zeros 4300))))
  /\ snd (_request (demo_client (answer 400 "[[[]]]"))
            1 2%nat "POST" ORDER_PATH None true (World [] []))
     = Raise (RecursionError
                ("maximum recursion depth exceeded while decoding a JSON array "
                 ++ "from a unicode string")).
Proof. split; vm_compute; reflexivity. Qed.

(** Texts of the grammar: white space, escapes, a number with an
    exponent, and a repeated key. *)
Example json_text_examples (depth : nat) :
  Json.loads (S (S depth)) (Json.q " { 'a' : [1, -2.5e3, true, null], 'bé' : 'x\n' } ")
  = inr (Json.JObj [("a", Json.JArr [Json.JInt 1; Json.JFloat "-2.5e3";
                                      Json.JBool true; Json.JNull]);
                    (String "b" (String "195" (String "169" "")), Json.JStr (String "x" (String "010" "")))])
  /\ Json.loads (S depth) (Json.q "{'k': 1, 'j': 2, 'k': 3}")
     = inr (Json.JObj [("k", Json.JInt 3); ("j", Json.JInt 2)])
  /\ Json.loads depth "01" = inl Json.Malformed
  /\ Json.loads depth (Json.q "'a") = inl Json.Malformed
  /\ Json.loads (S depth) "[1,]" = inl Json.Malformed.
Proof. repeat split; vm_compute; reflexivity. Qed.

(** ** Digests are few, texts are many *)

(** Among [n + 1] numbers below [n] two are equal. *)
Lemma pigeonhole (n : nat) (f : nat -> nat) :
  (forall i, (i <= n)%nat -> (f i < n)%nat) ->
  exists i j, (i < j)%nat /\ (j <= n)%nat /\ f i = f j.
Proof.
  revert f. induction n as [|n IH]; intros f Hf.
  - specialize (Hf 0%nat ltac:(lia)). lia.
  - assert (Hsearch : forall m, (m <= S n)%nat ->
              (exists i, (i < m)%nat /\ f i = f (S n))
              \/ (forall i, (i < m)%nat -> f i <> f (S n))).
    { induction m as [|m IHm]; intros Hm.
      - right. intros i Hi. lia.
      - destruct (IHm ltac:(lia)) as [(i & Hi & E)|Hno].
        + left. exists i. split; [lia | exact E].
        + destruct (Nat.eq_dec (f m) (f (S n))) as [E|Hne].
          * left. exists m. split; [lia | exact E].
          * right. intros i Hi. destruct (Nat.eq_dec i m) as [->|]; [exact Hne|].
            apply Hno. lia. }
    destruct (Hsearch (S n) ltac:(lia)) as [(i & Hi & E)|Hno].
    { exists i, (S n). repeat split; [lia | lia | exact E]. }
    pose (g := fun i => if (f i <? f (S n))%nat then f i else pred (f i)).
    assert (Hg : forall i, (i <= n)%nat -> (g i < n)%nat).
    { intros i Hi. unfold g. pose proof (Hf i ltac:(lia)).
      pose proof (Hf (S n) ltac:(lia)). pose proof (Hno i ltac:(lia)).
      destruct (f i <? f (S n))%nat eqn:El;
        [apply Nat.ltb_lt in El | apply Nat.ltb_ge in El]; lia. }
    destruct (IH g Hg) as (i & j & Hij & Hj & E).
    exists i, j. repeat split; [lia | lia |].
    pose proof (Hno i ltac:(lia)). pose proof (Hno j ltac:(lia)).
    unfold g in E.
    destruct (f i <? f (S n))%nat eqn:Ei;
      [apply Nat.ltb_lt in Ei | apply Nat.ltb_ge in Ei];
      (destruct (f j <? f (S n))%nat eqn:Ej;
       [apply Nat.ltb_lt in Ej | apply Nat.ltb_ge in Ej]); lia.
Qed.

Lemma pigeonhole_Z (bound : Z) (f : Z -> Z) :
  0 <= bound ->
  (forall i, 0 <= i <= bound -> 0 <= f i < bound) ->
  exists i j, 0 <= i < j /\ j <= bound /\ f i = f j.
Proof.
  intros Hb Hf.
  destruct (pigeonhole (Z.to_nat bound) (fun k => Z.to_nat (f (Z.of_nat k))))
    as (i & j & Hij & Hj & E).
  { intros i Hi. specialize (Hf (Z.of_nat i) ltac:(lia)). lia. }
  exists (Z.of_nat i), (Z.of_nat j). repeat split; try lia.
  pose proof (Hf (Z.of_nat i) ltac:(lia)). pose proof (Hf (Z.of_nat j) ltac:(lia)).
  lia.
Qed.

Lemma byte_to_Z_bound (b : byte) : 0 <= PyStr.byte_to_Z b < 256.
Proof.
  unfold PyStr.byte_to_Z. pose proof (Byte.to_N_bounded b). lia.
Qed.

Lemma big_endian_acc (bs : list byte) (acc : Z) :
  fold_left (fun a b => 256 * a + PyStr.byte_to_Z b) bs acc
  = acc * 256 ^ Z.of_nat (length bs) + big_endian bs.
Proof.
  unfold big_endian. revert acc. induction bs as [|b bs IH]; intros acc.
  - simpl. lia.
  - cbn [fold_left]. rewrite IH, (IH (256 * 0 + PyStr.byte_to_Z b)).
    cbn [length]. rewrite Nat2Z.inj_succ, Z.pow_succ_r by lia. lia.
Qed.

Lemma big_endian_bound (bs : list byte) :
  0 <= big_endian bs < 256 ^ Z.of_nat (length bs).
Proof.
  induction bs as [|b bs IH]; [cbn; lia|].
  unfold big_endian. cbn [fold_left]. rewrite big_endian_acc.
  cbn [length]. rewrite Nat2Z.inj_succ, Z.pow_succ_r by lia.
  pose proof (byte_to_Z_bound b). nia.
Qed.

Lemma byte_to_Z_injective (a b : byte) :
  PyStr.byte_to_Z a = PyStr.byte_to_Z b -> a = b.
Proof.
  unfold PyStr.byte_to_Z. intros H. apply N2Z.inj in H.
  apply (f_equal Byte.of_N) in H. rewrite !Byte.of_to_N in H. congruence.
Qed.

Lemma big_endian_injective (xs ys : list byte) :
  length xs = length ys -> big_endian xs = big_endian ys -> xs = ys.
Proof.
  revert ys. induction xs as [|x xs IH]; intros [|y ys] Hl H;
    try discriminate; [reflexivity|].
  injection Hl as Hl. unfold big_endian in H. cbn [fold_left] in H.
  rewrite !big_endian_acc, <- Hl in H.
  pose proof (big_endian_bound xs). pose proof (big_endian_bound ys).
  rewrite <- Hl in *.
  pose proof (byte_to_Z_bound x). pose proof (byte_to_Z_bound y).
  assert (Hxy : PyStr.byte_to_Z x = PyStr.byte_to_Z y) by nia.
  apply byte_to_Z_injective in Hxy. subst y. f_equal. apply IH; [exact Hl | nia].
Qed.

(** HMAC-SHA256 has 2^256 digests: of 2^256 + 1 messages two share
    one. *)
Lemma hmac_collision (key : list byte) (msg : Z -> list byte) :
  exists i j, 0 <= i < j /\ j <= 2 ^ 256
              /\ Sha256.hmac_sha256 key (msg i) = Sha256.hmac_sha256 key (msg j).
Proof.
  destruct (pigeonhole_Z (2 ^ 256)
              (fun i => big_endian (Sha256.hmac_sha256 key (msg i))))
    as (i & j & Hij & Hj & E).
  - apply Z.pow_nonneg. lia.
  - intros i _. pose proof (big_endian_bound (Sha256.hmac_sha256 key (msg i))) as H.
    rewrite Sha256Facts.hmac_length in H.
    change (256 ^ Z.of_nat 32) with (2 ^ 256) in H. exact H.
  - exists i, j. repeat split; try lia.
    apply big_endian_injective; [|exact E].
    now rewrite !Sha256Facts.hmac_length.
Qed.

Lemma str_of_int_injective (i j : Z) :
  0 <= i -> 0 <= j -> PyStr.str_of_int i = PyStr.str_of_int j -> i = j.
Proof.
  intros Hi Hj. unfold PyStr.str_of_int.
  destruct (i <? 0) eqn:Ei; [apply Z.ltb_lt in Ei; lia|].
  destruct (j <? 0) eqn:Ej; [apply Z.ltb_lt in Ej; lia|].
  intros E. apply (f_equal Dec.int_of_digits) in E.
  now rewrite !DecFacts.int_of_str_of_nonneg in E by assumption.
Qed.

(** ** Determinism and sensitivity of the signature *)

(** C5, the inputs on which the claim as stated fails.  The signer
    overwrites recvWindow, so two dicts that differ only in its value get
    the same signature; the query string holds [str(value)], so the
    integer 5 and the string "5" get the same signature; a second
    invocation on the dict that the first one has signed finds the
    signature among the items and leaves another one; and among the
    quantities 0 to 2^256 there are two with different texts that get the
    same signature, the digest having 256 bits. *)
Lemma value_change_keeps_signature :
  let client := demo_client (answer 200 "{}") in
  let sig (d : pydict) := signature_after client 1 0%nat (World [d] []) in
  (VInt 1000 <> VInt 60000
   /\ sig [("symbol", VStr "BTCUSDT"); ("recvWindow", VInt 1000)]
      = sig [("symbol", VStr "BTCUSDT"); ("recvWindow", VInt 60000)])
  /\ (VInt 5 <> VStr "5" /\ sig (with_quantity (VInt 5)) = sig (with_quantity (VStr "5")))
  /\ (let w1 := fst (_sign client 1 0%nat (World [with_quantity (VInt 5)] [])) in
      signature_after client 1 0%nat w1 <> sig (with_quantity (VInt 5)))
  /\ (exists i j : Z,
        0 <= i < j /\ j <= 2 ^ 256
        /\ py_str (VInt i) <> py_str (VInt j)
        /\ sig (with_quantity (VInt i)) = sig (with_quantity (VInt j))).
Proof.
  intros client sig.
  split; [|split; [|split]].
  - split; [discriminate|]. unfold sig.
    erewrite !signature_after_run by reflexivity. reflexivity.
  - split; [discriminate|]. unfold sig.
    erewrite !signature_after_run by reflexivity. reflexivity.
  - unfold sig. vm_compute. discriminate.
  - destruct (hmac_collision (PyStr.encode (api_secret client))
                (fun i => PyStr.encode
                            (Url.urlencode (with_window 1 (with_quantity (VInt i))))))
      as (i & j & Hij & Hj & E).
    exists i, j. split; [exact Hij|]. split; [exact Hj|]. split.
    + cbn [py_str]. intros H. apply str_of_int_injective in H; lia.
    + unfold sig. erewrite !signature_after_run by reflexivity.
      unfold signature_of, Sha256.hmac_sha256_hex. now rewrite E.
Qed.

(** C5, amended.  Signing is deterministic: any two runs with the same
    secret and clock reading on dicts with the same items leave the same
    signature, the HMAC-SHA256 of the query string of those items.
    Changing the value of one parameter whose key is neither recvWindow
    nor timestamp to a value with another text changes the query string
    that is signed, and it changes the signature exactly when HMAC-SHA256
    gives the two query strings different digests. *)
Theorem sign_deterministic_and_sensitive (self : BinanceClient) (now : Z)
    (pre post : pydict) (k : string) (v v' : pyval)
    (w w' : world) (r r' : ref) :
  k <> "recvWindow" -> k <> "timestamp" ->
  py_str v <> py_str v' ->
  heap w !! r = Some (pre ++ (k, v) :: post)%list ->
  heap w' !! r' = Some (pre ++ (k, v') :: post)%list ->
  let q := Url.urlencode (with_window now (pre ++ (k, v) :: post)%list) in
  let q' := Url.urlencode (with_window now (pre ++ (k, v') :: post)%list) in
  let key := PyStr.encode (api_secret self) in
  (forall (w2 : world) (r2 : ref),
      heap w2 !! r2 = Some (pre ++ (k, v) :: post)%list ->
      signature_after self now r2 w2 = signature_after self now r w)
  /\ signature_after self now r w = Some (VStr (Sha256.hmac_sha256_hex key (PyStr.encode q)))
  /\ signature_after self now r' w' = Some (VStr (Sha256.hmac_sha256_hex key (PyStr.encode q')))
  /\ PyStr.encode q <> PyStr.encode q'
  /\ (signature_after self now r w <> signature_after self now r' w'
      <-> Sha256.hmac_sha256 key (PyStr.encode q)
          <> Sha256.hmac_sha256 key (PyStr.encode q')).
Proof.
  intros Hk1 Hk2 Hv Hw Hw' q q' key.
  rewrite (signature_after_run self now r w _ Hw).
  rewrite (signature_after_run self now r' w' _ Hw').
  fold q q'. unfold signature_of. fold key.
  split; [|split; [reflexivity|split; [reflexivity|split]]].
  - intros w2 r2 H2. now rewrite (signature_after_run self now r2 w2 _ H2).
  - intros E. apply encode_injective in E. revert E. subst q q'.
    destruct (with_window_around now pre post k Hk1 Hk2) as (pre2 & post2 & Ha).
    rewrite !Ha. now apply UrlFacts.urlencode_sensitive.
  - unfold Sha256.hmac_sha256_hex. split.
    + intros Hne E. apply Hne. now rewrite E.
    + intros Hne E. apply Hne. injection E as E.
      now apply Sha256Facts.hex_injective.
Qed.

Lemma sign_deterministic_and_sensitive_witness :
  signature_after (demo_client (answer 200 "{}")) 1 0%nat
    (World [with_quantity (VStr "1")] [])
  <> signature_after (demo_client (answer 200 "{}")) 1 0%nat
       (World [with_quantity (VStr "2")] []).
Proof.
  assert (H1 : "quantity" <> "recvWindow") by discriminate.
  assert (H2 : "quantity" <> "timestamp") by discriminate.
  assert (H3 : py_str (VStr "1") <> py_str (VStr "2")) by discriminate.
  assert (Hd : Sha256.hmac_sha256 (PyStr.encode demo_secret)
                 (PyStr.encode
                    (Url.urlencode (with_window 1 (with_quantity (VStr "1")))))
               <> Sha256.hmac_sha256 (PyStr.encode demo_secret)
                    (PyStr.encode
                       (Url.urlencode (with_window 1 (with_quantity (VStr "2"))))))
    by (vm_compute; discriminate).
  exact (proj2 (proj2 (proj2 (proj2 (proj2
    (sign_deterministic_and_sensitive (demo_client (answer 200 "{}")) 1
       [("symbol", VStr "BTCUSDT")] [] "quantity" (VStr "1") (VStr "2")
       (World [with_quantity (VStr "1")] [])
       (World [with_quantity (VStr "2")] [])
       0%nat 0%nat H1 H2 H3 eq_refl eq_refl))))) Hd).
Defined.

(* ===================================================================== *)
(** * Further properties *)

(** ** Character classes *)

Module CharFacts.
Import PyStr.

(** Proves a statement about every character by trying all 256. *)
Ltac each_char c :=
  destruct c as [b0 b1 b2 b3 b4 b5 b6 b7];
  destruct b0, b1, b2, b3, b4, b5, b6, b7; vm_compute;
  repeat split; intros; try reflexivity; try discriminate; try congruence.

Lemma upper_char_idem (c : ascii) : upper_char (upper_char c) = upper_char c.
Proof. each_char c. Qed.

Lemma upper_char_space (c : ascii) : is_space (upper_char c) = is_space c.
Proof. each_char c. Qed.

Lemma alpha_upper_char (c : ascii) :
  is_alpha (upper_char c) = true -> is_upper (upper_char c) = true.
Proof. each_char c. Qed.

Lemma upper_char_fixed (c : ascii) : is_upper c = true -> upper_char c = c.
Proof. each_char c. Qed.

Lemma upper_is_alpha (c : ascii) : is_upper c = true -> is_alpha c = true.
Proof. unfold is_alpha. now intros ->. Qed.

Lemma upper_not_space (c : ascii) : is_upper c = true -> is_space c = false.
Proof. each_char c. Qed.

Lemma all_chars_and (p : ascii -> bool) (c : ascii) (s : string) :
  all_chars p (String c s) = true <-> p c = true /\ all_chars p s = true.
Proof. cbn [all_chars]. apply andb_true_iff. Qed.

Lemma all_chars_weaken (p q : ascii -> bool) (s : string) :
  (forall c, p c = true -> q c = true) ->
  all_chars p s = true -> all_chars q s = true.
Proof.
  intros Hpq. induction s as [|c s IH]; [reflexivity|].
  rewrite !all_chars_and. intros [H1 H2]. auto.
Qed.

Lemma upper_idem (s : string) : upper (upper s) = upper s.
Proof.
  unfold upper. induction s as [|c s IH]; [reflexivity|].
  cbn [map_chars]. now rewrite upper_char_idem, IH.
Qed.

Lemma upper_fixed (s : string) : all_chars is_upper s = true -> upper s = s.
Proof.
  unfold upper. induction s as [|c s IH]; [reflexivity|].
  rewrite all_chars_and. intros [H1 H2]. cbn [map_chars].
  now rewrite (upper_char_fixed c H1), (IH H2).
Qed.

Lemma upper_length (s : string) : String.length (upper s) = String.length s.
Proof.
  unfold upper. induction s as [|c s IH]; [reflexivity|].
  cbn [map_chars String.length]. now rewrite IH.
Qed.

Lemma alpha_upper_all (s : string) :
  all_chars is_alpha (upper s) = true -> all_chars is_upper (upper s) = true.
Proof.
  unfold upper. induction s as [|c s IH]; [reflexivity|].
  cbn [map_chars]. rewrite !all_chars_and. intros [H1 H2].
  split; [now apply alpha_upper_char | auto].
Qed.

Lemma lstrip_upper (s : string) : lstrip (upper s) = upper (lstrip s).
Proof.
  unfold upper. induction s as [|c s IH]; [reflexivity|].
  cbn [map_chars lstrip]. rewrite upper_char_space.
  destruct (is_space c); [exact IH | reflexivity].
Qed.

Lemma rstrip_upper (s : string) : rstrip (upper s) = upper (rstrip s).
Proof.
  unfold upper. induction s as [|c s IH]; [reflexivity|].
  cbn [map_chars rstrip]. rewrite IH, upper_char_space.
  destruct (rstrip s) as [|d r]; cbn [map_chars].
  - destruct (is_space c); reflexivity.
  - reflexivity.
Qed.

(** Stripping and upper-casing commute. *)
Lemma strip_upper (s : string) : strip (upper s) = upper (strip s).
Proof. unfold strip. now rewrite lstrip_upper, rstrip_upper. Qed.

Lemma rstrip_no_space (s : string) :
  all_chars (fun c => negb (is_space c)) s = true -> rstrip s = s.
Proof.
  induction s as [|c s IH]; [reflexivity|].
  rewrite all_chars_and. intros [H1 H2]. cbn [rstrip]. rewrite (IH H2).
  apply negb_true_iff in H1. rewrite H1. destruct s; reflexivity.
Qed.

(** Text without whitespace is its own stripped form. *)
Lemma strip_no_space (s : string) :
  all_chars (fun c => negb (is_space c)) s = true -> strip s = s.
Proof.
  intros H. unfold strip.
  assert (E : lstrip s = s).
  { destruct s as [|c s]; [reflexivity|]. apply all_chars_and in H as [H1 _].
    apply negb_true_iff in H1. cbn [lstrip]. now rewrite H1. }
  rewrite E. now apply rstrip_no_space.
Qed.

Lemma strip_upper_letters (s : string) :
  all_chars is_upper s = true -> strip s = s.
Proof.
  intros H. apply strip_no_space. revert H. apply all_chars_weaken.
  intros c Hc. now rewrite (upper_not_space c Hc).
Qed.

End CharFacts.

(** ** The validators of text fields *)

(** X1.  A symbol that [validate_symbol] accepts (from ASCII input) is
    the stripped, upper-cased input, consists of at least five upper-case
    letters and of nothing else, and is accepted again unchanged. *)
Theorem validate_symbol_canonical (s t : string) :
  PyStr.all_chars is_ascii s = true ->
  validate_symbol s = Return t ->
  t = PyStr.upper (PyStr.strip s)
  /\ PyStr.all_chars PyStr.is_upper t = true
  /\ 5 <= PyStr.len t
  /\ validate_symbol t = Return t.
Proof.
  intros _. unfold validate_symbol.
  destruct (String.eqb (PyStr.upper (PyStr.strip s)) "" ||
            negb (PyStr.isalpha (PyStr.upper (PyStr.strip s)))) eqn:E1; [discriminate|].
  destruct (PyStr.len (PyStr.upper (PyStr.strip s)) <? 5) eqn:E2; [discriminate|].
  intros [= <-].
  set (t := PyStr.upper (PyStr.strip s)) in *.
  apply orb_false_iff in E1 as [E0 E1]. apply negb_false_iff in E1.
  assert (Hup : PyStr.all_chars PyStr.is_upper t = true).
  { subst t. apply CharFacts.alpha_upper_all.
    unfold PyStr.isalpha in E1. now destruct (PyStr.upper (PyStr.strip s)). }
  apply Z.ltb_ge in E2.
  repeat split; auto.
  rewrite (CharFacts.strip_upper_letters t Hup), (CharFacts.upper_fixed t Hup).
  now rewrite E0, E1, (proj2 (Z.ltb_ge _ _) E2).
Qed.

Lemma validate_symbol_canonical_witness :
  validate_symbol "BTCUSDT" = Return "BTCUSDT".
Proof.
  exact (proj2 (proj2 (proj2
    (validate_symbol_canonical " btcusdt " "BTCUSDT" eq_refl eq_refl)))).
Defined.

(** X2.  On ASCII input [validate_side] and [validate_order_type] return
    one of the listed tokens and accept that token again unchanged; they
    and [validate_symbol] do not look at the case of the input. *)
Theorem side_and_type_canonical (s t : string) :
  PyStr.all_chars is_ascii s = true ->
  (validate_side s = Return t ->
     In t ["BUY"; "SELL"] /\ validate_side t = Return t)
  /\ (validate_order_type s = Return t ->
        In t ["MARKET"; "LIMIT"; "STOP"; "STOP_MARKET"; "TAKE_PROFIT";
              "TAKE_PROFIT_MARKET"]
        /\ validate_order_type t = Return t)
  /\ validate_side (PyStr.upper s) = validate_side s
  /\ validate_order_type (PyStr.upper s) = validate_order_type s
  /\ validate_symbol (PyStr.upper s) = validate_symbol s.
Proof.
  intros _. split; [|split; [|split; [|split]]].
  - unfold validate_side.
    destruct (member (PyStr.upper (PyStr.strip s)) VALID_SIDES) eqn:E; [|discriminate].
    cbn [negb]. intros [= <-]. apply member_In in E. split; [exact E|].
    destruct E as [<-|[<-|[]]]; reflexivity.
  - unfold validate_order_type.
    destruct (member (PyStr.upper (PyStr.strip s)) VALID_ORDER_TYPES) eqn:E; [|discriminate].
    cbn [negb]. intros [= <-]. apply member_In in E. split; [exact E|].
    destruct E as [<-|[<-|[<-|[<-|[<-|[<-|[]]]]]]]; reflexivity.
  - unfold validate_side.
    now rewrite CharFacts.strip_upper, CharFacts.upper_idem.
  - unfold validate_order_type.
    now rewrite CharFacts.strip_upper, CharFacts.upper_idem.
  - unfold validate_symbol.
    now rewrite CharFacts.strip_upper, CharFacts.upper_idem.
Qed.

Lemma side_and_type_canonical_witness :
  In "SELL" ["BUY"; "SELL"] /\ validate_side "SELL" = Return "SELL".
Proof.
  exact (proj1 (side_and_type_canonical " sell" "SELL" eq_refl) eq_refl).
Defined.

(** ** The validators of numbers *)

Lemma decimal_not_le_zero_positive (d : Dec.t) :
  decimal_le_zero d = Return false <-> positive d.
Proof.
  unfold decimal_le_zero, positive, Dec.le_zero.
  destruct d as [[|] c e|[|]|sg s p]; cbn [orb]; try (split; [discriminate|tauto]).
  - destruct (c =? 0)%N eqn:E.
    + apply N.eqb_eq in E. split; [discriminate | congruence].
    + apply N.eqb_neq in E. split; [auto | reflexivity].
  - split; [auto | reflexivity].
Qed.

(** What [validate_quantity] returns is positive. *)
Lemma validate_quantity_positive (q : string) (d : Dec.t) :
  validate_quantity q = Return d -> positive d.
Proof.
  unfold validate_quantity. destruct (Dec.of_string q) as [d0|]; [|discriminate].
  destruct (decimal_le_zero d0) as [[|]|] eqn:E; cbn [rbind]; try discriminate.
  intros [= <-]. now apply decimal_not_le_zero_positive.
Qed.

(** A price that is given and accepted is positive. *)
Lemma given_price_positive (raw order_type : string) (d : Dec.t) :
  validate_price (Some raw) order_type = Return (Some d)
  \/ validate_stop_price (Some raw) order_type = Return (Some d) ->
  positive d.
Proof.
  unfold validate_price, validate_stop_price.
  destruct (Dec.of_string raw) as [d0|]; [|intros [|]; discriminate].
  destruct (decimal_le_zero d0) as [[|]|e] eqn:E; cbn [rbind];
    intros [H|H]; try discriminate; injection H as <-;
    now apply decimal_not_le_zero_positive.
Qed.

(** X3.  A price or stop price that is given is judged like a quantity,
    whatever the order type: it is accepted exactly when the same text is
    accepted as a quantity, with the same decimal, and it raises
    [InvalidOperation] exactly when the quantity does. *)
Theorem given_price_judged_like_quantity (raw order_type : string) :
  (forall d, validate_price (Some raw) order_type = Return (Some d)
             <-> validate_quantity raw = Return d)
  /\ (forall d, validate_stop_price (Some raw) order_type = Return (Some d)
                <-> validate_quantity raw = Return d)
  /\ validate_price (Some raw) order_type <> Return None
  /\ validate_stop_price (Some raw) order_type <> Return None
  /\ (validate_price (Some raw) order_type = Raise InvalidOperation
      <-> validate_quantity raw = Raise InvalidOperation)
  /\ (validate_stop_price (Some raw) order_type = Raise InvalidOperation
      <-> validate_quantity raw = Raise InvalidOperation).
Proof.
  unfold validate_price, validate_stop_price, validate_quantity.
  destruct (Dec.of_string raw) as [d0|].
  - destruct (decimal_le_zero d0) as [[|]|e]; cbn [rbind];
      repeat split; intros; try discriminate; try congruence.
  - repeat split; intros; try discriminate; congruence.
Qed.

(** X4.  An order that leaves the validators has a side and a type from
    the lists, a positive quantity, positive prices where it has prices,
    and the prices its type requires: never a NaN, a zero or a negative
    number. *)
Theorem validated_order_invariant (r : raw_order) (o : order) :
  validate_order r = Return o ->
  In (o_side o) VALID_SIDES
  /\ In (o_type o) VALID_ORDER_TYPES
  /\ positive (o_quantity o)
  /\ (forall p, o_price o = Some p -> positive p)
  /\ (forall p, o_stop_price o = Some p -> positive p)
  /\ (In (o_type o) PRICE_REQUIRED_TYPES -> o_price o <> None)
  /\ (In (o_type o) STOP_REQUIRED_TYPES -> o_stop_price o <> None).
Proof.
  intros H. pose proof (validate_order_fields r o H) as [Hp Hs].
  destruct (validate_price_presence _ _ _ Hp) as [_ Hp2].
  destruct (validate_stop_price_presence _ _ _ Hs) as [_ Hs2].
  unfold validate_order in H.
  destruct (validate_symbol (r_symbol r)) as [sym|]; [|discriminate].
  destruct (validate_side (r_side r)) as [side|] eqn:Eside; [|discriminate].
  destruct (validate_order_type (r_type r)) as [ot|] eqn:Etype; [|discriminate].
  destruct (validate_quantity (r_quantity r)) as [qty|] eqn:Eq; [|discriminate].
  cbn [rbind] in H.
  destruct (validate_price (r_price r) ot) as [p|] eqn:Ep; [|discriminate].
  destruct (validate_stop_price (r_stop_price r) ot) as [sp|] eqn:Esp; [|discriminate].
  cbn [rbind] in H. injection H as <-.
  cbn [o_side o_type o_quantity o_price o_stop_price] in *.
  assert (Hside : In side VALID_SIDES).
  { unfold validate_side in Eside.
    destruct (member _ VALID_SIDES) eqn:E; [|discriminate].
    injection Eside as <-. now apply member_In. }
  assert (Htype : In ot VALID_ORDER_TYPES).
  { unfold validate_order_type in Etype.
    destruct (member _ VALID_ORDER_TYPES) eqn:E; [|discriminate].
    injection Etype as <-. now apply member_In. }
  repeat split; auto.
  - now apply validate_quantity_positive in Eq.
  - intros d ->. destruct (r_price r) as [raw|].
    + eapply given_price_positive; eauto.
    + unfold validate_price in Ep.
      destruct (member ot PRICE_REQUIRED_TYPES); discriminate.
  - intros d ->. destruct (r_stop_price r) as [raw|].
    + eapply given_price_positive; eauto.
    + unfold validate_stop_price in Esp.
      destruct (member ot STOP_REQUIRED_TYPES); discriminate.
Qed.

Lemma validated_order_invariant_witness :
  positive (Dec.Finite false 1 (-2)).
Proof.
  assert (Hv : validate_order
                 (RawOrder "btcusdt" "buy" "limit" "0.01" (Some "50000") None)
               = Return (Order "BTCUSDT" "BUY" "LIMIT" (Dec.Finite false 1 (-2))
                           (Some (Dec.Finite false 50000 0)) None))
    by (vm_compute; reflexivity).
  exact (proj1 (proj2 (proj2 (validated_order_invariant _ _ Hv)))).
Defined.

(** ** The order command *)

(** The validators raise [ValueError] or, from a comparison with a NaN,
    [InvalidOperation], and nothing else. *)
Lemma validate_symbol_raises (s : string) (e : exn) :
  validate_symbol s = Raise e -> is_ValueError e = true.
Proof.
  unfold validate_symbol.
  destruct (_ || _); [now intros [= <-]|].
  destruct (_ <? _); [now intros [= <-] | discriminate].
Qed.

Lemma validate_side_raises (s : string) (e : exn) :
  validate_side s = Raise e -> is_ValueError e = true.
Proof.
  unfold validate_side. destruct (negb _); [now intros [= <-] | discriminate].
Qed.

Lemma validate_order_type_raises (s : string) (e : exn) :
  validate_order_type s = Raise e -> is_ValueError e = true.
Proof.
  unfold validate_order_type. destruct (negb _); [now intros [= <-] | discriminate].
Qed.

Lemma validate_quantity_raises (q : string) (e : exn) :
  validate_quantity q = Raise e -> is_ValueError e = true \/ e = InvalidOperation.
Proof.
  unfold validate_quantity, decimal_le_zero.
  destruct (Dec.of_string q) as [d|]; [|intros [= <-]; now left].
  destruct (Dec.le_zero d) as [[]|[|]]; cbn [rbind]; intros H;
    try discriminate; injection H as <-; auto.
Qed.

Lemma validate_price_raises (p : option string) (order_type : string) (e : exn) :
  validate_price p order_type = Raise e ->
  is_ValueError e = true \/ e = InvalidOperation.
Proof.
  unfold validate_price, decimal_le_zero. destruct p as [raw|].
  - destruct (Dec.of_string raw) as [d|]; [|intros [= <-]; now left].
    destruct (Dec.le_zero d) as [[]|[|]]; cbn [rbind]; intros H;
      try discriminate; injection H as <-; auto.
  - destruct (member _ _); [intros [= <-]; now left | discriminate].
Qed.

Lemma validate_stop_price_raises (p : option string) (order_type : string) (e : exn) :
  validate_stop_price p order_type = Raise e ->
  is_ValueError e = true \/ e = InvalidOperation.
Proof.
  unfold validate_stop_price, decimal_le_zero. destruct p as [raw|].
  - destruct (Dec.of_string raw) as [d|]; [|intros [= <-]; now left].
    destruct (Dec.le_zero d) as [[]|[|]]; cbn [rbind]; intros H;
      try discriminate; injection H as <-; auto.
  - destruct (member _ _); [intros [= <-]; now left | discriminate].
Qed.

Lemma validate_order_raises (r : raw_order) (e : exn) :
  validate_order r = Raise e -> is_ValueError e = true \/ e = InvalidOperation.
Proof.
  unfold validate_order. intros H.
  destruct (validate_symbol (r_symbol r)) as [sym|e1] eqn:E1; cbn [rbind] in H.
  2:{ injection H as <-. left. eapply validate_symbol_raises; eauto. }
  destruct (validate_side (r_side r)) as [side|e2] eqn:E2; cbn [rbind] in H.
  2:{ injection H as <-. left. eapply validate_side_raises; eauto. }
  destruct (validate_order_type (r_type r)) as [ot|e3] eqn:E3; cbn [rbind] in H.
  2:{ injection H as <-. left. eapply validate_order_type_raises; eauto. }
  destruct (validate_quantity (r_quantity r)) as [qty|e4] eqn:E4; cbn [rbind] in H.
  2:{ injection H as <-. eapply validate_quantity_raises; eauto. }
  destruct (validate_price (r_price r) ot) as [p|e5] eqn:E5; cbn [rbind] in H.
  2:{ injection H as <-. eapply validate_price_raises; eauto. }
  destruct (validate_stop_price (r_stop_price r) ot) as [sp|e6] eqn:E6; cbn [rbind] in H.
  2:{ injection H as <-. eapply validate_stop_price_raises; eauto. }
  discriminate.
Qed.

Lemma no_call_without_valid_order_run (env : string -> option string)
    (net : session) (now : Z) (depth : nat) (r : raw_order) (w : world) :
  (exists e, validate_order r = Raise e)
  \/ (exists e, BinanceClient_init env net None None BASE_URL = Raise e) ->
  fst (_execute_order env net now depth r w) = w.
Proof.
  intros H. unfold _execute_order.
  destruct (validate_order r) as [o|e] eqn:Ev.
  - destruct H as [[e He]|[e He]]; [discriminate|].
    unfold bind, lift. now rewrite He.
  - destruct (is_ValueError e); reflexivity.
Qed.

(** X5.  [_execute_order] touches neither the network nor the heap when
    the validators refuse the order, or when the credentials are
    missing: the world is left as it was. *)
Theorem no_call_without_valid_order (env : string -> option string)
    (net : session) (now : Z) (depth : nat) (r : raw_order) (w : world) :
  (exists e, validate_order r = Raise e)
  \/ (exists e, BinanceClient_init env net None None BASE_URL = Raise e) ->
  fst (_execute_order env net now depth r w) = w.
Proof. apply no_call_without_valid_order_run. Qed.

Lemma no_call_without_valid_order_witness :
  fst (_execute_order demo_env (answer 200 "{}") 1 demo_depth
         (RawOrder "btc" "BUY" "MARKET" "1" None None) (World [] []))
  = World [] [].
Proof.
  apply no_call_without_valid_order. left. eexists. reflexivity.
Defined.

(** X6.  The only exception that leaves [_execute_order] is the
    [InvalidOperation] of a NaN among the numbers, raised by the
    validators before anything is sent; every other failure, the
    exchange's and the network's included, ends in a report. *)
Theorem execute_order_escapes_only_nan (env : string -> option string)
    (net : session) (now : Z) (depth : nat) (r : raw_order) (w : world) (e : exn) :
  snd (_execute_order env net now depth r w) = Raise e ->
  e = InvalidOperation
  /\ validate_order r = Raise InvalidOperation
  /\ fst (_execute_order env net now depth r w) = w.
Proof.
  unfold _execute_order.
  destruct (validate_order r) as [o|e0] eqn:Ev.
  - destruct ((let! client := lift (BinanceClient_init env net None None BASE_URL) in
               place_order client now depth o "GTC")%io w) as [w' [resp|e1]];
      cbn [snd]; discriminate.
  - destruct (is_ValueError e0) eqn:Ee; cbn [snd fst ret raise]; [discriminate|].
    intros [= <-]. destruct (validate_order_raises r e0 Ev) as [H|H]; [congruence|].
    subst. auto.
Qed.

Lemma execute_order_escapes_only_nan_witness :
  validate_order (RawOrder "BTCUSDT" "BUY" "MARKET" "nan" None None)
  = Raise InvalidOperation.
Proof.
  exact (proj1 (proj2 (execute_order_escapes_only_nan demo_env (answer 200 "{}") 1
                         demo_depth
                         (RawOrder "BTCUSDT" "BUY" "MARKET" "nan" None None)
                         (World [] []) InvalidOperation eq_refl))).
Defined.

(** ** The outcomes of a gateway call *)


(** The [try] block of the error branch raises what the decoder raises
    or the [AttributeError] of [body.get]. *)
Lemma api_code_and_msg_raises (depth : nat) (resp : response) (e : exn) :
  api_code_and_msg depth resp = Raise e ->
  (exists f, Json.loads depth (text resp) = inl f /\ e = decode_error f)
  \/ (exists v, Json.loads depth (text resp) = inr v
                /\ (forall fields, v <> Json.JObj fields)
                /\ e = AttributeError
                         ("'" ++ type_name v ++ "' object has no attribute 'get'")).
Proof.
  unfold api_code_and_msg, resp_json.
  destruct (Json.loads depth (text resp)) as [f|v]; cbn [rbind].
  - intros [= <-]. left. eauto.
  - intros H. right. exists v. split; [reflexivity|].
    destruct v; cbn [py_get rbind] in H; try (injection H as <-; split;
      [intros fields; discriminate | reflexivity]).
    discriminate.
Qed.



(** X8.  Where the outcomes of a gateway call come from.  The call puts
    exactly one request on the wire.  It returns a value only for an
    answer with a status below 400 whose body is a JSON text of that
    value; it raises [BinanceAPIError] only for an answer with a status of
    400 or more, and with that status; it raises [ConnectionError] and
    [TimeoutError] only when the transport failed in that way. *)
Theorem request_outcome_sources (self : BinanceClient) (now : Z) (depth : nat)
    (method path : string) (params : option ref) (signed : bool) (w : world) :
  let req := sent_request self now method path signed (caller_items w params) in
  let out := snd (_request self now depth method path params signed w) in
  wire (fst (_request self now depth method path params signed w))
  = (wire w ++ [req])%list
  /\ (forall v, out = Return v ->
        exists resp, _session self req = Responded resp
                     /\ status_code resp < 400
                     /\ Json.json_text depth (text resp) v)
  /\ (forall status c m, out = Raise (BinanceAPIError status c m) ->
        exists resp, _session self req = Responded resp
                     /\ 400 <= status_code resp /\ status = status_code resp)
  /\ (forall msg, out = Raise (ConnectionError msg) ->
        exists exc, _session self req = ConnectionFailed exc
                    /\ msg = ("Cannot reach " ++ (base_url self ++ path) ++ ": " ++ exc)%string)
  /\ (forall msg, out = Raise (TimeoutError msg) ->
        exists exc, _session self req = TimedOut exc).
Proof.
  intros req out. subst out. rewrite _request_run. cbn [fst snd wire].
  fold req. split; [reflexivity|].
  unfold respond. destruct (_session self req) as [exc|exc|resp].
  - repeat split; intros; try discriminate. injection H as <-. eauto.
  - repeat split; intros; try discriminate. eauto.
  - destruct (400 <=? status_code resp) eqn:E;
      [apply Z.leb_le in E | apply Z.leb_gt in E].
    + assert (Hraise : forall e,
        match api_code_and_msg depth resp with
        | Return (c, m) => Raise (BinanceAPIError (status_code resp) c m)
        | Raise e0 =>
            if is_ValueError e0
            then Raise (BinanceAPIError (status_code resp)
                          (Json.JInt (status_code resp)) (Json.JStr (text resp)))
            else Raise e0
        end = @Raise Json.t e ->
        (exists c m, e = BinanceAPIError (status_code resp) c m)
        \/ (exists msg, e = AttributeError msg)
        \/ (exists msg, e = RecursionError msg)).
      { intros e H. destruct (api_code_and_msg depth resp) as [[c m]|e0] eqn:Ea.
        - injection H as <-. left. eauto.
        - destruct (api_code_and_msg_raises _ _ _ Ea) as [(f & _ & ->)|(v & _ & _ & ->)].
          + destruct f; cbn [decode_error is_ValueError] in H; injection H as <-; eauto.
          + cbn [is_ValueError] in H. injection H as <-. eauto. }
      repeat split.
      * intros v H. destruct (api_code_and_msg depth resp) as [[c m]|e0];
          [discriminate|]. destruct (is_ValueError e0); discriminate.
      * intros status c m H. exists resp. split; [reflexivity|]. split; [exact E|].
        destruct (Hraise _ H) as [(c' & m' & [= -> _ _])|[(msg & [=])|(msg & [=])]].
        reflexivity.
      * intros msg H.
        destruct (Hraise _ H) as [(c' & m' & [=])|[(msg' & [=])|(msg' & [=])]].
      * intros msg H.
        destruct (Hraise _ H) as [(c' & m' & [=])|[(msg' & [=])|(msg' & [=])]].
    + unfold resp_json. repeat split.
      * intros v H. exists resp. split; [reflexivity|]. split; [exact E|].
        apply JsonFacts.loads_spec.
        destruct (Json.loads depth (text resp)); [discriminate | congruence].
      * intros status c m H. destruct (Json.loads depth (text resp)) as [[| |]|];
          discriminate.
      * intros msg H. destruct (Json.loads depth (text resp)) as [[| |]|];
          discriminate.
      * intros msg H. destruct (Json.loads depth (text resp)) as [[| |]|];
          discriminate.
Qed.

(** ** The calls of the client *)

(** A call that creates its parameter dict and passes it on: the dict
    and the gateway's copy are added to the heap and one request goes on
    the wire. *)
Lemma get_fresh_params_run (self : BinanceClient) (now : Z) (depth : nat)
    (path : string) (d : pydict) (signed : bool) (w : world) :
  (let! params := alloc d in get self now depth path (Some params) signed)%io w
  = (World (heap w ++ [d; sent_items self now signed d])
       (wire w ++ [sent_request self now "GET" path signed d]),
     respond depth (base_url self ++ path)
       (_session self (sent_request self now "GET" path signed d))).
Proof.
  unfold get. unfold bind at 1. unfold alloc at 1. rewrite _request_run.
  unfold caller_items. cbn [heap wire]. rewrite lookup_snoc.
  cbn [default from_option id]. now rewrite <- app_assoc.
Qed.

Lemma ticker_price_wire (self : BinanceClient) (now : Z) (depth : nat)
    (symbol : string) (w : world) :
  wire (fst (ticker_price self now depth symbol w))
  = (wire w ++ [WireRequest "GET" (base_url self ++ "/fapi/v1/ticker/price")
                  [("symbol", VStr symbol)] 15])%list.
Proof. unfold ticker_price. now rewrite get_fresh_params_run. Qed.

(** X9.  The public calls send their parameters unsigned: the ticker
    call exactly the symbol, the exchange-information call the symbol
    when one is given and is not empty and nothing otherwise, the
    server-time call nothing.  The account call sends the three fields of
    the signer and nothing else. *)
Theorem public_calls_are_unsigned (self : BinanceClient) (now : Z) (depth : nat)
    (w : world) :
  (forall symbol,
     wire (fst (ticker_price self now depth symbol w))
     = (wire w ++ [WireRequest "GET" (base_url self ++ "/fapi/v1/ticker/price")
                     [("symbol", VStr symbol)] 15])%list)
  /\ (forall symbol,
        symbol <> "" ->
        wire (fst (exchange_info self now depth (Some symbol) w))
        = (wire w ++ [WireRequest "GET" (base_url self ++ "/fapi/v1/exchangeInfo")
                        [("symbol", VStr symbol)] 15])%list)
  /\ (forall symbol,
        symbol = None \/ symbol = Some "" ->
        wire (fst (exchange_info self now depth symbol w))
        = (wire w ++ [WireRequest "GET" (base_url self ++ "/fapi/v1/exchangeInfo")
                        [] 15])%list)
  /\ wire (fst (server_time self now depth w))
     = (wire w ++ [WireRequest "GET" (base_url self ++ "/fapi/v1/time") [] 15])%list
  /\ (exists req,
        wire (fst (account_info self now depth w)) = (wire w ++ [req])%list
        /\ w_method req = "GET"
        /\ w_url req = (base_url self ++ "/fapi/v2/account")%string
        /\ Dict.keys (w_params req) = ["recvWindow"; "timestamp"; "signature"]
        /\ Dict.get (w_params req) "recvWindow" = Some (VInt 5000)
        /\ Dict.get (w_params req) "timestamp" = Some (VInt now)).
Proof.
  split; [|split; [|split; [|split]]].
  - intros symbol. apply ticker_price_wire.
  - intros [|c r] H; [congruence|]. unfold exchange_info.
    now rewrite get_fresh_params_run.
  - intros symbol [->| ->]; unfold exchange_info; now rewrite get_fresh_params_run.
  - unfold server_time, get. unfold bind. rewrite _request_run.
    destruct (respond _ _ _); reflexivity.
  - unfold account_info, get. rewrite _request_run. cbn [fst wire].
    eexists. split; [reflexivity|]. repeat split.
Qed.

(** [place_order] after the call of the gateway. *)
Lemma place_order_outcome_run (client : BinanceClient) (now : Z) (depth : nat)
    (o : order) (tif : string) (w : world) :
  let req := WireRequest "POST" (base_url client ++ ORDER_PATH)
               (signed_params (api_secret client) now (order_params o tif)) 15 in
  snd (place_order client now depth o tif w)
  = (let! response := respond depth (base_url client ++ ORDER_PATH)
                        (_session client req) in
     let! _ := py_get response "orderId" Json.JNull in
     Return response)%result.
Proof.
  intros req. unfold place_order, post.
  unfold bind at 1. unfold alloc at 1.
  unfold bind at 1. rewrite _request_run.
  unfold sent_request, sent_items, caller_items. cbn [heap wire].
  rewrite lookup_snoc. cbn [default from_option id]. fold req.
  destruct (respond depth (base_url client ++ ORDER_PATH) (_session client req))
    as [resp|e]; [|reflexivity].
  unfold bind, lift, ret. cbn [rbind].
  destruct (py_get resp "orderId" Json.JNull); reflexivity.
Qed.

(** X10.  [place_order] sends one signed POST to the order path.  It
    returns the answer of the exchange exactly when that answer has a
    status below 400 and a JSON object as its body; a success answer
    whose body is JSON of another kind makes it raise [AttributeError]
    after the order has been sent. *)
Theorem place_order_outcome (client : BinanceClient) (now : Z) (depth : nat)
    (o : order) (tif : string) (w : world) :
  let req := WireRequest "POST" (base_url client ++ ORDER_PATH)
               (signed_params (api_secret client) now (order_params o tif)) 15 in
  let out := snd (place_order client now depth o tif w) in
  wire (fst (place_order client now depth o tif w)) = (wire w ++ [req])%list
  /\ (forall v, out = Return v <->
        exists resp fields,
          _session client req = Responded resp /\ status_code resp < 400
          /\ Json.json_text depth (text resp) v /\ v = Json.JObj fields)
  /\ (forall resp v,
        _session client req = Responded resp -> status_code resp < 400 ->
        Json.json_text depth (text resp) v ->
        (forall fields, v <> Json.JObj fields) ->
        out = Raise (AttributeError
                       ("'" ++ type_name v ++ "' object has no attribute 'get'"))).
Proof.
  intros req out. subst out.
  split.
  { destruct (place_order_run client now depth o tif w) as (out & E).
    rewrite E. reflexivity. }
  rewrite place_order_outcome_run. fold req.
  assert (Hok : forall resp, _session client req = Responded resp ->
                  status_code resp < 400 ->
                  respond depth (base_url client ++ ORDER_PATH) (_session client req)
                  = resp_json depth resp).
  { intros resp -> Hlt. unfold respond.
    destruct (400 <=? status_code resp) eqn:E; [apply Z.leb_le in E; lia | reflexivity]. }
  split.
  - intros v. split.
    + intros H. unfold respond in H.
      destruct (_session client req) as [exc|exc|resp] eqn:Es; try discriminate.
      destruct (400 <=? status_code resp) eqn:E.
      { destruct (api_code_and_msg depth resp) as [[c m]|e]; [discriminate|].
        destruct (is_ValueError e); discriminate. }
      apply Z.leb_gt in E. unfold resp_json in H.
      destruct (Json.loads depth (text resp)) as [f|v0] eqn:El; [discriminate|].
      cbn [rbind] in H. apply JsonFacts.loads_spec in El.
      destruct v0; cbn [py_get rbind] in H; try discriminate.
      injection H as <-. eauto 10.
    + intros (resp & fields & Hs & Hlt & Ht & ->).
      rewrite (Hok resp Hs Hlt). unfold resp_json.
      apply JsonFacts.loads_spec in Ht. now rewrite Ht.
  - intros resp v Hs Hlt Ht Hno. rewrite (Hok resp Hs Hlt). unfold resp_json.
    apply JsonFacts.loads_spec in Ht. rewrite Ht. cbn [rbind].
    destruct v; try reflexivity. now destruct (Hno fields).
Qed.

(** ** The client object *)

Lemma rstrip_char_spec (x : ascii) (s : string) :
  exists t : string,
    s = (rstrip_char x s ++ t)%string
    /\ PyStr.all_chars (fun c => Ascii.eqb c x) t = true
    /\ ends_with_char x (rstrip_char x s) = false.
Proof.
  induction s as [|c r (t & E & Ht & He)].
  - exists "". repeat split.
  - cbn [rstrip_char]. destruct (rstrip_char x r) as [|d r'] eqn:Er.
    + destruct (Ascii.eqb c x) eqn:Ec.
      * exists (String c t). cbn [append] in *. subst r. repeat split.
        cbn [PyStr.all_chars]. now rewrite Ec, Ht.
      * exists t. cbn [append] in *. subst r. repeat split; auto.
    + exists t. cbn [append] in *. rewrite <- E. repeat split; auto.
Qed.

(** X11.  The client is created exactly when both credentials are not
    empty, an argument that is given and not empty taking the place of
    the environment variable; without them the constructor raises
    [ValueError] and no session exists.  The client's base URL is the
    given URL without the slashes at its end, the session is the one of
    the network, and the key goes into the header of every request. *)
Theorem client_init_postconditions (env : string -> option string) (net : session)
    (key secret : option string) (url : string) :
  let k := str_or key (getenv env "BINANCE_TESTNET_API_KEY") in
  let s := str_or secret (getenv env "BINANCE_TESTNET_API_SECRET") in
  (forall given, key = Some given -> given <> "" -> k = given)
  /\ (key = None \/ key = Some "" -> k = getenv env "BINANCE_TESTNET_API_KEY")
  /\ (k = "" \/ s = "" ->
      exists msg, BinanceClient_init env net key secret url = Raise (ValueError msg))
  /\ (k <> "" -> s <> "" ->
      exists client,
        BinanceClient_init env net key secret url = Return client
        /\ api_key client = k /\ api_secret client = s
        /\ _session client = net
        /\ In ("X-MBX-APIKEY", k) (headers client)
        /\ ends_with_char "/" (base_url client) = false
        /\ exists slashes,
             url = (base_url client ++ slashes)%string
             /\ PyStr.all_chars (fun c => Ascii.eqb c "/") slashes = true).
Proof.
  intros k s. split; [|split; [|split]].
  - intros given -> H. subst k. destruct given; [congruence | reflexivity].
  - intros [->| ->]; reflexivity.
  - intros H. unfold BinanceClient_init. fold k s.
    destruct (String.eqb k "" || String.eqb s "") eqn:E; [eauto|].
    apply orb_false_elim in E as [Ek Es].
    apply String.eqb_neq in Ek, Es. destruct H; contradiction.
  - intros Hk Hs. unfold BinanceClient_init. fold k s.
    apply String.eqb_neq in Hk, Hs. rewrite Hk, Hs. cbn [orb].
    eexists. split; [reflexivity|]. cbn [api_key api_secret _session headers base_url].
    destruct (rstrip_char_spec "/" url) as (t & E & Ht & He).
    repeat split; auto; [now left | eauto].
Qed.

Lemma client_init_postconditions_witness :
  exists msg,
    BinanceClient_init (fun _ => None) (answer 200 "{}") (Some "key") None BASE_URL
    = Raise (ValueError msg).
Proof.
  apply (proj1 (proj2 (proj2
    (client_init_postconditions (fun _ => None) (answer 200 "{}") (Some "key") None
       BASE_URL)))).
  right. reflexivity.
Defined.

(** ** The interactive order *)

Lemma no_space_upper (s : string) :
  PyStr.all_chars (fun c => negb (PyStr.is_space c)) (PyStr.upper s)
  = PyStr.all_chars (fun c => negb (PyStr.is_space c)) s.
Proof.
  unfold PyStr.upper. induction s as [|c s IH]; [reflexivity|].
  cbn [PyStr.map_chars PyStr.all_chars]. now rewrite CharFacts.upper_char_space, IH.
Qed.

(** A text whose upper-case form is one of the order types has no white
    space to strip. *)
Lemma order_type_token_strip (t : string) :
  In (PyStr.upper t) VALID_ORDER_TYPES -> PyStr.strip t = t.
Proof.
  intros H. apply CharFacts.strip_no_space. rewrite <- no_space_upper.
  destruct H as [<-|[<-|[<-|[<-|[<-|[<-|[]]]]]]]; reflexivity.
Qed.

Lemma validate_order_type_of (r : raw_order) (o : order) :
  validate_order r = Return o -> o_type o = PyStr.upper (PyStr.strip (r_type r)).
Proof.
  unfold validate_order.
  destruct (validate_symbol (r_symbol r)) as [sym|]; [|discriminate].
  destruct (validate_side (r_side r)) as [side|]; [|discriminate].
  destruct (validate_order_type (r_type r)) as [ot|] eqn:Et; [|discriminate].
  destruct (validate_quantity (r_quantity r)) as [qty|]; [|discriminate].
  cbn [rbind].
  destruct (validate_price (r_price r) ot) as [p|]; [|discriminate].
  destruct (validate_stop_price (r_stop_price r) ot) as [sp|]; [|discriminate].
  cbn [rbind]. intros [= <-]. cbn [o_type].
  unfold validate_order_type in Et. destruct (negb _); [discriminate|].
  now injection Et as <-.
Qed.

Lemma order_params_type (o : order) (tif : string) :
  Dict.get (order_params o tif) "type" = Some (VStr (o_type o)).
Proof.
  unfold order_params.
  destruct (o_price o), (o_stop_price o), (member (o_type o) TIF_REQUIRED_TYPES);
    reflexivity.
Qed.

Lemma signed_params_get_other (secret : string) (now : Z) (d : pydict) (k : string) :
  k <> "recvWindow" -> k <> "timestamp" -> k <> "signature" ->
  Dict.get (signed_params secret now d) k = Dict.get d k.
Proof.
  intros H1 H2 H3. unfold signed_params.
  rewrite dict_get_set_ne by congruence.
  now apply with_window_get_other.
Qed.

Lemma snoc_inv {A : Type} (l : list A) (x y : A) :
  (l ++ [x] = l ++ [y])%list -> x = y.
Proof. intros H. apply app_inv_head in H. now injection H. Qed.

Lemma snoc_not_nil {A : Type} (l : list A) (x : A) : l <> (l ++ [x])%list.
Proof.
  intros H. apply (f_equal (@length A)) in H.
  rewrite length_app in H. simpl in H. lia.
Qed.

(** X12.  On the interactive path the price fields are determined by
    the order type, as the specification has it: in every order request
    that [_interactive_order] sends, [price] is present exactly when the
    type on the wire is LIMIT, STOP or TAKE_PROFIT, and [stopPrice]
    exactly when it is STOP, STOP_MARKET, TAKE_PROFIT or
    TAKE_PROFIT_MARKET.  (The prompts ask for a price only for those
    types, and the validators insist on it for them.) *)
Theorem interactive_order_price_by_type (env : string -> option string)
    (net : session) (now : Z) (depth : nat) (a : order_answers) (w : world)
    (req : wire_request) :
  wire (fst (_interactive_order env net now depth a w)) = (wire w ++ [req])%list ->
  exists t,
    Dict.get (w_params req) "type" = Some (VStr t)
    /\ (Dict.mem (w_params req) "price" = true <-> In t PRICE_REQUIRED_TYPES)
    /\ (Dict.mem (w_params req) "stopPrice" = true <-> In t STOP_REQUIRED_TYPES).
Proof.
  unfold _interactive_order.
  set (r := RawOrder _ _ _ _ _ _).
  destruct (a_confirm a); [|intros H; now apply snoc_not_nil in H].
  unfold bind at 1.
  assert (Hfst : forall x : world * result report,
            fst (let (w', res) := x in
                 match res with
                 | Return v => ret (Some v) w'
                 | Raise e => (w', Raise e)
                 end) = fst x).
  { intros [w' [v|e]]; reflexivity. }
  rewrite Hfst. clear Hfst.
  destruct (validate_order r) as [o|e] eqn:Ev.
  2:{ rewrite (no_call_without_valid_order_run env net now depth r w)
        by (left; eauto).
      intros H. now apply snoc_not_nil in H. }
  destruct (BinanceClient_init env net None None BASE_URL) as [client|e] eqn:Ec.
  2:{ rewrite (no_call_without_valid_order_run env net now depth r w)
        by (right; eauto).
      intros H. now apply snoc_not_nil in H. }
  rewrite (execute_order_wire env net now depth r o client w Ev Ec).
  intros H. apply snoc_inv in H. subst req. cbn [w_params].
  exists (o_type o).
  rewrite signed_params_get_other by discriminate.
  rewrite !signed_params_mem_other by discriminate.
  destruct (order_params_price_keys o "GTC") as [-> ->].
  split; [apply order_params_type|].
  destruct (validate_order_fields r o Ev) as [Hp Hs].
  destruct (validate_price_presence _ _ _ Hp) as [Hp1 Hp2].
  destruct (validate_stop_price_presence _ _ _ Hs) as [Hs1 Hs2].
  pose proof (validate_order_type_of r o Ev) as Ht.
  subst r. cbn [r_type r_price r_stop_price] in *.
  assert (Hsome : forall x : option Dec.t, is_some x = true <-> x <> None)
    by (intros [x|]; simpl; split; congruence).
  rewrite !Hsome, Hp1, Hs1.
  split; (split; [|tauto]).
  - destruct (member (PyStr.upper (a_type a)) ["LIMIT"; "STOP"; "TAKE_PROFIT"]) eqn:E;
      [|congruence].
    intros _. apply member_In in E. rewrite Ht.
    rewrite order_type_token_strip; [exact E|].
    destruct E as [<-|[<-|[<-|[]]]]; simpl; auto 10.
  - destruct (member (PyStr.upper (a_type a))
                ["STOP"; "STOP_MARKET"; "TAKE_PROFIT"; "TAKE_PROFIT_MARKET"]) eqn:E;
      [|congruence].
    intros _. apply member_In in E. rewrite Ht.
    rewrite order_type_token_strip; [exact E|].
    destruct E as [<-|[<-|[<-|[<-|[]]]]]; simpl; auto 10.
Qed.

Lemma interactive_order_price_by_type_witness :
  exists t,
    Dict.get (order_params (Order "BTCUSDT" "BUY" "LIMIT" (Dec.Finite false 1 (-2))
                              (Some (Dec.Finite false 50000 0)) None) "GTC") "type"
    = Some (VStr t)
    /\ In t PRICE_REQUIRED_TYPES.
Proof.
  assert (Hw : wire (fst (_interactive_order demo_env (answer 200 "{}") 1 demo_depth
                            (OrderAnswers "btcusdt" "buy" "limit" "0.01" "50000" "" true)
                            (World [] [])))
               = ([] ++ [WireRequest "POST" (BASE_URL ++ ORDER_PATH)
                          (signed_params demo_secret 1
                             (order_params
                                (Order "BTCUSDT" "BUY" "LIMIT" (Dec.Finite false 1 (-2))
                                   (Some (Dec.Finite false 50000 0)) None) "GTC"))
                          15])%list)
    by (vm_compute; reflexivity).
  destruct (interactive_order_price_by_type _ _ _ _ _ _ _ Hw) as (t & Ht & Hp & _).
  exists t. cbn [w_params] in Ht, Hp.
  rewrite signed_params_get_other in Ht by discriminate.
  split; [exact Ht|]. apply Hp. reflexivity.
Defined.

(** ** The price command *)

(** X13.  The [price] command never ends with an exception.  It checks
    the credentials before the symbol: without credentials it reports the
    [ValueError] of the constructor whatever the symbol is, and with an
    invalid symbol the one of the validator; in both cases nothing is
    sent.  Otherwise it sends one unsigned GET with the symbol in its
    stripped, upper-case form as the only parameter. *)
Theorem price_command_steps (env : string -> option string) (net : session)
    (now : Z) (depth : nat) (symbol : string) (w : world) :
  (exists rep, snd (price env net now depth symbol w) = Return rep)
  /\ (forall e, BinanceClient_init env net None None BASE_URL = Raise e ->
        price env net now depth symbol w = (w, Return (PriceError e)))
  /\ (forall client e,
        BinanceClient_init env net None None BASE_URL = Return client ->
        validate_symbol symbol = Raise e ->
        price env net now depth symbol w = (w, Return (PriceError e)))
  /\ (forall client s,
        BinanceClient_init env net None None BASE_URL = Return client ->
        validate_symbol symbol = Return s ->
        s = PyStr.upper (PyStr.strip symbol)
        /\ wire (fst (price env net now depth symbol w))
           = (wire w ++ [WireRequest "GET" (BASE_URL ++ "/fapi/v1/ticker/price")
                           [("symbol", VStr s)] 15])%list).
Proof.
  unfold price. split; [|split; [|split]].
  - destruct ((let! client := lift (BinanceClient_init env net None None BASE_URL) in
               let! symbol0 := lift (validate_symbol symbol) in
               ticker_price client now depth symbol0)%io w) as [w' [data|e]];
      eexists; reflexivity.
  - intros e He. unfold bind at 1, lift at 1. now rewrite He.
  - intros client e Hc He. unfold bind at 1, lift at 1. rewrite Hc.
    unfold bind at 1, lift at 1. now rewrite He.
  - intros client s Hc Hs. split.
    { unfold validate_symbol in Hs. destruct (_ || _); [discriminate|].
      destruct (_ <? _); [discriminate|]. now injection Hs. }
    unfold bind at 1, lift at 1. rewrite Hc.
    unfold bind at 1, lift at 1. rewrite Hs.
    destruct (client_init_fields env net client Hc) as [Hb _].
    pose proof (ticker_price_wire client now depth s w) as Hw.
    rewrite Hb in Hw.
    destruct (ticker_price client now depth s w) as [w' [data|e]]; exact Hw.
Qed.

(** ** The set-up of the logs *)

(** X14.  [setup_logging] acts once.  The first call sets the flag
    before anything else, so that every later call returns at once and
    changes nothing, whether the first call succeeded or left with
    [OSError]: a console handler or a file handler that the first call
    did not add is never added.  A first call that succeeds sets the
    level of the root logger, adds a console handler at INFO and then a
    rotating file handler at DEBUG with the same format, sets the level of
    [urllib3] to WARNING and has the log directory exist. *)
Theorem setup_logging_acts_once (log_dir : string) (dir_ok file_ok : bool)
    (level : Z) (st : Logging.state) :
  let st1 := fst (Logging.setup_logging log_dir dir_ok file_ok level st) in
  (Logging._configured st = false -> Logging._configured st1 = true)
  /\ (Logging._configured st = true ->
      Logging.setup_logging log_dir dir_ok file_ok level st = (st, Logging.Done))
  /\ (forall dir' d f l,
        Logging._configured st = false ->
        Logging.setup_logging dir' d f l st1 = (st1, Logging.Done))
  /\ (Logging._configured st = false -> dir_ok = true -> file_ok = true ->
      snd (Logging.setup_logging log_dir dir_ok file_ok level st) = Logging.Done
      /\ Logging.root_level st1 = level
      /\ Logging.root_handlers st1
         = (Logging.root_handlers st
            ++ [Logging.Handler Logging.StreamHandler Logging.INFO
                  Logging.fmt Logging.datefmt;
                Logging.Handler
                  (Logging.RotatingFileHandler (log_dir ++ "/trading_bot.log")
                     5242880 3 "utf-8")
                  Logging.DEBUG Logging.fmt Logging.datefmt])%list
      /\ Logging.urllib3_level st1 = Some Logging.WARNING
      /\ In log_dir (Logging.directories st1))
  /\ (Logging._configured st = false -> dir_ok = false \/ file_ok = false ->
      exists path,
        snd (Logging.setup_logging log_dir dir_ok file_ok level st)
        = Logging.OSError path
        /\ Logging.urllib3_level st1 = Logging.urllib3_level st
        /\ (length (Logging.root_handlers st1)
            <= S (length (Logging.root_handlers st)))%nat).
Proof.
  intros st1. subst st1. unfold Logging.setup_logging.
  split; [|split; [|split; [|split]]].
  - intros ->. destruct dir_ok, file_ok; reflexivity.
  - now intros ->.
  - intros dir' d f l ->. destruct dir_ok, file_ok; reflexivity.
  - intros -> -> ->. cbn [negb fst snd Logging.root_level Logging.root_handlers
      Logging.urllib3_level Logging.directories].
    repeat split. unfold Logging.makedirs.
    destruct (existsb (String.eqb log_dir) (Logging.directories st)) eqn:E.
    + apply existsb_exists in E as (x & Hx & Ex).
      apply String.eqb_eq in Ex. now subst x.
    + apply in_or_app. right. now left.
  - intros -> [-> | ->].
    + eexists. cbn [negb fst snd Logging.urllib3_level Logging.root_handlers].
      repeat split. lia.
    + destruct dir_ok; eexists;
        cbn [negb fst snd Logging.urllib3_level Logging.root_handlers];
        repeat split; rewrite ?length_app; simpl; lia.
Qed.
